(** * ShaderUp: a shallow embedding of [src/ShaderUp.ts]

    The class [ShaderUp] drives a WebGL context: its constructor validates
    the options, resolves a canvas, builds a program and registers uniforms;
    its methods run the animation-frame loop, upload instance data and
    textures, and release everything on [dispose].

    The embedding threads an explicit [World] (the GL call trace, the DOM
    canvas store, the animation-frame queue, the console) through a small
    state-and-exception monad.  Every method of the class is one definition
    of the same name, taking the receiver [this] as an argument and returning
    the updated receiver. *)

From Stdlib Require Import ZArith QArith.
From stdpp Require Import gmap strings list fin_maps.

Set Warnings "-register-all,-clear-no-such-hyp".

Local Open Scope string_scope.
Local Open Scope list_scope.
Local Open Scope Z_scope.

(** ** JavaScript values *)

(** A JS [number]: an (idealised) rational or [NaN]. *)
Inductive number : Type :=
  | NaN
  | Num (q : Q).

Definition num_of_Z (z : Z) : number := Num (inject_Z z).

(** [!n] is true exactly for [0], [-0] and [NaN]. *)
Definition number_truthy (n : number) : bool :=
  match n with
  | NaN => false
  | Num q => negb (Z.eqb (Qnum q) 0)
  end.

Definition number_mul (a b : number) : number :=
  match a, b with
  | Num x, Num y => Num (Qmult x y)
  | _, _ => NaN
  end.

(** The values a caller can store in the uniform value-bag. *)
Inductive JSValue : Type :=
  | VUndefined
  | VNull
  | VNumber (n : number)
  | VArray (elems : list JSValue).

(** [value === null || value === undefined] *)
Definition is_nullish (v : JSValue) : bool :=
  match v with
  | VUndefined | VNull => true
  | _ => false
  end.

(** [value[i]] for a value that is not nullish. *)
Definition js_index (v : JSValue) (i : nat) : JSValue :=
  match v with
  | VArray elems => nth i elems VUndefined
  | _ => VUndefined
  end.

(** [new Error(msg)] *)
Inductive JSError : Type :=
  | Error (msg : string).

(** ** The types exported by the module *)

Inductive UniformType : Type :=
  | float | vec2 | vec3 | vec4 | int | sampler2D.

Inductive RenderMode : Type :=
  | fullscreen | instanced.

Inductive AttributeType : Type :=
  | FLOAT | UNSIGNED_BYTE.

(** [size] is declared [1 | 2 | 3 | 4]; the code only multiplies it. *)
Record AttributeOptions : Type := {
  size : Z;
  type : option AttributeType;
  attr_instanced : option bool
}.

Definition Handle := nat.
Definition CanvasRef := nat.
Definition Callback := nat.
Definition WebGLUniformLocation := nat.
Definition TexImageSource := nat.
Definition Float32Array := list Q.

(** An object literal used as a dictionary is kept as the list of its
    entries in enumeration order ([Object.entries], [for ... in]). *)
Record ShaderUpOptions : Type := {
  opt_renderMode : option RenderMode;
  opt_canvasId : option string;
  opt_canvas : option CanvasRef;
  opt_fragmentShader : string;
  opt_vertexShader : option string;
  opt_uniforms : option (list (string * UniformType));
  opt_attributes : option (list (string * AttributeOptions));
  opt_numInstances : option number;
  opt_onResize : option Callback
}.

Record UniformInfo : Type := {
  location : WebGLUniformLocation;
  utype : UniformType;
  textureUnit : option nat
}.

(** ** The host: GL context, DOM, animation frames *)

Inductive ShaderKind : Type :=
  | VERTEX_SHADER | FRAGMENT_SHADER.

Inductive BufferUsage : Type :=
  | STATIC_DRAW | DYNAMIC_DRAW.

Inductive DrawMode : Type :=
  | TRIANGLES.

Inductive TexParam : Type :=
  | TEXTURE_WRAP_S | TEXTURE_WRAP_T | TEXTURE_MIN_FILTER | TEXTURE_MAG_FILTER.

Inductive TexParamValue : Type :=
  | CLAMP_TO_EDGE | LINEAR.

(** The calls the class issues on its context, with their arguments. *)
Inductive GLCall : Type :=
  | CreateShader (kind : ShaderKind) (result : option Handle)
  | ShaderSource (shader : Handle) (source : string)
  | CompileShader (shader : Handle)
  | DeleteShader (shader : Handle)
  | CreateProgram (result : option Handle)
  | AttachShader (program shader : Handle)
  | LinkProgram (program : Handle)
  | DeleteProgram (program : Handle)
  | UseProgram (program : Handle)
  | CreateBuffer (result : option Handle)
  | BindBuffer (buffer : option Handle)
  | BufferData (data : Float32Array) (usage : BufferUsage)
  | DeleteBuffer (buffer : Handle)
  | EnableVertexAttribArray (loc : Z)
  | VertexAttribPointer (loc : Z) (components : Z) (ty : AttributeType)
      (normalized : bool) (stride offset : Z)
  | VertexAttribDivisor (loc : Z) (divisor : Z)
  | CreateTexture (result : option Handle)
  | ActiveTexture (unit : nat)
  | BindTexture (texture : option Handle)
  | TexParameteri (pname : TexParam) (value : TexParamValue)
  | TexImage2D (image : TexImageSource)
  | DeleteTexture (texture : option Handle)
  | Viewport (x y : Z) (w h : N)
  | Uniform1f (loc : WebGLUniformLocation) (x : JSValue)
  | Uniform2f (loc : WebGLUniformLocation) (x y : JSValue)
  | Uniform3f (loc : WebGLUniformLocation) (x y z : JSValue)
  | Uniform4f (loc : WebGLUniformLocation) (x y z w : JSValue)
  | Uniform1i (loc : WebGLUniformLocation) (x : JSValue)
  | DrawArrays (mode : DrawMode) (first count : Z)
  | DrawArraysInstanced (mode : DrawMode) (first count : Z) (instanceCount : number).

(** What the host answers; it does not change while the page runs. *)
Record Host : Type := {
  getElementById : string -> option CanvasRef;
  querySelector_canvas : option CanvasRef;
  webgl2_available : CanvasRef -> bool;
  webgl_available : CanvasRef -> bool;
  create_succeeds : Handle -> bool;
  compile_status : Handle -> bool;
  shader_info_log : Handle -> string;
  link_status : Handle -> bool;
  program_info_log : Handle -> string;
  attrib_location : Handle -> string -> Z;
  uniform_location : Handle -> string -> option WebGLUniformLocation;
  drawing_buffer : N -> N -> N * N
}.

(** A canvas element: the backing store [width] x [height], the CSS box
    [clientWidth] x [clientHeight] laid out by the page, and the event types
    on which this instance's handlers are registered. *)
Record Canvas : Type := {
  width : N;
  height : N;
  clientWidth : N;
  clientHeight : N;
  listeners : gset string
}.

Definition blank_canvas : Canvas :=
  {| width := 300; height := 150; clientWidth := 300; clientHeight := 150;
     listeners := ∅ |}.

(** A [ResizeObserver]: the argument its callback passes on, and its targets. *)
Record Observer : Type := {
  ob_onResize : option Callback;
  ob_targets : list CanvasRef
}.

(** [raf_pending] lists the handles of the frame callbacks this instance
    has requested and the host has neither run nor cancelled;
    [frames_executed] counts the frame callbacks the host has run. *)
Record World : Type := {
  host : Host;
  canvases : gmap CanvasRef Canvas;
  gl_calls : list GLCall;
  next_handle : Handle;
  observers : gmap Handle Observer;
  raf_pending : list positive;
  raf_next : positive;
  console : list string;
  resize_callbacks : list (Callback * N * N);
  frames_executed : nat
}.

(** Field updates of the world. *)
Definition set_canvases (v : gmap CanvasRef Canvas) (w : World) : World :=
  {| host := host w; canvases := v; gl_calls := gl_calls w; next_handle := next_handle w; observers := observers w; raf_pending := raf_pending w; raf_next := raf_next w; console := console w; resize_callbacks := resize_callbacks w; frames_executed := frames_executed w |}.
Definition set_gl_calls (v : list GLCall) (w : World) : World :=
  {| host := host w; canvases := canvases w; gl_calls := v; next_handle := next_handle w; observers := observers w; raf_pending := raf_pending w; raf_next := raf_next w; console := console w; resize_callbacks := resize_callbacks w; frames_executed := frames_executed w |}.
Definition set_next_handle (v : Handle) (w : World) : World :=
  {| host := host w; canvases := canvases w; gl_calls := gl_calls w; next_handle := v; observers := observers w; raf_pending := raf_pending w; raf_next := raf_next w; console := console w; resize_callbacks := resize_callbacks w; frames_executed := frames_executed w |}.
Definition set_observers (v : gmap Handle Observer) (w : World) : World :=
  {| host := host w; canvases := canvases w; gl_calls := gl_calls w; next_handle := next_handle w; observers := v; raf_pending := raf_pending w; raf_next := raf_next w; console := console w; resize_callbacks := resize_callbacks w; frames_executed := frames_executed w |}.
Definition set_raf_pending (v : list positive) (w : World) : World :=
  {| host := host w; canvases := canvases w; gl_calls := gl_calls w; next_handle := next_handle w; observers := observers w; raf_pending := v; raf_next := raf_next w; console := console w; resize_callbacks := resize_callbacks w; frames_executed := frames_executed w |}.
Definition set_raf_next (v : positive) (w : World) : World :=
  {| host := host w; canvases := canvases w; gl_calls := gl_calls w; next_handle := next_handle w; observers := observers w; raf_pending := raf_pending w; raf_next := v; console := console w; resize_callbacks := resize_callbacks w; frames_executed := frames_executed w |}.
Definition set_console (v : list string) (w : World) : World :=
  {| host := host w; canvases := canvases w; gl_calls := gl_calls w; next_handle := next_handle w; observers := observers w; raf_pending := raf_pending w; raf_next := raf_next w; console := v; resize_callbacks := resize_callbacks w; frames_executed := frames_executed w |}.
Definition set_resize_callbacks (v : list (Callback * N * N)) (w : World) : World :=
  {| host := host w; canvases := canvases w; gl_calls := gl_calls w; next_handle := next_handle w; observers := observers w; raf_pending := raf_pending w; raf_next := raf_next w; console := console w; resize_callbacks := v; frames_executed := frames_executed w |}.
Definition set_frames_executed (v : nat) (w : World) : World :=
  {| host := host w; canvases := canvases w; gl_calls := gl_calls w; next_handle := next_handle w; observers := observers w; raf_pending := raf_pending w; raf_next := raf_next w; console := console w; resize_callbacks := resize_callbacks w; frames_executed := v |}.

(** ** The instance *)

Inductive ContextKind : Type :=
  | WebGL2 | WebGL1.

(** A JS [Map]: entries in insertion order; [set] on a present key keeps
    its position. *)
Definition JSMap (K V : Type) : Type := list (K * V).

Fixpoint jsmap_get {K V} `{EqDecision K} (k : K) (m : JSMap K V) : option V :=
  match m with
  | [] => None
  | (k', v) :: rest => if decide (k' = k) then Some v else jsmap_get k rest
  end.

Fixpoint jsmap_set {K V} `{EqDecision K} (k : K) (v : V) (m : JSMap K V) : JSMap K V :=
  match m with
  | [] => [(k, v)]
  | (k', v') :: rest =>
      if decide (k' = k) then (k, v) :: rest else (k', v') :: jsmap_set k v rest
  end.

(** The fields of [class ShaderUp]. [animationFrameId] holds a handle of
    [requestAnimationFrame], which is never zero, so it is truthy exactly
    when it is not [null]. *)
Record ShaderUp : Type := {
  canvas : CanvasRef;
  gl : ContextKind;
  uniforms : gmap string JSValue;
  renderMode : RenderMode;
  attributeOptions : option (list (string * AttributeOptions));
  numInstances : number;
  program : option Handle;
  animationFrameId : option positive;
  resizeObserver : option Handle;
  isDestroyed : bool;
  uniformInfo : JSMap string UniformInfo;
  textures : JSMap nat (option Handle);
  instanceBuffer : option Handle;
  timeLocation : option WebGLUniformLocation;
  resolutionLocation : option WebGLUniformLocation
}.

Definition set_uniforms (v : gmap string JSValue) (this : ShaderUp) : ShaderUp :=
  {| canvas := canvas this; gl := gl this; uniforms := v; renderMode := renderMode this; attributeOptions := attributeOptions this; numInstances := numInstances this; program := program this; animationFrameId := animationFrameId this; resizeObserver := resizeObserver this; isDestroyed := isDestroyed this; uniformInfo := uniformInfo this; textures := textures this; instanceBuffer := instanceBuffer this; timeLocation := timeLocation this; resolutionLocation := resolutionLocation this |}.
Definition set_program (v : option Handle) (this : ShaderUp) : ShaderUp :=
  {| canvas := canvas this; gl := gl this; uniforms := uniforms this; renderMode := renderMode this; attributeOptions := attributeOptions this; numInstances := numInstances this; program := v; animationFrameId := animationFrameId this; resizeObserver := resizeObserver this; isDestroyed := isDestroyed this; uniformInfo := uniformInfo this; textures := textures this; instanceBuffer := instanceBuffer this; timeLocation := timeLocation this; resolutionLocation := resolutionLocation this |}.
Definition set_animationFrameId (v : option positive) (this : ShaderUp) : ShaderUp :=
  {| canvas := canvas this; gl := gl this; uniforms := uniforms this; renderMode := renderMode this; attributeOptions := attributeOptions this; numInstances := numInstances this; program := program this; animationFrameId := v; resizeObserver := resizeObserver this; isDestroyed := isDestroyed this; uniformInfo := uniformInfo this; textures := textures this; instanceBuffer := instanceBuffer this; timeLocation := timeLocation this; resolutionLocation := resolutionLocation this |}.
Definition set_resizeObserver (v : option Handle) (this : ShaderUp) : ShaderUp :=
  {| canvas := canvas this; gl := gl this; uniforms := uniforms this; renderMode := renderMode this; attributeOptions := attributeOptions this; numInstances := numInstances this; program := program this; animationFrameId := animationFrameId this; resizeObserver := v; isDestroyed := isDestroyed this; uniformInfo := uniformInfo this; textures := textures this; instanceBuffer := instanceBuffer this; timeLocation := timeLocation this; resolutionLocation := resolutionLocation this |}.
Definition set_isDestroyed (v : bool) (this : ShaderUp) : ShaderUp :=
  {| canvas := canvas this; gl := gl this; uniforms := uniforms this; renderMode := renderMode this; attributeOptions := attributeOptions this; numInstances := numInstances this; program := program this; animationFrameId := animationFrameId this; resizeObserver := resizeObserver this; isDestroyed := v; uniformInfo := uniformInfo this; textures := textures this; instanceBuffer := instanceBuffer this; timeLocation := timeLocation this; resolutionLocation := resolutionLocation this |}.
Definition set_uniformInfo (v : JSMap string UniformInfo) (this : ShaderUp) : ShaderUp :=
  {| canvas := canvas this; gl := gl this; uniforms := uniforms this; renderMode := renderMode this; attributeOptions := attributeOptions this; numInstances := numInstances this; program := program this; animationFrameId := animationFrameId this; resizeObserver := resizeObserver this; isDestroyed := isDestroyed this; uniformInfo := v; textures := textures this; instanceBuffer := instanceBuffer this; timeLocation := timeLocation this; resolutionLocation := resolutionLocation this |}.
Definition set_textures (v : JSMap nat (option Handle)) (this : ShaderUp) : ShaderUp :=
  {| canvas := canvas this; gl := gl this; uniforms := uniforms this; renderMode := renderMode this; attributeOptions := attributeOptions this; numInstances := numInstances this; program := program this; animationFrameId := animationFrameId this; resizeObserver := resizeObserver this; isDestroyed := isDestroyed this; uniformInfo := uniformInfo this; textures := v; instanceBuffer := instanceBuffer this; timeLocation := timeLocation this; resolutionLocation := resolutionLocation this |}.
Definition set_instanceBuffer (v : option Handle) (this : ShaderUp) : ShaderUp :=
  {| canvas := canvas this; gl := gl this; uniforms := uniforms this; renderMode := renderMode this; attributeOptions := attributeOptions this; numInstances := numInstances this; program := program this; animationFrameId := animationFrameId this; resizeObserver := resizeObserver this; isDestroyed := isDestroyed this; uniformInfo := uniformInfo this; textures := textures this; instanceBuffer := v; timeLocation := timeLocation this; resolutionLocation := resolutionLocation this |}.
Definition set_timeLocation (v : option WebGLUniformLocation) (this : ShaderUp) : ShaderUp :=
  {| canvas := canvas this; gl := gl this; uniforms := uniforms this; renderMode := renderMode this; attributeOptions := attributeOptions this; numInstances := numInstances this; program := program this; animationFrameId := animationFrameId this; resizeObserver := resizeObserver this; isDestroyed := isDestroyed this; uniformInfo := uniformInfo this; textures := textures this; instanceBuffer := instanceBuffer this; timeLocation := v; resolutionLocation := resolutionLocation this |}.
Definition set_resolutionLocation (v : option WebGLUniformLocation) (this : ShaderUp) : ShaderUp :=
  {| canvas := canvas this; gl := gl this; uniforms := uniforms this; renderMode := renderMode this; attributeOptions := attributeOptions this; numInstances := numInstances this; program := program this; animationFrameId := animationFrameId this; resizeObserver := resizeObserver this; isDestroyed := isDestroyed this; uniformInfo := uniformInfo this; textures := textures this; instanceBuffer := instanceBuffer this; timeLocation := timeLocation this; resolutionLocation := v |}.

(** ** The monad: state [World], exceptions [JSError] *)

Inductive Result (A : Type) : Type :=
  | Ok (a : A)
  | Throw (e : JSError).

Arguments Ok {A} a.
Arguments Throw {A} e.

Definition M (A : Type) : Type := World -> Result A * World.

Definition ret {A} (a : A) : M A := fun w => (Ok a, w).

Definition throw {A} (e : JSError) : M A := fun w => (Throw e, w).

Definition bind {A B} (m : M A) (k : A -> M B) : M B :=
  fun w =>
    match m w with
    | (Ok a, w') => k a w'
    | (Throw e, w') => (Throw e, w')
    end.

(** stdpp's monad notations: [x ← m; k] and [m;; k]. *)
#[global] Instance M_ret : MRet M := @ret.
#[global] Instance M_bind : MBind M := fun A B k m => bind m k.

Definition get_world : M World := fun w => (Ok w, w).

Definition modify (f : World -> World) : M unit := fun w => (Ok tt, f w).

(** [for (const x of xs) body], threading the loop-carried variables [acc]. *)
Fixpoint for_each {A S} (body : S -> A -> M S) (xs : list A) (acc : S) : M S :=
  match xs with
  | [] => ret acc
  | x :: rest => acc' ← body acc x; for_each body rest acc'
  end.

(** ** Host primitives *)

Definition ask {A} (f : Host -> A) : M A := fun w => (Ok (f (host w)), w).

Definition gl_call (c : GLCall) : M unit :=
  modify (fun w => set_gl_calls (gl_calls w ++ [c]) w).

(** Object creation answers a fresh handle, or [null]. *)
Definition gl_create (call : option Handle -> GLCall) : M (option Handle) :=
  fun w =>
    let h := next_handle w in
    let r := if create_succeeds (host w) h then Some h else None in
    (Ok r, set_gl_calls (gl_calls w ++ [call r]) (set_next_handle (S h) w)).

Definition getAttribLocation (program : Handle) (name : string) : M Z :=
  ask (fun hst => attrib_location hst program name).

Definition getUniformLocation (program : Handle) (name : string)
  : M (option WebGLUniformLocation) :=
  ask (fun hst => uniform_location hst program name).

Definition read_canvas (c : CanvasRef) : M Canvas :=
  fun w => (Ok (default blank_canvas (canvases w !! c)), w).

Definition update_canvas (c : CanvasRef) (f : Canvas -> Canvas) : M unit :=
  modify (fun w =>
    set_canvases (<[c := f (default blank_canvas (canvases w !! c))]> (canvases w)) w).

Definition set_size (w h : N) (cv : Canvas) : Canvas :=
  {| width := w; height := h; clientWidth := clientWidth cv;
     clientHeight := clientHeight cv; listeners := listeners cv |}.

Definition set_listeners (l : gset string) (cv : Canvas) : Canvas :=
  {| width := width cv; height := height cv; clientWidth := clientWidth cv;
     clientHeight := clientHeight cv; listeners := l |}.

Definition addEventListener (c : CanvasRef) (ev : string) : M unit :=
  update_canvas c (fun cv => set_listeners (listeners cv ∪ {[ev]}) cv).

Definition removeEventListener (c : CanvasRef) (ev : string) : M unit :=
  update_canvas c (fun cv => set_listeners (listeners cv ∖ {[ev]}) cv).

Definition getContext (c : CanvasRef) (kind : ContextKind) : M (option ContextKind) :=
  ok ← ask (fun hst =>
         match kind with
         | WebGL2 => webgl2_available hst c
         | WebGL1 => webgl_available hst c
         end);
  mret (if ok : bool then Some kind else None).

(** [gl.drawingBufferWidth], [gl.drawingBufferHeight] *)
Definition drawingBufferSize (c : CanvasRef) : M (N * N) :=
  cv ← read_canvas c;
  ask (fun hst => drawing_buffer hst (width cv) (height cv)).

Definition requestAnimationFrame : M positive :=
  fun w =>
    let id := raf_next w in
    (Ok id, set_raf_next (Pos.succ id) (set_raf_pending (raf_pending w ++ [id]) w)).

Definition cancelAnimationFrame (id : positive) : M unit :=
  modify (fun w =>
    set_raf_pending (filter (fun id' => id' ≠ id) (raf_pending w)) w).

Definition console_warn (msg : string) : M unit :=
  modify (fun w => set_console (console w ++ [msg]) w).

Definition console_log (msg : string) : M unit :=
  modify (fun w => set_console (console w ++ [msg]) w).

Definition new_ResizeObserver (arg : option Callback) : M Handle :=
  fun w =>
    let h := next_handle w in
    (Ok h, set_observers (<[h := {| ob_onResize := arg; ob_targets := [] |}]> (observers w))
             (set_next_handle (S h) w)).

Definition observe (h : Handle) (c : CanvasRef) : M unit :=
  modify (fun w =>
    set_observers
      (alter (fun ob => {| ob_onResize := ob_onResize ob;
                           ob_targets := ob_targets ob ++ [c] |}) h (observers w)) w).

Definition disconnect (h : Handle) : M unit :=
  modify (fun w =>
    set_observers
      (alter (fun ob => {| ob_onResize := ob_onResize ob; ob_targets := [] |})
         h (observers w)) w).

(** The caller's resize callback is opaque: its invocations are recorded. *)
Definition call_onResize (cb : Callback) (w h : N) : M unit :=
  modify (fun wd => set_resize_callbacks (resize_callbacks wd ++ [(cb, w, h)]) wd).

Definition when (b : bool) (m : M unit) : M unit :=
  if b then m else mret tt.

Definition dquote : string := String (Ascii.ascii_of_nat 34) EmptyString.

Definition string_truthy (s : string) : bool :=
  match s with
  | EmptyString => false
  | _ => true
  end.

Definition VInt (z : Z) : JSValue := VNumber (num_of_Z z).

(** ** The class *)

Definition UNIFORM_TIME : string := "u_time".
Definition UNIFORM_RESOLUTION : string := "u_resolution".
Definition ATTRIB_POSITION : string := "a_position".

Definition getDefaultUniformValue (ty : UniformType) : JSValue :=
  match ty with
  | float => VNumber (Num 0)
  | vec2 => VArray [VInt 0; VInt 0]
  | vec3 => VArray [VInt 0; VInt 0; VInt 0]
  | vec4 => VArray [VInt 0; VInt 0; VInt 0; VInt 0]
  | int => VInt 0
  | sampler2D => VNull
  end.

Definition getDefaultVertexShader (this : ShaderUp) : string :=
  match renderMode this with
  | instanced =>
"#version 300 es
        in vec2 a_quadVertex; // (0,0) to (1,1)
        
        // Example instance attributes (users must define these in options)
        in vec4 a_instanceRect;   // xy = pos, zw = size
        
        uniform vec2 u_resolution;
        
        out vec2 v_uv;

        void main() {
            // Create a screen-space position from the instance rect and quad vertex
            vec2 finalPos = a_instanceRect.xy + (a_quadVertex * a_instanceRect.zw);
        
            // Convert from pixels to clip space
            vec2 clipSpace = (finalPos / u_resolution) * 2.0 - 1.0;
            clipSpace.y *= -1.0; // Flip Y for WebGL
        
            gl_Position = vec4(clipSpace, 0.0, 1.0);
        
            v_uv = a_quadVertex;
        }
      "
  | fullscreen =>
"
      attribute vec2 " +:+ ATTRIB_POSITION +:+ ";
      void main() {
        gl_Position = vec4(" +:+ ATTRIB_POSITION +:+ ", 0.0, 1.0);
      }
    "
  end.

Definition createShader (kind : ShaderKind) (source : string) : M Handle :=
  shader ← gl_create (CreateShader kind);
  match shader with
  | None => throw (Error "[ShaderUp] Unable to create shader object.")
  | Some shader =>
      gl_call (ShaderSource shader source);;
      gl_call (CompileShader shader);;
      ok ← ask (fun hst => compile_status hst shader);
      if ok : bool then mret shader
      else
        log ← ask (fun hst => shader_info_log hst shader);
        gl_call (DeleteShader shader);;
        throw (Error ("[ShaderUp] Shader compilation failed:
" +:+ log))
  end.

Definition createProgram (vs fs : Handle) : M Handle :=
  program ← gl_create CreateProgram;
  match program with
  | None => throw (Error "[ShaderUp] Unable to create program object.")
  | Some program =>
      gl_call (AttachShader program vs);;
      gl_call (AttachShader program fs);;
      gl_call (LinkProgram program);;
      ok ← ask (fun hst => link_status hst program);
      if ok : bool then mret program
      else
        log ← ask (fun hst => program_info_log hst program);
        gl_call (DeleteProgram program);;
        throw (Error ("[ShaderUp] Program linking failed:
" +:+ log))
  end.

Definition handleResize (this : ShaderUp) (callback : option Callback) : M unit :=
  cv ← read_canvas (canvas this);
  let displayWidth := clientWidth cv in
  let displayHeight := clientHeight cv in
  if negb (width cv =? displayWidth)%N || negb (height cv =? displayHeight)%N then
    update_canvas (canvas this) (set_size displayWidth displayHeight);;
    '(bw, bh) ← drawingBufferSize (canvas this);
    gl_call (Viewport 0 0 bw bh);;
    match callback with
    | Some cb => call_onResize cb displayWidth displayHeight
    | None => mret tt
    end
  else mret tt.

Definition fullscreen_triangle : Float32Array :=
  map inject_Z [-1; -1; 3; -1; -1; 3].

Definition unit_quad : Float32Array :=
  map inject_Z [0; 0; 1; 0; 0; 1; 0; 1; 1; 0; 1; 1].

Definition initFullscreenResources (this : ShaderUp) : M unit :=
  match program this with
  | None => mret tt
  | Some program =>
      positionBuffer ← gl_create CreateBuffer;
      gl_call (BindBuffer positionBuffer);;
      gl_call (BufferData fullscreen_triangle STATIC_DRAW);;
      positionLoc ← getAttribLocation program ATTRIB_POSITION;
      gl_call (EnableVertexAttribArray positionLoc);;
      gl_call (VertexAttribPointer positionLoc 2 FLOAT false 0 0)
  end.

(** First loop of [initInstancedResources]: [stride += opts.size * 4]. *)
Definition compute_stride (attributeOptions : list (string * AttributeOptions)) : Z :=
  fold_left (fun stride '(_, opts) => stride + size opts * 4) attributeOptions 0.

(** Body of the second loop; the loop-carried variable is [offset]. *)
Definition bind_attribute (program : Handle) (stride : Z)
    (offset : Z) (entry : string * AttributeOptions) : M Z :=
  let '(name, opts) := entry in
  loc ← getAttribLocation program name;
  if loc =? -1 then
    console_warn ("[ShaderUp] Attribute " +:+ dquote +:+ name +:+ dquote
                  +:+ " not found in shader.");;
    mret offset
  else
    gl_call (EnableVertexAttribArray loc);;
    let glType := FLOAT in
    gl_call (VertexAttribPointer loc (size opts) glType false stride offset);;
    when (default false (attr_instanced opts)) (gl_call (VertexAttribDivisor loc 1));;
    mret (offset + size opts * 4).

Definition initInstancedResources (this : ShaderUp) : M ShaderUp :=
  match program this, attributeOptions this with
  | Some program, Some attributeOptions =>
      quadBuffer ← gl_create CreateBuffer;
      gl_call (BindBuffer quadBuffer);;
      gl_call (BufferData unit_quad STATIC_DRAW);;
      quadLoc ← getAttribLocation program "a_quadVertex";
      gl_call (EnableVertexAttribArray quadLoc);;
      gl_call (VertexAttribPointer quadLoc 2 FLOAT false 0 0);;
      instanceBuffer ← gl_create CreateBuffer;
      let this := set_instanceBuffer instanceBuffer this in
      gl_call (BindBuffer instanceBuffer);;
      let stride := compute_stride attributeOptions in
      _ ← for_each (bind_attribute program stride) attributeOptions 0;
      mret this
  | _, _ => mret this
  end.

(** Body of the uniform loop of [initResources]; the loop carries the
    receiver and [texUnitCount]. *)
Definition register_uniform (program : Handle)
    (acc : ShaderUp * nat) (entry : string * UniformType) : M (ShaderUp * nat) :=
  let '(this, texUnitCount) := acc in
  let '(name, ty) := entry in
  location ← getUniformLocation program name;
  match location with
  | None =>
      console_warn ("[ShaderUp] Uniform " +:+ dquote +:+ name +:+ dquote
        +:+ " not found in shader source (it may be unused and optimized out).");;
      mret (this, texUnitCount)
  | Some location =>
      let '(info, texUnitCount) :=
        match ty with
        | sampler2D =>
            ({| location := location; utype := ty; textureUnit := Some texUnitCount |},
             S texUnitCount)
        | _ =>
            ({| location := location; utype := ty; textureUnit := None |}, texUnitCount)
        end in
      let this := set_uniformInfo (jsmap_set name info (uniformInfo this)) this in
      let this := set_uniforms (<[name := getDefaultUniformValue ty]> (uniforms this)) this in
      mret (this, texUnitCount)
  end.

Definition initResources (this : ShaderUp) (options : ShaderUpOptions) : M ShaderUp :=
  let vsSource :=
    match opt_vertexShader options with
    | Some s => if string_truthy s then s else getDefaultVertexShader this
    | None => getDefaultVertexShader this
    end in
  vertexShader ← createShader VERTEX_SHADER vsSource;
  fragmentShader ← createShader FRAGMENT_SHADER (opt_fragmentShader options);
  program ← createProgram vertexShader fragmentShader;
  let this := set_program (Some program) this in
  gl_call (DeleteShader vertexShader);;
  gl_call (DeleteShader fragmentShader);;
  this ← match renderMode this with
         | fullscreen => initFullscreenResources this;; mret this
         | instanced => initInstancedResources this
         end;
  timeLocation ← getUniformLocation program UNIFORM_TIME;
  let this := set_timeLocation timeLocation this in
  resolutionLocation ← getUniformLocation program UNIFORM_RESOLUTION;
  let this := set_resolutionLocation resolutionLocation this in
  this ← match opt_uniforms options with
         | Some decls =>
             '(this, _) ← for_each (register_uniform program) decls (this, 0%nat);
             mret this
         | None => mret this
         end;
  handleResize this (opt_onResize options);;
  mret this.

Definition msg_numInstances_required : string :=
  "[ShaderUp] 'numInstances' is required for 'instanced' renderMode.".

Definition msg_attributes_required : string :=
  "[ShaderUp] 'attributes' are required for 'instanced' renderMode.".

(** The constructor's opening block: "Validate options for instanced mode".
    It returns what is assigned to [numInstances] and [attributeOptions]. *)
Definition validate_options (options : ShaderUpOptions) (renderMode : RenderMode)
  : M (number * option (list (string * AttributeOptions))) :=
  match renderMode with
  | instanced =>
      match opt_numInstances options with
      | Some n =>
          if number_truthy n then
            match opt_attributes options with
            | Some attrs => mret (n, Some attrs)
            | None => throw (Error msg_attributes_required)
            end
          else throw (Error msg_numInstances_required)
      | None => throw (Error msg_numInstances_required)
      end
  | fullscreen => mret (num_of_Z 0, None)
  end.

(** [document.querySelector('canvas')], or the "no canvas" error. *)
Definition first_canvas : M CanvasRef :=
  el ← ask querySelector_canvas;
  match el with
  | Some el => mret el
  | None => throw (Error "[ShaderUp] No <canvas> element found on page.")
  end.

(** Block 1 of the constructor: "Resolve Canvas". *)
Definition resolve_canvas (options : ShaderUpOptions) : M CanvasRef :=
  match opt_canvas options with
  | Some c => mret c
  | None =>
      match opt_canvasId options with
      | Some id =>
          if string_truthy id then
            el ← ask (fun hst => getElementById hst id);
            match el with
            | Some el => mret el
            | None => throw (Error ("[ShaderUp] Canvas #" +:+ id +:+ " not found."))
            end
          else first_canvas
      | None => first_canvas
      end
  end.

(** Block 2 of the constructor: "Initialize Context". *)
Definition initialize_context (renderMode : RenderMode) (canvas : CanvasRef)
  : M ContextKind :=
  gl ←
    match renderMode with
    | instanced =>
        gl ← getContext canvas WebGL2;
        match gl with
        | Some _ => mret gl
        | None => throw (Error "[ShaderUp] WebGL2 is required for 'instanced' renderMode.")
        end
    | fullscreen =>
        gl ← getContext canvas WebGL2;
        match gl with
        | Some _ => mret gl
        | None => getContext canvas WebGL1
        end
    end;
  match gl with
  | Some gl => mret gl
  | None => throw (Error "[ShaderUp] WebGL not supported in this browser.")
  end.

(** [new ShaderUp(options)] *)
Definition constructor (options : ShaderUpOptions) : M ShaderUp :=
  let renderMode := default fullscreen (opt_renderMode options) in
  '(numInstances, attributeOptions) ← validate_options options renderMode;
  canvas ← resolve_canvas options;
  gl ← initialize_context renderMode canvas;
  let this :=
    {| canvas := canvas; gl := gl; uniforms := ∅; renderMode := renderMode;
       attributeOptions := attributeOptions; numInstances := numInstances;
       program := None; animationFrameId := None; resizeObserver := None;
       isDestroyed := false; uniformInfo := []; textures := [];
       instanceBuffer := None; timeLocation := None; resolutionLocation := None |} in
  (* 3. Bind Robustness Events *)
  addEventListener canvas "webglcontextlost";;
  addEventListener canvas "webglcontextrestored";;
  (* 4. Setup Resources *)
  this ← initResources this options;
  (* 5. Setup Resize Observer *)
  observer ← new_ResizeObserver (opt_onResize options);
  let this := set_resizeObserver (Some observer) this in
  observe observer canvas;;
  mret this.

Definition setData (this : ShaderUp) (data : Float32Array) : M ShaderUp :=
  match renderMode this with
  | instanced =>
      if isDestroyed this then mret this
      else
        gl_call (BindBuffer (instanceBuffer this));;
        gl_call (BufferData data DYNAMIC_DRAW);;
        mret this
  | fullscreen => mret this
  end.

Definition setTexture (this : ShaderUp) (name : string) (image : TexImageSource)
  : M ShaderUp :=
  if isDestroyed this then mret this
  else
    let not_registered :=
      console_warn ("[ShaderUp] Warning: " +:+ dquote +:+ name +:+ dquote
                    +:+ " is not a registered sampler2D uniform.");;
      mret this in
    match jsmap_get name (uniformInfo this) with
    | Some info =>
        match utype info, textureUnit info with
        | sampler2D, Some unit =>
            '(this, texture) ←
              match jsmap_get unit (textures this) with
              | Some (Some texture) => mret (this, Some texture)
              | _ =>
                  texture ← gl_create CreateTexture;
                  mret (set_textures (jsmap_set unit texture (textures this)) this,
                        texture)
              end;
            gl_call (ActiveTexture unit);;
            gl_call (BindTexture texture);;
            gl_call (TexParameteri TEXTURE_WRAP_S CLAMP_TO_EDGE);;
            gl_call (TexParameteri TEXTURE_WRAP_T CLAMP_TO_EDGE);;
            gl_call (TexParameteri TEXTURE_MIN_FILTER LINEAR);;
            gl_call (TexParameteri TEXTURE_MAG_FILTER LINEAR);;
            gl_call (TexImage2D image);;
            mret this
        | _, _ => not_registered
        end
    | None => not_registered
    end.

Definition start (this : ShaderUp) : M ShaderUp :=
  match animationFrameId this with
  | None =>
      if isDestroyed this then mret this
      else
        id ← requestAnimationFrame;
        mret (set_animationFrameId (Some id) this)
  | Some _ => mret this
  end.

Definition stop (this : ShaderUp) : M ShaderUp :=
  match animationFrameId this with
  | Some id =>
      cancelAnimationFrame id;;
      mret (set_animationFrameId None this)
  | None => mret this
  end.

Definition dispose (this : ShaderUp) : M ShaderUp :=
  this ← stop this;
  let this := set_isDestroyed true this in
  this ← match resizeObserver this with
         | Some observer =>
             disconnect observer;;
             mret (set_resizeObserver None this)
         | None => mret this
         end;
  removeEventListener (canvas this) "webglcontextlost";;
  removeEventListener (canvas this) "webglcontextrestored";;
  _ ← for_each (fun (_ : unit) '(_, tex) => gl_call (DeleteTexture tex))
        (textures this) tt;
  let this := set_textures [] this in
  this ← match instanceBuffer this with
         | Some buffer =>
             gl_call (DeleteBuffer buffer);;
             mret (set_instanceBuffer None this)
         | None => mret this
         end;
  match program this with
  | Some program =>
      gl_call (DeleteProgram program);;
      mret (set_program None this)
  | None => mret this
  end.

Definition handleContextLost (this : ShaderUp) : M ShaderUp :=
  this ← stop this;
  console_warn "[ShaderUp] Context Lost";;
  mret this.

Definition handleContextRestored (this : ShaderUp) : M ShaderUp :=
  console_log "[ShaderUp] Context Restored - Re-initializing...";;
  mret this.

(** Body of the custom-uniform loop of [render]. *)
Definition upload_uniform (this : ShaderUp)
    (_ : unit) (entry : string * UniformInfo) : M unit :=
  let '(name, info) := entry in
  let value := default VUndefined (uniforms this !! name) in
  if is_nullish value then mret tt
  else
    match utype info with
    | float => gl_call (Uniform1f (location info) value)
    | vec2 =>
        gl_call (Uniform2f (location info) (js_index value 0) (js_index value 1))
    | vec3 =>
        gl_call (Uniform3f (location info)
                   (js_index value 0) (js_index value 1) (js_index value 2))
    | vec4 =>
        gl_call (Uniform4f (location info)
                   (js_index value 0) (js_index value 1) (js_index value 2)
                   (js_index value 3))
    | int => gl_call (Uniform1i (location info) value)
    | sampler2D =>
        match textureUnit info with
        | Some unit => gl_call (Uniform1i (location info) (VInt (Z.of_nat unit)))
        | None => mret tt
        end
    end.

Definition render (this : ShaderUp) (time : number) : M ShaderUp :=
  match isDestroyed this, program this with
  | false, Some program =>
      gl_call (UseProgram program);;
      match timeLocation this with
      | Some loc =>
          gl_call (Uniform1f loc (VNumber (number_mul time (Num (Qmake 1 1000)))))
      | None => mret tt
      end;;
      match resolutionLocation this with
      | Some loc =>
          '(bw, bh) ← drawingBufferSize (canvas this);
          gl_call (Uniform2f loc (VInt (Z.of_N bw)) (VInt (Z.of_N bh)))
      | None => mret tt
      end;;
      for_each (upload_uniform this) (uniformInfo this) tt;;
      match renderMode this with
      | fullscreen => gl_call (DrawArrays TRIANGLES 0 3)
      | instanced => gl_call (DrawArraysInstanced TRIANGLES 0 6 (numInstances this))
      end;;
      id ← requestAnimationFrame;
      mret (set_animationFrameId (Some id) this)
  | _, _ => mret this
  end.

(** ** The page around the instance *)

(** What can happen to a constructed instance: the caller's method calls
    and writes to [shader.uniforms], and the host's callbacks. *)
Inductive Event : Type :=
  | call_start
  | call_stop
  | call_dispose
  | call_setData (data : Float32Array)
  | call_setTexture (name : string) (image : TexImageSource)
  | write_uniform (name : string) (value : JSValue)
  | animation_frame (time : number)
  | resize_observed (observer : Handle)
  | layout (w h : N)
  | context_lost
  | context_restored.

(** The host runs the frame callbacks requested so far; callbacks requested
    meanwhile wait for the next frame. Every callback is [boundRender]. *)
Definition run_animation_frame (this : ShaderUp) (time : number) : M ShaderUp :=
  w ← get_world;
  let callbacks := raf_pending w in
  modify (set_raf_pending []);;
  for_each (fun this (_ : positive) =>
              modify (fun w => set_frames_executed (S (frames_executed w)) w);;
              render this time)
           callbacks this.

(** The observer created by the constructor calls
    [this.handleResize(options.onResize)]. *)
Definition run_resize_observer (this : ShaderUp) (observer : Handle) : M ShaderUp :=
  w ← get_world;
  match observers w !! observer with
  | Some ob =>
      match ob_targets ob with
      | [] => mret this
      | _ :: _ => handleResize this (ob_onResize ob);; mret this
      end
  | None => mret this
  end.

Definition dispatch (this : ShaderUp) (ev : string)
    (handler : ShaderUp -> M ShaderUp) : M ShaderUp :=
  cv ← read_canvas (canvas this);
  if decide (ev ∈ listeners cv) then handler this else mret this.

Definition set_client_size (w h : N) (cv : Canvas) : Canvas :=
  {| width := width cv; height := height cv; clientWidth := w;
     clientHeight := h; listeners := listeners cv |}.

Definition step (ev : Event) (this : ShaderUp) : M ShaderUp :=
  match ev with
  | call_start => start this
  | call_stop => stop this
  | call_dispose => dispose this
  | call_setData data => setData this data
  | call_setTexture name image => setTexture this name image
  | write_uniform name value =>
      mret (set_uniforms (<[name := value]> (uniforms this)) this)
  | animation_frame time => run_animation_frame this time
  | resize_observed observer => run_resize_observer this observer
  | layout w h => update_canvas (canvas this) (set_client_size w h);; mret this
  | context_lost => dispatch this "webglcontextlost" handleContextLost
  | context_restored => dispatch this "webglcontextrestored" handleContextRestored
  end.

Definition run (evs : list Event) (this : ShaderUp) : M ShaderUp :=
  for_each (fun this ev => step ev this) evs this.

(** The states of an instance built by [new ShaderUp(options)] on a page
    where none of its frame callbacks can be pending yet. *)
Inductive reachable (options : ShaderUpOptions) : ShaderUp -> World -> Prop :=
  | reachable_new w0 this w :
      raf_pending w0 = [] ->
      constructor options w0 = (Ok this, w) ->
      reachable options this w
  | reachable_step ev this w this' w' :
      reachable options this w ->
      step ev this w = (Ok this', w') ->
      reachable options this' w'.

(** ** A page to run examples on *)

Definition demo_host : Host :=
  {| getElementById := fun id => if decide (id = "shader-canvas") then Some 0%nat else None;
     querySelector_canvas := Some 0%nat;
     webgl2_available := fun _ => true;
     webgl_available := fun _ => true;
     create_succeeds := fun _ => true;
     compile_status := fun _ => true;
     shader_info_log := fun _ => EmptyString;
     link_status := fun _ => true;
     program_info_log := fun _ => EmptyString;
     attrib_location := fun _ name =>
       if decide (name = "a_quadVertex") then 0
       else if decide (name = "a_position") then 0
       else if decide (name = "a_instanceRect") then 1
       else if decide (name = "a_hoverState") then 2
       else -1;
     uniform_location := fun _ name =>
       if decide (name = "u_time") then Some 0%nat
       else if decide (name = "u_resolution") then Some 1%nat
       else if decide (name = "u_color") then Some 2%nat
       else if decide (name = "u_image") then Some 3%nat
       else None;
     drawing_buffer := fun w h => (w, h) |}.

Definition demo_canvas : Canvas :=
  {| width := 300; height := 150; clientWidth := 800; clientHeight := 600;
     listeners := ∅ |}.

Definition demo_world : World :=
  {| host := demo_host; canvases := {[ 0%nat := demo_canvas ]}; gl_calls := [];
     next_handle := 0%nat; observers := ∅; raf_pending := []; raf_next := 1%positive;
     console := []; resize_callbacks := []; frames_executed := 0%nat |}.

Definition demo_fullscreen : ShaderUpOptions :=
  {| opt_renderMode := None; opt_canvasId := Some "shader-canvas";
     opt_canvas := None; opt_fragmentShader := "void main() {}";
     opt_vertexShader := None;
     opt_uniforms := Some [("u_color", vec4); ("u_gone", float); ("u_image", sampler2D)];
     opt_attributes := None; opt_numInstances := None; opt_onResize := Some 7%nat |}.

(** [Object.entries(options.uniforms)], empty when there are none. *)
Definition opt_uniforms_list (options : ShaderUpOptions) : list (string * UniformType) :=
  default [] (opt_uniforms options).

(** The program of the instance a constructor run returned, if any. *)
Definition built_program (r : Result ShaderUp * World) : option Handle :=
  match r with
  | (Ok this, _) => program this
  | (Throw _, _) => None
  end.

Definition demo_instanced : ShaderUpOptions :=
  {| opt_renderMode := Some instanced; opt_canvasId := None;
     opt_canvas := Some 0%nat; opt_fragmentShader := "void main() {}";
     opt_vertexShader := None; opt_uniforms := None;
     opt_attributes :=
       Some [("a_instanceRect", {| size := 4; type := None; attr_instanced := Some true |});
             ("a_unused", {| size := 3; type := None; attr_instanced := Some true |});
             ("a_hoverState", {| size := 1; type := None; attr_instanced := Some true |})];
     opt_numInstances := Some (num_of_Z 3); opt_onResize := None |}.

(** ** Vocabulary of the properties *)

(** The constructor's two errors about missing instanced-mode fields. *)
Definition ConfigurationError (e : JSError) : Prop :=
  e = Error msg_numInstances_required \/ e = Error msg_attributes_required.

Definition C1_options_without_attributes : ShaderUpOptions :=
  {| opt_renderMode := Some instanced; opt_canvasId := None; opt_canvas := None;
     opt_fragmentShader := "void main() {}"; opt_vertexShader := None;
     opt_uniforms := None; opt_attributes := None;
     opt_numInstances := Some (num_of_Z 3); opt_onResize := None |}.

Definition with_numInstances (n : option number) (options : ShaderUpOptions)
  : ShaderUpOptions :=
  {| opt_renderMode := opt_renderMode options; opt_canvasId := opt_canvasId options;
     opt_canvas := opt_canvas options;
     opt_fragmentShader := opt_fragmentShader options;
     opt_vertexShader := opt_vertexShader options;
     opt_uniforms := opt_uniforms options; opt_attributes := opt_attributes options;
     opt_numInstances := n; opt_onResize := opt_onResize options |}.

(** [quiet w w']: going from [w] to [w'] kept the host, the frame queue and
    the frame counter, and only added lines to the console. *)
Definition quiet (w w' : World) : Prop :=
  host w' = host w /\ raf_pending w' = raf_pending w /\
  raf_next w' = raf_next w /\ frames_executed w' = frames_executed w /\
  (forall msg, In msg (console w) -> In msg (console w')).

(** [quietly m R]: [m] is quiet whether it returns or throws, and what it
    returns satisfies [R]. *)
Definition quietly {A} (m : M A) (R : A -> Prop) : Prop :=
  forall w,
    match m w with
    | (Ok a, w') => quiet w w' /\ R a
    | (Throw _, w') => quiet w w'
    end.

(** The fields of the instance that only [start], [stop], [dispose] and the
    frame callback ever assign after the constructor has set them. *)
Definition core (this : ShaderUp) :=
  (canvas this, gl this, renderMode this, attributeOptions this,
   numInstances this, animationFrameId this, resizeObserver this,
   isDestroyed this).

(** What a successfully constructed instance looks like. *)
Definition constructed (options : ShaderUpOptions) (this : ShaderUp) : Prop :=
  renderMode this = default fullscreen (opt_renderMode options) /\
  (renderMode this = instanced ->
     opt_numInstances options = Some (numInstances this) /\
     number_truthy (numInstances this) = true) /\
  is_Some (program this) /\
  isDestroyed this = false /\
  animationFrameId this = None.

Definition demo_this : ShaderUp :=
  {| canvas := 0%nat; gl := WebGL2; uniforms := ∅; renderMode := instanced;
     attributeOptions := opt_attributes demo_instanced;
     numInstances := num_of_Z 3; program := Some 2%nat; animationFrameId := None;
     resizeObserver := None; isDestroyed := false; uniformInfo := [];
     textures := []; instanceBuffer := None; timeLocation := None;
     resolutionLocation := None |}.

Definition demo_world_sized : World :=
  set_canvases {[ 0%nat := set_size 800 600 demo_canvas ]} demo_world.

(** The sum, in declaration order, of the declared byte sizes. *)
Definition declared_bytes (attrs : list (string * AttributeOptions)) : Z :=
  foldr (fun entry total => size entry.2 * 4 + total) 0 attrs.

(** [stride_is s c]: if [c] is a [vertexAttribPointer] call, its stride is [s]. *)
Definition stride_is (s : Z) (c : GLCall) : Prop :=
  match c with
  | VertexAttribPointer _ _ _ _ stride _ => stride = s
  | _ => True
  end.

(** The (location, offset) pairs of the [vertexAttribPointer] calls of a trace. *)
Definition pointer_offsets (calls : list GLCall) : list (Z * Z) :=
  omap (fun c =>
          match c with
          | VertexAttribPointer loc _ _ _ _ offset => Some (loc, offset)
          | _ => None
          end) calls.

(** A page like the example page, except that its programs also expose
    ["a_unused"], at location 3. *)
Definition demo_world_all_resolved : World :=
  {| host :=
       {| getElementById := getElementById demo_host;
          querySelector_canvas := querySelector_canvas demo_host;
          webgl2_available := webgl2_available demo_host;
          webgl_available := webgl_available demo_host;
          create_succeeds := create_succeeds demo_host;
          compile_status := compile_status demo_host;
          shader_info_log := shader_info_log demo_host;
          link_status := link_status demo_host;
          program_info_log := program_info_log demo_host;
          attrib_location := fun p name =>
            if decide (name = "a_unused") then 3
            else attrib_location demo_host p name;
          uniform_location := uniform_location demo_host;
          drawing_buffer := drawing_buffer demo_host |};
     canvases := canvases demo_world; gl_calls := []; next_handle := 0%nat;
     observers := ∅; raf_pending := []; raf_next := 1%positive; console := [];
     resize_callbacks := []; frames_executed := 0%nat |}.

Definition unresolved_uniform_warning (name : string) : string :=
  "[ShaderUp] Uniform " +:+ dquote +:+ name +:+ dquote
  +:+ " not found in shader source (it may be unused and optimized out).".

(** The component count the spec gives each uniform type (none for a sampler). *)
Definition component_count (ty : UniformType) : nat :=
  match ty with
  | float => 1
  | vec2 => 2
  | vec3 => 3
  | vec4 => 4
  | int => 1
  | sampler2D => 0
  end.

(** The default the spec words describe: scalar 0, a tuple of zeros sized to
    the component count, null for a sampler. *)
Definition zero_default (ty : UniformType) : JSValue :=
  match ty with
  | float | int => VInt 0
  | sampler2D => VNull
  | _ => VArray (replicate (component_count ty) (VInt 0))
  end.

Definition total {A} (m : M A) : Prop :=
  forall w, exists a w', m w = (Ok a, w').

(** The receiver [dispose] returns. *)
Definition disposed (this : ShaderUp) : ShaderUp :=
  set_program None
    (set_instanceBuffer None
       (set_textures []
          (set_resizeObserver None
             (set_isDestroyed true (set_animationFrameId None this))))).

Definition without_listeners (cv : Canvas) : Canvas :=
  set_listeners (listeners cv ∖ {["webglcontextlost"]} ∖ {["webglcontextrestored"]}) cv.

Definition option_call {A} (call : A -> GLCall) (o : option A) : list GLCall :=
  match o with
  | Some a => [call a]
  | None => []
  end.

(** The world [dispose] leaves behind. *)
Definition released (this : ShaderUp) (w : World) : World :=
  let w1 := match animationFrameId this with
            | Some id => set_raf_pending (filter (fun id' => id' ≠ id) (raf_pending w)) w
            | None => w
            end in
  let w2 := match resizeObserver this with
            | Some h =>
                set_observers
                  (alter (fun ob => {| ob_onResize := ob_onResize ob; ob_targets := [] |})
                     h (observers w1)) w1
            | None => w1
            end in
  let w3 := set_canvases
              (<[canvas this :=
                   without_listeners (default blank_canvas (canvases w2 !! canvas this))]>
                 (canvases w2)) w2 in
  set_gl_calls
    (gl_calls w3 ++
     map (fun e => DeleteTexture e.2) (textures this) ++
     option_call DeleteBuffer (instanceBuffer this) ++
     option_call DeleteProgram (program this)) w3.

(** The state [dispose] leaves: flagged destroyed, no frame requested, no
    observer, no texture, buffer or program, and no listener on the canvas. *)
Definition torn_down (this : ShaderUp) (w : World) : Prop :=
  isDestroyed this = true /\ animationFrameId this = None /\
  resizeObserver this = None /\ textures this = [] /\
  instanceBuffer this = None /\ program this = None /\
  exists cv, canvases w !! canvas this = Some cv /\
             ("webglcontextlost" ∉ listeners cv) /\
             ("webglcontextrestored" ∉ listeners cv).

Definition is_draw_call (c : GLCall) : bool :=
  match c with
  | DrawArrays _ _ _ | DrawArraysInstanced _ _ _ _ => true
  | _ => false
  end.

(** The draw command of [render]. *)
Definition draw_call (this : ShaderUp) : GLCall :=
  match renderMode this with
  | fullscreen => DrawArrays TRIANGLES 0 3
  | instanced => DrawArraysInstanced TRIANGLES 0 6 (numInstances this)
  end.

(** What one turn of the custom-uniform loop submits. *)
Definition upload_calls (this : ShaderUp) (entry : string * UniformInfo) : list GLCall :=
  let '(name, info) := entry in
  let value := default VUndefined (uniforms this !! name) in
  if is_nullish value then []
  else
    match utype info with
    | float => [Uniform1f (location info) value]
    | vec2 => [Uniform2f (location info) (js_index value 0) (js_index value 1)]
    | vec3 =>
        [Uniform3f (location info)
           (js_index value 0) (js_index value 1) (js_index value 2)]
    | vec4 =>
        [Uniform4f (location info)
           (js_index value 0) (js_index value 1) (js_index value 2)
           (js_index value 3)]
    | int => [Uniform1i (location info) value]
    | sampler2D =>
        match textureUnit info with
        | Some unit => [Uniform1i (location info) (VInt (Z.of_nat unit))]
        | None => []
        end
    end.

(** Everything a frame submits to the context, in order. *)
Definition frame_calls (this : ShaderUp) (time : number) (w : World) (p : Handle)
  : list GLCall :=
  [UseProgram p] ++
  option_call
    (fun loc => Uniform1f loc (VNumber (number_mul time (Num (Qmake 1 1000)))))
    (timeLocation this) ++
  option_call
    (fun loc =>
       let cv := default blank_canvas (canvases w !! canvas this) in
       let '(bw, bh) := drawing_buffer (host w) (width cv) (height cv) in
       Uniform2f loc (VInt (Z.of_N bw)) (VInt (Z.of_N bh)))
    (resolutionLocation this) ++
  flat_map (upload_calls this) (uniformInfo this) ++
  [draw_call this].

Definition frame_requested (w : World) (calls : list GLCall) : World :=
  set_raf_next (Pos.succ (raf_next w))
    (set_raf_pending (raf_pending w ++ [raf_next w])
       (set_gl_calls (gl_calls w ++ calls) w)).

Definition quiet_event (ev : Event) : bool :=
  match ev with
  | call_setData _ | call_setTexture _ _ | write_uniform _ _
  | resize_observed _ | layout _ _ | context_restored => true
  | _ => false
  end.

(** [this'] has the loop state, the program and the registry of [this]. *)
Definition keeps_loop_fields (this this' : ShaderUp) : Prop :=
  core this' = core this /\ program this' = program this /\
  uniformInfo this' = uniformInfo this.

(** The frame callbacks the instance is waiting for, as it sees them. *)
Definition pending_of (this : ShaderUp) : list positive :=
  match animationFrameId this with
  | Some id => [id]
  | None => []
  end.

(** The invariant of the frame loop: the host's queue holds exactly the
    frame the instance remembers; a destroyed instance remembers none; a
    live one has its program. *)
Definition loop_invariant (this : ShaderUp) (w : World) : Prop :=
  raf_pending w = pending_of this /\
  (isDestroyed this = true -> animationFrameId this = None) /\
  (isDestroyed this = false -> is_Some (program this)).

(** [writes_to name ev]: [ev] is the caller's [shader.uniforms[name] = v]. *)
Definition writes_to (name : string) (ev : Event) : bool :=
  match ev with
  | write_uniform n _ => bool_decide (n = name)
  | _ => false
  end.

(** The same history without the writes to [name]. *)
Definition erase_writes (name : string) (evs : list Event) : list Event :=
  List.filter (fun ev => negb (writes_to name ev)) evs.

(** [this'] is [this] with a value-bag that may differ at [name] only. *)
Definition differs_at (name : string) (this this' : ShaderUp) : Prop :=
  exists bag, this' = set_uniforms bag this /\
              forall k, k <> name -> bag !! k = uniforms this !! k.

(** A method that neither reads nor writes the value-bag. *)
Definition oblivious (f : ShaderUp -> M ShaderUp) : Prop :=
  forall bag this w,
    f (set_uniforms bag this) w =
    match f this w with
    | (Ok this', w') => (Ok (set_uniforms bag this'), w')
    | (Throw e, w') => (Throw e, w')
    end.

(** ** Vocabulary of the further properties *)

(** The world a resize pass leaves when the sizes differ. *)
Definition resized (this : ShaderUp) (callback : option Callback) (w : World) : World :=
  let cv := default blank_canvas (canvases w !! canvas this) in
  let w1 :=
    set_canvases
      (<[canvas this := set_size (clientWidth cv) (clientHeight cv) cv]> (canvases w)) w in
  let '(bw, bh) := drawing_buffer (host w) (clientWidth cv) (clientHeight cv) in
  let w2 := set_gl_calls (gl_calls w ++ [Viewport 0 0 bw bh]) w1 in
  match callback with
  | Some cb =>
      set_resize_callbacks
        (resize_callbacks w ++ [(cb, clientWidth cv, clientHeight cv)]) w2
  | None => w2
  end.

(** The bytes of the attributes of [attrs] that the program resolves. *)
Definition resolved_bytes (hst : Host) (p : Handle)
    (attrs : list (string * AttributeOptions)) : Z :=
  foldr (fun entry total =>
           (if attrib_location hst p entry.1 =? -1 then 0 else size entry.2 * 4) + total)
        0 attrs.

(** The calls by which [setTexture] uploads [image] to [texture] on [unit]. *)
Definition texture_upload (unit : nat) (texture : option Handle) (image : TexImageSource)
  : list GLCall :=
  [ActiveTexture unit; BindTexture texture;
   TexParameteri TEXTURE_WRAP_S CLAMP_TO_EDGE;
   TexParameteri TEXTURE_WRAP_T CLAMP_TO_EDGE;
   TexParameteri TEXTURE_MIN_FILTER LINEAR;
   TexParameteri TEXTURE_MAG_FILTER LINEAR;
   TexImage2D image].

Definition not_sampler_warning (name : string) : string :=
  "[ShaderUp] Warning: " +:+ dquote +:+ name +:+ dquote
  +:+ " is not a registered sampler2D uniform.".

(** The texture units of a registry, in registry order. *)
Definition registry_units (reg : JSMap string UniformInfo) : list nat :=
  omap (fun e => textureUnit e.2) reg.

(** [has_listeners c L w]: canvas [c] is in the store of [w] and the
    instance's handlers are registered on it for every event type of [L]. *)
Definition has_listeners (c : CanvasRef) (L : gset string) (w : World) : Prop :=
  exists cv, canvases w !! c = Some cv /\ L ⊆ listeners cv.

(** [keeps_listeners m]: whether [m] returns or throws, it removes no
    listener and no canvas. *)
Definition keeps_listeners {A} (m : M A) : Prop :=
  forall c L w, has_listeners c L w -> has_listeners c L (m w).2.

Definition context_events : gset string :=
  {["webglcontextlost"; "webglcontextrestored"]}.




(** [no_texture_created c]: [c] is not a [createTexture] call. *)
Definition no_texture_created (c : GLCall) : Prop :=
  match c with
  | CreateTexture _ => False
  | _ => True
  end.

(** [adds_calls P m]: whether it returns or throws, [m] only appends calls
    that satisfy [P] to the GL trace. *)
Definition adds_calls (P : GLCall -> Prop) {A} (m : M A) : Prop :=
  forall w, exists calls, gl_calls (m w).2 = gl_calls w ++ calls /\ Forall P calls.

(** Every texture the trace shows created is held in the texture map or the
    trace shows it deleted. *)
Definition no_texture_leak (this : ShaderUp) (w : World) : Prop :=
  forall h, CreateTexture (Some h) ∈ gl_calls w ->
    (exists unit, jsmap_get unit (textures this) = Some (Some h)) \/
    DeleteTexture (Some h) ∈ gl_calls w.

(** Observer [h] watches nothing in [w]: it delivers no notification. *)
Definition disconnected (h : Handle) (w : World) : Prop :=
  forall ob, observers w !! h = Some ob -> ob_targets ob = [].

(** What the instance can do to the context and to its caller: the GL
    trace and the recorded invocations of the caller's resize callback. *)
Definition same_effects (w w' : World) : Prop :=
  gl_calls w' = gl_calls w /\ resize_callbacks w' = resize_callbacks w /\
  observers w' = observers w.

(** What a frame submits for a uniform of type [ty] at location [loc] whose
    bag entry holds [v] (samplers apart, which submit their texture unit). *)
Definition uniform_submission (ty : UniformType) (loc : Handle) (v : JSValue)
  : list GLCall :=
  match ty with
  | float => [Uniform1f loc v]
  | vec2 => [Uniform2f loc (js_index v 0) (js_index v 1)]
  | vec3 => [Uniform3f loc (js_index v 0) (js_index v 1) (js_index v 2)]
  | vec4 =>
      [Uniform4f loc (js_index v 0) (js_index v 1) (js_index v 2) (js_index v 3)]
  | int => [Uniform1i loc v]
  | sampler2D => []
  end.

(** [createShader] calls, and the traces without one. *)
Definition creates_shader (c : GLCall) : bool :=
  match c with
  | CreateShader _ _ => true
  | _ => false
  end.

Definition no_shader_created (c : GLCall) : Prop :=
  match c with
  | CreateShader _ _ => False
  | _ => True
  end.



(** A page on which shaders compile and no program links. *)
Definition unlinkable_world : World :=
  {| host :=
       {| getElementById := getElementById demo_host;
          querySelector_canvas := querySelector_canvas demo_host;
          webgl2_available := webgl2_available demo_host;
          webgl_available := webgl_available demo_host;
          create_succeeds := create_succeeds demo_host;
          compile_status := compile_status demo_host;
          shader_info_log := shader_info_log demo_host;
          link_status := fun _ => false;
          program_info_log := fun _ => "error: varying mismatch";
          attrib_location := attrib_location demo_host;
          uniform_location := uniform_location demo_host;
          drawing_buffer := drawing_buffer demo_host |};
     canvases := canvases demo_world; gl_calls := []; next_handle := 0%nat;
     observers := ∅; raf_pending := []; raf_next := 1%positive; console := [];
     resize_callbacks := []; frames_executed := 0%nat |}.

(** The vertex shader source [initResources] compiles. *)
Definition vertex_source (options : ShaderUpOptions) : string :=
  let mode := default fullscreen (opt_renderMode options) in
  let fallback :=
    getDefaultVertexShader
      {| canvas := 0%nat; gl := WebGL2; uniforms := ∅; renderMode := mode;
         attributeOptions := None; numInstances := NaN;
         program := None; animationFrameId := None; resizeObserver := None;
         isDestroyed := false; uniformInfo := []; textures := [];
         instanceBuffer := None; timeLocation := None; resolutionLocation := None |} in
  match opt_vertexShader options with
  | Some s => if string_truthy s then s else fallback
  | None => fallback
  end.

(** What a build submits up to a link that fails: two shaders compiled, a
    program linked, and the program deleted. *)
Definition failed_link_calls (options : ShaderUpOptions) (vs fs p : Handle)
  : list GLCall :=
  [CreateShader VERTEX_SHADER (Some vs); ShaderSource vs (vertex_source options);
   CompileShader vs;
   CreateShader FRAGMENT_SHADER (Some fs);
   ShaderSource fs (opt_fragmentShader options); CompileShader fs;
   CreateProgram (Some p); AttachShader p vs; AttachShader p fs; LinkProgram p;
   DeleteProgram p].

(** * Properties *)

(** ** Running the monad *)

Lemma bind_run {A B} (m : M A) (k : A -> M B) (w : World) :
  (m ≫= k) w =
  match m w with
  | (Ok a, w') => k a w'
  | (Throw e, w') => (Throw e, w')
  end.
Proof. reflexivity. Qed.

Lemma bind_throw {A B} (m : M A) (k : A -> M B) w e w' :
  m w = (Throw e, w') -> (m ≫= k) w = (Throw e, w').
Proof. intros H. rewrite bind_run, H. reflexivity. Qed.

Lemma bind_ok {A B} (m : M A) (k : A -> M B) w a w' :
  m w = (Ok a, w') -> (m ≫= k) w = k a w'.
Proof. intros H. rewrite bind_run, H. reflexivity. Qed.

Lemma bind_Ok_inv {A B} (m : M A) (k : A -> M B) w b w' :
  (m ≫= k) w = (Ok b, w') ->
  exists a w1, m w = (Ok a, w1) /\ k a w1 = (Ok b, w').
Proof.
  rewrite bind_run. destruct (m w) as [[a|e] w1]; intros H.
  - exists a, w1. split; [reflexivity | exact H].
  - discriminate H.
Qed.

(** Evaluate a straight-line body on a world. *)
Ltac run_monad :=
  unfold mbind, M_bind, bind, mret, M_ret, ret, throw, ask, gl_call, gl_create,
    modify, get_world, read_canvas, call_onResize, console_warn, console_log,
    getAttribLocation, getUniformLocation, when;
  cbn.

(** Decompose a successful run of a sequence into its steps. *)
Ltac inv_bind H :=
  let a := fresh "a" in
  let w1 := fresh "w" in
  let H1 := fresh "Hrun" in
  apply bind_Ok_inv in H; destruct H as (a & w1 & H1 & H).

Tactic Notation "inv_step" hyp(H) "as" ident(a) ident(w1) ident(H1) :=
  apply bind_Ok_inv in H; destruct H as (a & w1 & H1 & H).

(** ** Construction: the required fields of instanced mode *)

(** C1. In instanced mode, when [numInstances] or [attributes] is missing
    the constructor throws a ConfigurationError and the world is the one it
    started in: no GL call was issued, no handle allocated, no listener
    attached, and no instance is returned. *)
Theorem C1_instanced_missing_fields_throw (options : ShaderUpOptions) (w : World) :
  opt_renderMode options = Some instanced ->
  opt_numInstances options = None \/ opt_attributes options = None ->
  exists e, constructor options w = (Throw e, w) /\ ConfigurationError e.
Proof.
  intros Hmode Hmissing. unfold constructor, ConfigurationError.
  rewrite Hmode. cbn [default]. unfold validate_options.
  destruct (opt_numInstances options) as [n|] eqn:Hn.
  - destruct Hmissing as [Hnone | Hattrs]; [discriminate Hnone |].
    rewrite Hattrs. destruct (number_truthy n).
    + exists (Error msg_attributes_required). split; [| now right].
      apply bind_throw. reflexivity.
    + exists (Error msg_numInstances_required). split; [| now left].
      apply bind_throw. reflexivity.
  - exists (Error msg_numInstances_required). split; [| now left].
    apply bind_throw. reflexivity.
Qed.

Lemma C1_instanced_missing_fields_throw_witness :
  exists e, constructor C1_options_without_attributes demo_world = (Throw e, demo_world)
            /\ ConfigurationError e.
Proof.
  apply (C1_instanced_missing_fields_throw C1_options_without_attributes demo_world).
  - reflexivity.
  - right. reflexivity.
Defined.

(** ** Actions that leave the frame queue alone *)

Lemma quiet_refl w : quiet w w.
Proof. unfold quiet. auto. Qed.

Lemma quiet_trans w1 w2 w3 : quiet w1 w2 -> quiet w2 w3 -> quiet w1 w3.
Proof.
  unfold quiet. intros (H1 & H2 & H3 & H4 & H5) (K1 & K2 & K3 & K4 & K5).
  repeat split; try congruence. auto.
Qed.

Lemma quietly_ret {A} (a : A) (R : A -> Prop) : R a -> quietly (mret a) R.
Proof. intros HR w. split; [apply quiet_refl | exact HR]. Qed.

Lemma quietly_throw {A} e (R : A -> Prop) : quietly (throw e) R.
Proof. intros w. apply quiet_refl. Qed.

Lemma quietly_bind {A B} (m : M A) (k : A -> M B) R1 (R2 : B -> Prop) :
  quietly m R1 -> (forall a, R1 a -> quietly (k a) R2) -> quietly (m ≫= k) R2.
Proof.
  intros Hm Hk w. rewrite bind_run. specialize (Hm w).
  destruct (m w) as [[a|e] w1]; [| exact Hm].
  destruct Hm as [Hq HR]. specialize (Hk a HR w1).
  destruct (k a w1) as [[b|e] w2].
  - destruct Hk as [Hq' HR']. split; [eapply quiet_trans; eassumption | exact HR'].
  - eapply quiet_trans; eassumption.
Qed.

Lemma quietly_weaken {A} (m : M A) (R R' : A -> Prop) :
  quietly m R -> (forall a, R a -> R' a) -> quietly m R'.
Proof.
  intros Hm Himp w. specialize (Hm w). destruct (m w) as [[a|e] w1]; [| exact Hm].
  destruct Hm as [Hq HR]. split; [exact Hq | apply Himp, HR].
Qed.

Lemma quietly_for_each {A S} (body : S -> A -> M S) (R : S -> Prop) xs :
  (forall acc x, R acc -> quietly (body acc x) R) ->
  forall acc, R acc -> quietly (for_each body xs acc) R.
Proof.
  intros Hbody. induction xs as [|x rest IH]; intros acc Hacc; cbn [for_each].
  - apply quietly_ret, Hacc.
  - eapply quietly_bind; [apply Hbody, Hacc | exact IH].
Qed.

Lemma quietly_Ok {A} (m : M A) R w a w' :
  quietly m R -> m w = (Ok a, w') -> quiet w w' /\ R a.
Proof. intros Hm Hrun. specialize (Hm w). rewrite Hrun in Hm. exact Hm. Qed.

Lemma quietly_world {A} (m : M A) R w r w' :
  quietly m R -> m w = (r, w') -> quiet w w'.
Proof.
  intros Hm Hrun. specialize (Hm w). rewrite Hrun in Hm.
  destruct r; [apply Hm | exact Hm].
Qed.

(** A primitive that only edits fields [quiet] does not look at. *)
Ltac quiet_primitive :=
  let w := fresh "w" in
  intros w; cbn; unfold quiet; cbn; repeat split; auto;
  try (intros ? ?; rewrite in_app_iff; auto).

Lemma quietly_ask {A} (f : Host -> A) : quietly (ask f) (fun _ => True).
Proof. quiet_primitive. Qed.

Lemma quietly_gl_call c : quietly (gl_call c) (fun _ => True).
Proof. quiet_primitive. Qed.

Lemma quietly_gl_create call : quietly (gl_create call) (fun _ => True).
Proof. quiet_primitive. Qed.

Lemma quietly_getAttribLocation p name :
  quietly (getAttribLocation p name) (fun _ => True).
Proof. quiet_primitive. Qed.

Lemma quietly_getUniformLocation p name :
  quietly (getUniformLocation p name) (fun _ => True).
Proof. quiet_primitive. Qed.

Lemma quietly_read_canvas c : quietly (read_canvas c) (fun _ => True).
Proof. quiet_primitive. Qed.

Lemma quietly_update_canvas c f : quietly (update_canvas c f) (fun _ => True).
Proof. quiet_primitive. Qed.

Lemma quietly_addEventListener c ev : quietly (addEventListener c ev) (fun _ => True).
Proof. quiet_primitive. Qed.

Lemma quietly_removeEventListener c ev :
  quietly (removeEventListener c ev) (fun _ => True).
Proof. quiet_primitive. Qed.

Lemma quietly_console_warn msg : quietly (console_warn msg) (fun _ => True).
Proof. quiet_primitive. Qed.

Lemma quietly_console_log msg : quietly (console_log msg) (fun _ => True).
Proof. quiet_primitive. Qed.

Lemma quietly_new_ResizeObserver arg :
  quietly (new_ResizeObserver arg) (fun _ => True).
Proof. quiet_primitive. Qed.

Lemma quietly_observe h c : quietly (observe h c) (fun _ => True).
Proof. quiet_primitive. Qed.

Lemma quietly_disconnect h : quietly (disconnect h) (fun _ => True).
Proof. quiet_primitive. Qed.

Lemma quietly_call_onResize cb w h : quietly (call_onResize cb w h) (fun _ => True).
Proof. quiet_primitive. Qed.

Lemma quietly_when b m :
  quietly m (fun _ => True) -> quietly (when b m) (fun _ => True).
Proof. intros Hm. destruct b; [exact Hm | now apply quietly_ret]. Qed.

Create HintDb quiet.

#[local] Hint Resolve quietly_ask quietly_gl_call quietly_gl_create
  quietly_getAttribLocation quietly_getUniformLocation quietly_read_canvas
  quietly_update_canvas quietly_addEventListener quietly_removeEventListener
  quietly_console_warn quietly_console_log quietly_new_ResizeObserver
  quietly_observe quietly_disconnect quietly_call_onResize quietly_when : quiet.

(** Walk through a method body: sequence by sequence, case by case. *)
Ltac quiet_step :=
  lazymatch goal with
  | |- quietly (mret _) _ => apply quietly_ret
  | |- quietly (throw _) _ => apply quietly_throw
  | |- quietly (_ ≫= _) _ =>
      eapply quietly_bind; [solve [eauto with quiet] | intros ? ?]
  | |- quietly (when ?b _) _ => destruct b; unfold when
  | |- quietly (if ?b then _ else _) _ => destruct b eqn:?
  | |- quietly (match ?x with _ => _ end) _ => destruct x eqn:?
  | |- quietly (let '(_, _) := ?x in _) _ => destruct x eqn:?
  end.

Ltac quiet_auto := repeat quiet_step; cbn; auto with quiet.

Lemma quietly_getContext c kind : quietly (getContext c kind) (fun _ => True).
Proof. unfold getContext. quiet_auto. Qed.

Lemma quietly_drawingBufferSize c : quietly (drawingBufferSize c) (fun _ => True).
Proof. unfold drawingBufferSize. quiet_auto. Qed.

#[local] Hint Resolve quietly_getContext quietly_drawingBufferSize : quiet.

Lemma quietly_createShader kind source :
  quietly (createShader kind source) (fun _ => True).
Proof. unfold createShader. quiet_auto. Qed.

Lemma quietly_createProgram vs fs : quietly (createProgram vs fs) (fun _ => True).
Proof. unfold createProgram. quiet_auto. Qed.

Lemma quietly_handleResize this callback :
  quietly (handleResize this callback) (fun _ => True).
Proof. unfold handleResize. quiet_auto. Qed.

Lemma quietly_initFullscreenResources this :
  quietly (initFullscreenResources this) (fun _ => True).
Proof. unfold initFullscreenResources. quiet_auto. Qed.

Lemma quietly_bind_attribute p stride offset entry :
  quietly (bind_attribute p stride offset entry) (fun _ => True).
Proof. unfold bind_attribute. quiet_auto. Qed.

#[local] Hint Resolve quietly_createShader quietly_createProgram
  quietly_handleResize quietly_initFullscreenResources
  quietly_bind_attribute : quiet.

Lemma quietly_initInstancedResources this :
  quietly (initInstancedResources this)
    (fun this' => this' = this \/ exists b, this' = set_instanceBuffer b this).
Proof.
  unfold initInstancedResources.
  destruct (program this) as [p|]; [| apply quietly_ret; now left].
  destruct (attributeOptions this) as [attrs|]; [| apply quietly_ret; now left].
  repeat quiet_step.
  eapply quietly_bind.
  - apply (quietly_for_each _ (fun _ => True)); [| exact I].
    intros acc x _. apply quietly_bind_attribute.
  - intros ? _. apply quietly_ret. right. eexists. reflexivity.
Qed.

Lemma quietly_register_uniform p this0 acc entry :
  core acc.1 = core this0 /\ program acc.1 = program this0 ->
  quietly (register_uniform p acc entry)
    (fun acc' => core acc'.1 = core this0 /\ program acc'.1 = program this0).
Proof.
  intros Hacc. unfold register_uniform. destruct acc as [this n], entry as [name ty].
  eapply quietly_bind; [apply quietly_getUniformLocation | intros loc _].
  destruct loc as [loc|].
  - destruct ty; apply quietly_ret; exact Hacc.
  - eapply quietly_bind; [apply quietly_console_warn | intros ? _].
    apply quietly_ret. exact Hacc.
Qed.

Lemma quietly_initResources this options :
  quietly (initResources this options)
    (fun this' => core this' = core this /\ is_Some (program this')).
Proof.
  unfold initResources.
  do 5 quiet_step.
  eapply (quietly_bind _ _
            (fun this' => core this' = core this /\ is_Some (program this'))).
  { cbn [renderMode set_program]. destruct (renderMode this).
    - quiet_step. apply quietly_ret. split; [reflexivity | eexists; reflexivity].
    - eapply quietly_weaken; [apply quietly_initInstancedResources |].
      intros this' [-> | [b ->]]; (split; [reflexivity | eexists; reflexivity]). }
  intros this1 [Hcore Hprog].
  do 2 quiet_step.
  eapply (quietly_bind _ _
            (fun this' => core this' = core this /\ is_Some (program this'))).
  { destruct (opt_uniforms options) as [decls|].
    - eapply quietly_bind.
      + apply (quietly_for_each _
                 (fun acc => core acc.1 = core this1 /\ program acc.1 = program this1)).
        * intros acc x Hacc. apply quietly_register_uniform, Hacc.
        * split; reflexivity.
      + intros [this2 n] [Hc Hp]. cbn in Hc, Hp. apply quietly_ret.
        split; [congruence | rewrite Hp; exact Hprog].
    - apply quietly_ret. split; [exact Hcore | exact Hprog]. }
  intros this2 [Hc2 Hp2]. quiet_step. apply quietly_ret. split; assumption.
Qed.

Lemma quietly_validate_options options mode :
  quietly (validate_options options mode)
    (fun '(n, _) =>
       mode = instanced ->
       opt_numInstances options = Some n /\ number_truthy n = true).
Proof.
  unfold validate_options. destruct mode.
  - apply quietly_ret. discriminate.
  - destruct (opt_numInstances options) as [n|]; [| apply quietly_throw].
    destruct (number_truthy n) eqn:Hn; [| apply quietly_throw].
    destruct (opt_attributes options); [| apply quietly_throw].
    apply quietly_ret. intros _. split; [reflexivity | exact Hn].
Qed.

Lemma quietly_first_canvas : quietly first_canvas (fun _ => True).
Proof. unfold first_canvas. quiet_auto. Qed.

#[local] Hint Resolve quietly_first_canvas : quiet.

Lemma quietly_resolve_canvas options :
  quietly (resolve_canvas options) (fun _ => True).
Proof. unfold resolve_canvas. quiet_auto. Qed.

Lemma quietly_initialize_context mode cv :
  quietly (initialize_context mode cv) (fun _ => True).
Proof.
  unfold initialize_context.
  eapply (quietly_bind _ _ (fun _ => True)).
  - destruct mode; quiet_auto.
  - intros gl _. destruct gl; [now apply quietly_ret | apply quietly_throw].
Qed.

Lemma quietly_constructor options :
  quietly (constructor options) (constructed options).
Proof.
  unfold constructor.
  set (mode := default fullscreen (opt_renderMode options)).
  eapply quietly_bind; [apply quietly_validate_options |].
  intros [n attrs] Hn.
  eapply quietly_bind; [apply quietly_resolve_canvas | intros cv _].
  eapply quietly_bind; [apply quietly_initialize_context | intros ctx _].
  do 2 quiet_step.
  eapply quietly_bind; [apply quietly_initResources |].
  intros this1 [Hcore Hprog]. unfold core in Hcore. cbn in Hcore.
  do 2 quiet_step. apply quietly_ret.
  injection Hcore as Hcv Hgl Hmode Hattrs Hnum Hraf Hobs Hdead.
  unfold constructed. cbn. rewrite Hmode, Hnum, Hdead, Hraf.
  repeat split; auto.
  - apply Hn; assumption.
  - apply Hn; assumption.
Qed.

Lemma constructor_constructed options w this w' :
  constructor options w = (Ok this, w') -> quiet w w' /\ constructed options this.
Proof. apply quietly_Ok, quietly_constructor. Qed.

(** C10. In instanced mode an instance count of 0 (like any falsy count)
    makes the constructor throw exactly what a missing count makes it throw,
    before anything is allocated; so an instance built in instanced mode
    never has zero instances. *)
Theorem C10_zero_instances_rejected (options : ShaderUpOptions) (w : World) :
  opt_renderMode options = Some instanced ->
  constructor (with_numInstances (Some (num_of_Z 0)) options) w
    = (Throw (Error msg_numInstances_required), w) /\
  constructor (with_numInstances (Some (num_of_Z 0)) options) w
    = constructor (with_numInstances None options) w /\
  (forall n, number_truthy n = false ->
     constructor (with_numInstances (Some n) options) w
       = constructor (with_numInstances None options) w) /\
  (forall this w', constructor options w = (Ok this, w') ->
     number_truthy (numInstances this) = true /\ numInstances this <> num_of_Z 0).
Proof.
  intros Hmode.
  assert (Hnone : constructor (with_numInstances None options) w
                  = (Throw (Error msg_numInstances_required), w)).
  { unfold constructor, validate_options.
    cbn [with_numInstances opt_renderMode opt_numInstances].
    rewrite Hmode. apply bind_throw. reflexivity. }
  assert (Hfalsy : forall n, number_truthy n = false ->
            constructor (with_numInstances (Some n) options) w
            = (Throw (Error msg_numInstances_required), w)).
  { intros n Hn. unfold constructor, validate_options.
    cbn [with_numInstances opt_renderMode opt_numInstances].
    rewrite Hmode. apply bind_throw. cbn [default]. rewrite Hn. reflexivity. }
  split; [| split; [| split]].
  - apply Hfalsy. reflexivity.
  - rewrite Hnone. apply Hfalsy. reflexivity.
  - intros n Hn. rewrite Hnone. apply Hfalsy, Hn.
  - intros this w' Hnew.
    apply constructor_constructed in Hnew as [_ (Hm & Hn & _)].
    destruct Hn as [_ Hn]; [rewrite Hm, Hmode; reflexivity |].
    split; [exact Hn |].
    intros Hzero. rewrite Hzero in Hn. discriminate Hn.
Qed.

Lemma C10_zero_instances_rejected_witness :
  constructor (with_numInstances (Some (num_of_Z 0)) demo_instanced) demo_world
    = (Throw (Error msg_numInstances_required), demo_world) /\
  (forall this w', constructor demo_instanced demo_world = (Ok this, w') ->
     number_truthy (numInstances this) = true /\ numInstances this <> num_of_Z 0).
Proof.
  destruct (C10_zero_instances_rejected demo_instanced demo_world eq_refl)
    as (Hzero & _ & _ & Hbuilt).
  split; [exact Hzero | exact Hbuilt].
Defined.

(** ** Resize *)

(** C7. A resize pass on a canvas whose display size differs from its
    backing store sets the backing store to the display size, sets the
    viewport to the drawing buffer of that size, and calls the resize
    callback, when there is one, once with the display size; on a canvas
    whose sizes agree it changes nothing and calls nothing. *)
Theorem C7_resize_pass (this : ShaderUp) (callback : option Callback) (w : World) :
  let cv := default blank_canvas (canvases w !! canvas this) in
  let dw := clientWidth cv in
  let dh := clientHeight cv in
  ((width cv, height cv) <> (dw, dh) ->
   exists w',
     handleResize this callback w = (Ok tt, w') /\
     canvases w' !! canvas this = Some (set_size dw dh cv) /\
     (let '(bw, bh) := drawing_buffer (host w) dw dh in
      gl_calls w' = gl_calls w ++ [Viewport 0 0 bw bh]) /\
     resize_callbacks w' =
       resize_callbacks w ++
       match callback with Some cb => [(cb, dw, dh)] | None => [] end) /\
  ((width cv, height cv) = (dw, dh) ->
   handleResize this callback w = (Ok tt, w)).
Proof.
  intros cv dw dh. split.
  - intros Hdiff.
    assert (Hcond : negb (width cv =? dw)%N || negb (height cv =? dh)%N = true).
    { destruct (N.eqb_spec (width cv) dw) as [Hw|Hw];
        destruct (N.eqb_spec (height cv) dh) as [Hh|Hh]; try reflexivity.
      exfalso. apply Hdiff. rewrite Hw, Hh. reflexivity. }
    unfold handleResize. rewrite bind_run. cbn [read_canvas].
    fold cv. fold dw. fold dh. rewrite Hcond.
    unfold drawingBufferSize, update_canvas. run_monad.
    rewrite lookup_insert_eq. cbn. fold cv. fold dw. fold dh.
    destruct (drawing_buffer (host w) dw dh) as [bw bh] eqn:Hbuf.
    destruct callback as [cb|]; run_monad; eexists; (split; [reflexivity |]); cbn;
      rewrite ?lookup_insert_eq, ?app_nil_r; auto.
  - intros Hsame. injection Hsame as Hw Hh.
    unfold handleResize. rewrite bind_run. cbn [read_canvas].
    fold cv. fold dw. fold dh. rewrite Hw, Hh, !N.eqb_refl. reflexivity.
Qed.

Lemma C7_resize_pass_witness :
  (exists w',
     handleResize demo_this (Some 7%nat) demo_world = (Ok tt, w') /\
     canvases w' !! 0%nat = Some (set_size 800 600 demo_canvas) /\
     gl_calls w' = [Viewport 0 0 800 600] /\
     resize_callbacks w' = [(7%nat, 800%N, 600%N)]) /\
  handleResize demo_this (Some 7%nat) demo_world_sized = (Ok tt, demo_world_sized).
Proof.
  split.
  - destruct (C7_resize_pass demo_this (Some 7%nat) demo_world) as [Hdiff _].
    destruct Hdiff as (w' & Hrun & Hcv & Hgl & Hcb).
    + vm_compute. discriminate.
    + exists w'. repeat split; assumption.
  - destruct (C7_resize_pass demo_this (Some 7%nat) demo_world_sized) as [_ Hsame].
    apply Hsame. vm_compute. reflexivity.
Defined.

(** ** The instanced attribute layout *)

Lemma compute_stride_from attrs (acc : Z) :
  fold_left (fun stride '(_, opts) => stride + size opts * 4) attrs acc
  = acc + declared_bytes attrs.
Proof.
  revert acc. induction attrs as [|[name opts] rest IH]; intros acc; cbn.
  - lia.
  - rewrite IH. fold (declared_bytes rest). lia.
Qed.

Lemma compute_stride_declared attrs : compute_stride attrs = declared_bytes attrs.
Proof. unfold compute_stride. rewrite compute_stride_from. lia. Qed.

(** One turn of the attribute loop, in closed form. *)
Lemma bind_attribute_run p stride offset name opts w :
  bind_attribute p stride offset (name, opts) w =
  let loc := attrib_location (host w) p name in
  if loc =? -1 then
    (Ok offset,
     set_console (console w ++ ["[ShaderUp] Attribute " +:+ dquote +:+ name
                                +:+ dquote +:+ " not found in shader."]) w)
  else
    (Ok (offset + size opts * 4),
     set_gl_calls
       (gl_calls w ++
        [EnableVertexAttribArray loc;
         VertexAttribPointer loc (size opts) FLOAT false stride offset] ++
        (if default false (attr_instanced opts)
         then [VertexAttribDivisor loc 1] else [])) w).
Proof.
  unfold bind_attribute. run_monad.
  destruct (attrib_location (host w) p name =? -1); [reflexivity |].
  destruct (default false (attr_instanced opts)); cbn;
    rewrite <- !app_assoc; reflexivity.
Qed.

(** The attribute loop never throws, and every pointer it sets up uses the
    stride it was given. *)
Lemma bind_attributes_stride p stride attrs :
  forall offset w,
  exists offset' w' calls,
    for_each (bind_attribute p stride) attrs offset w = (Ok offset', w') /\
    gl_calls w' = gl_calls w ++ calls /\
    Forall (stride_is stride) calls.
Proof.
  induction attrs as [|[name opts] rest IH]; intros offset w; cbn [for_each].
  - exists offset, w, []. rewrite app_nil_r. repeat split. constructor.
  - rewrite bind_run, bind_attribute_run. cbv zeta.
    destruct (attrib_location (host w) p name =? -1).
    + match goal with |- context [for_each _ rest ?o ?w1] =>
        destruct (IH o w1) as (offset' & w' & calls & Hrun & Hcalls & Hall) end.
      exists offset', w', calls. split; [exact Hrun |].
      split; [exact Hcalls | exact Hall].
    + match goal with |- context [for_each _ rest ?o ?w1] =>
        destruct (IH o w1) as (offset' & w' & calls & Hrun & Hcalls & Hall) end.
      cbn [gl_calls set_gl_calls] in Hcalls. rewrite <- app_assoc in Hcalls.
      eexists offset', w', _. split; [exact Hrun |].
      split; [exact Hcalls |].
      apply Forall_app. split; [| exact Hall].
      destruct (default false (attr_instanced opts)); repeat constructor.
Qed.

(** C3. The stride of the interleaved instance buffer is the sum over the
    declared attributes, in declaration order, of component count × 4; and
    whatever the program resolves, instanced setup completes and every
    attribute pointer it configures after binding the instance buffer is
    given exactly that stride. *)
Theorem C3_stride_is_declared_sum
    (this : ShaderUp) (p : Handle) (attrs : list (string * AttributeOptions))
    (w : World) :
  program this = Some p ->
  attributeOptions this = Some attrs ->
  compute_stride attrs = declared_bytes attrs /\
  exists this' w' quadBuffer instanceBuffer calls,
    initInstancedResources this w = (Ok this', w') /\
    gl_calls w' =
      gl_calls w ++
      [CreateBuffer quadBuffer; BindBuffer quadBuffer;
       BufferData unit_quad STATIC_DRAW;
       EnableVertexAttribArray (attrib_location (host w) p "a_quadVertex");
       VertexAttribPointer (attrib_location (host w) p "a_quadVertex")
         2 FLOAT false 0 0;
       CreateBuffer instanceBuffer; BindBuffer instanceBuffer] ++ calls /\
    Forall (stride_is (declared_bytes attrs)) calls.
Proof.
  intros Hp Hattrs. split; [apply compute_stride_declared |].
  unfold initInstancedResources. rewrite Hp, Hattrs. run_monad.
  match goal with |- context [for_each _ attrs ?o ?w1] =>
    destruct (bind_attributes_stride p (compute_stride attrs) attrs o w1)
      as (offset' & w' & calls & Hrun & Hcalls & Hall) end.
  rewrite Hrun. cbn in Hcalls. rewrite <- !app_assoc in Hcalls. cbn in Hcalls.
  eexists _, w', _, _, calls. split; [reflexivity |].
  split; [exact Hcalls |].
  rewrite <- compute_stride_declared. exact Hall.
Qed.

Lemma C3_stride_is_declared_sum_witness :
  compute_stride
    [("a_instanceRect", {| size := 4; type := None; attr_instanced := Some true |});
     ("a_unused", {| size := 3; type := None; attr_instanced := Some true |});
     ("a_hoverState", {| size := 1; type := None; attr_instanced := Some true |})]
  = 32.
Proof.
  destruct (C3_stride_is_declared_sum demo_this 2%nat
              [("a_instanceRect", {| size := 4; type := None; attr_instanced := Some true |});
               ("a_unused", {| size := 3; type := None; attr_instanced := Some true |});
               ("a_hoverState", {| size := 1; type := None; attr_instanced := Some true |})]
              demo_world eq_refl eq_refl) as [Hstride _].
  rewrite Hstride. reflexivity.
Defined.

(** C2 (what the code does). With attributes [a_instanceRect] (4
    components), [a_unused] (3) and [a_hoverState] (1) declared in this
    order, [a_hoverState] (location 2) is bound at byte offset 28 when
    [a_unused] resolves, but at byte offset 16 when [a_unused] does not
    resolve: the loop leaves [offset] untouched for a skipped attribute,
    while the stride is 32 in both cases. *)
Theorem C2_skipped_attribute_compacts_offsets :
  (pointer_offsets (gl_calls (initInstancedResources demo_this demo_world_all_resolved).2)
     = [(0, 0); (1, 0); (3, 16); (2, 28)]) /\
  (pointer_offsets (gl_calls (initInstancedResources demo_this demo_world).2)
     = [(0, 0); (1, 0); (2, 16)]) /\
  Forall (stride_is 32)
    (skipn 5 (gl_calls (initInstancedResources demo_this demo_world).2)).
Proof.
  split; [| split].
  - vm_compute. reflexivity.
  - vm_compute. reflexivity.
  - vm_compute. repeat constructor.
Qed.

(** ** The uniform registry *)

(** One turn of the registration loop, in closed form. *)
Lemma register_uniform_run p this n name ty w :
  register_uniform p (this, n) (name, ty) w =
  match uniform_location (host w) p name with
  | None =>
      (Ok (this, n),
       set_console (console w ++ [unresolved_uniform_warning name]) w)
  | Some loc =>
      (Ok (set_uniforms (<[name := getDefaultUniformValue ty]> (uniforms this))
             (set_uniformInfo
                (jsmap_set name
                   {| location := loc; utype := ty;
                      textureUnit := match ty with
                                     | sampler2D => Some n
                                     | _ => None
                                     end |}
                   (uniformInfo this)) this),
           match ty with sampler2D => S n | _ => n end),
       w)
  end.
Proof.
  unfold register_uniform. run_monad.
  destruct (uniform_location (host w) p name); [| reflexivity].
  destruct ty; reflexivity.
Qed.

Lemma jsmap_get_set {K V} `{EqDecision K} (k k' : K) (v : V) (m : JSMap K V) :
  jsmap_get k' (jsmap_set k v m) = if decide (k = k') then Some v else jsmap_get k' m.
Proof.
  induction m as [|[k0 v0] rest IH]; cbn.
  - destruct (decide (k = k')); reflexivity.
  - destruct (decide (k0 = k)) as [->|Hne]; cbn.
    + destruct (decide (k = k')); reflexivity.
    + destruct (decide (k0 = k')) as [->|Hne'].
      * destruct (decide (k = k')); [congruence | reflexivity].
      * exact IH.
Qed.

(** What the registration loop establishes, whatever it started from. *)
Lemma register_uniforms_run p decls :
  forall this n w,
  exists this' n' w',
    for_each (register_uniform p) decls (this, n) w = (Ok (this', n'), w') /\
    quiet w w' /\
    (* names that do not resolve are warned about and left alone *)
    (forall name, uniform_location (host w) p name = None ->
       jsmap_get name (uniformInfo this') = jsmap_get name (uniformInfo this) /\
       uniforms this' !! name = uniforms this !! name /\
       (name ∈ decls.*1 -> In (unresolved_uniform_warning name) (console w'))) /\
    (* a registered name holds the default of its registered type *)
    ((forall name info, jsmap_get name (uniformInfo this) = Some info ->
        uniforms this !! name = Some (getDefaultUniformValue (utype info))) ->
     forall name info, jsmap_get name (uniformInfo this') = Some info ->
        uniforms this' !! name = Some (getDefaultUniformValue (utype info))) /\
    (* a declared name that resolves is registered with its declared type *)
    (NoDup decls.*1 ->
     forall name ty, (name, ty) ∈ decls ->
       is_Some (uniform_location (host w) p name) ->
       exists info, jsmap_get name (uniformInfo this') = Some info /\
                    utype info = ty /\
                    uniforms this' !! name = Some (getDefaultUniformValue ty)).
Proof.
  induction decls as [|[name0 ty0] rest IH]; intros this n w; cbn [for_each].
  - exists this, n, w. split; [reflexivity |]. split; [apply quiet_refl |].
    split; [| split].
    + intros name _. repeat split. cbn. intros Hin. apply elem_of_nil in Hin as [].
    + auto.
    + intros _ name ty Hin. apply elem_of_nil in Hin as [].
  - rewrite bind_run, register_uniform_run.
    destruct (uniform_location (host w) p name0) as [loc|] eqn:Hloc.
    + match goal with |- context [for_each _ rest (?t, ?m) w] =>
        destruct (IH t m w) as (this' & n' & w' & Hrun & Hq & Hun & Hreg & Hdecl) end.
      exists this', n', w'. split; [exact Hrun |]. split; [exact Hq |].
      split; [| split].
      * intros name Hname. destruct (Hun name Hname) as (Hi & Hu & Hw).
        assert (Hne : name0 <> name) by congruence.
        cbn in Hi, Hu. rewrite jsmap_get_set in Hi. rewrite lookup_insert_ne in Hu by exact Hne.
        destruct (decide (name0 = name)); [contradiction |].
        split; [exact Hi |]. split; [exact Hu |].
        intros Hin. apply Hw. cbn in Hin. apply elem_of_cons in Hin as [Heq | Hin];
          [congruence | exact Hin].
      * intros Hinit. apply Hreg. intros name info. cbn.
        rewrite jsmap_get_set. destruct (decide (name0 = name)) as [->|Hne].
        -- intros [= <-]. rewrite lookup_insert_eq. reflexivity.
        -- rewrite lookup_insert_ne by exact Hne. apply Hinit.
      * intros Hnodup name ty Hin Hres. cbn in Hnodup.
        apply NoDup_cons in Hnodup as [Hfresh Hnodup].
        apply elem_of_cons in Hin as [Heq | Hin].
        -- injection Heq as -> ->.
           (* the rest of the loop does not touch [name0] again *)
           clear Hdecl Hreg Hun.
           assert (Hkeep : forall rest' this1 n1,
                     name0 ∉ rest'.*1 ->
                     forall this2 n2 w2,
                       for_each (register_uniform p) rest' (this1, n1) w = (Ok (this2, n2), w2) ->
                       jsmap_get name0 (uniformInfo this2) = jsmap_get name0 (uniformInfo this1) /\
                       uniforms this2 !! name0 = uniforms this1 !! name0).
           { clear. intros rest'. generalize w at 1 as w0.
             induction rest' as [|[nm t] rest' IH']; intros w0 this1 n1 Hnot this2 n2 w2;
               cbn [for_each].
             - intros [= <- <- <-]. split; reflexivity.
             - rewrite bind_run, register_uniform_run.
               assert (Hne : nm <> name0).
               { intros ->. apply Hnot. cbn. apply elem_of_cons. now left. }
               assert (Hnot' : name0 ∉ rest'.*1).
               { intros Hin. apply Hnot. cbn. apply elem_of_cons. now right. }
               destruct (uniform_location (host w0) p nm).
               + intros Hrun. destruct (IH' _ _ _ Hnot' _ _ _ Hrun) as [Hi Hu].
                 cbn in Hi, Hu. rewrite jsmap_get_set in Hi.
                 rewrite lookup_insert_ne in Hu by exact Hne.
                 destruct (decide (nm = name0)); [contradiction |]. split; assumption.
               + intros Hrun. apply (IH' _ _ _ Hnot' _ _ _ Hrun). }
           destruct (Hkeep rest _ _ Hfresh _ _ _ Hrun) as [Hi Hu].
           cbn in Hi, Hu. rewrite jsmap_get_set in Hi. rewrite lookup_insert_eq in Hu.
           destruct (decide (name0 = name0)); [| contradiction].
           eexists. split; [exact Hi |]. split; [reflexivity | exact Hu].
        -- apply (Hdecl Hnodup name ty Hin Hres).
    + match goal with |- context [for_each _ rest (?t, ?m) ?w1] =>
        destruct (IH t m w1) as (this' & n' & w' & Hrun & Hq & Hun & Hreg & Hdecl) end.
      exists this', n', w'. split; [exact Hrun |].
      assert (Hq1 : quiet w (set_console (console w ++ [unresolved_uniform_warning name0]) w)).
      { unfold quiet. cbn. repeat split; auto. intros msg Hm. apply in_app_iff. now left. }
      split; [eapply quiet_trans; eassumption |].
      split; [| split].
      * intros name Hname. destruct (Hun name Hname) as (Hi & Hu & Hw).
        split; [exact Hi |]. split; [exact Hu |].
        intros Hin. cbn in Hin. apply elem_of_cons in Hin as [-> | Hin].
        -- destruct Hq as (_ & _ & _ & _ & Hcons). apply Hcons. cbn.
           apply in_app_iff. right. now left.
        -- apply Hw, Hin.
      * exact Hreg.
      * intros Hnodup name ty Hin Hres. cbn in Hnodup.
        apply NoDup_cons in Hnodup as [Hfresh Hnodup].
        apply elem_of_cons in Hin as [Heq | Hin].
        -- injection Heq as -> ->. rewrite Hloc in Hres. destruct Hres as [? [=]].
        -- apply (Hdecl Hnodup name ty Hin Hres).
Qed.

(** The receiver that enters the registration loop has the registry it had
    on entry to [initResources]; the one that leaves the loop is returned. *)
Lemma initResources_registry this0 options w0 this w :
  initResources this0 options w0 = (Ok this, w) ->
  exists p this1 w1 w2,
    program this = Some p /\
    uniforms this1 = uniforms this0 /\ uniformInfo this1 = uniformInfo this0 /\
    quiet w0 w1 /\
    match opt_uniforms options with
    | Some decls =>
        exists n, for_each (register_uniform p) decls (this1, 0%nat) w1 = (Ok (this, n), w2)
    | None => this = this1 /\ w2 = w1
    end /\
    quiet w2 w /\ console w = console w2.
Proof.
  unfold initResources. intros H.
  inv_step H as vs wa Hvs.
  inv_step H as fs wb Hfs.
  inv_step H as p wc Hp.
  inv_step H as u1 wd Hd1.
  inv_step H as u2 we Hd2.
  inv_step H as thisA wf Hmode.
  inv_step H as tl wg Htl.
  inv_step H as rl wh Hrl.
  inv_step H as thisB wi Hloop.
  inv_step H as u3 wj Hresize.
  injection H as <- <-.
  assert (HA : program thisA = Some p /\ uniforms thisA = uniforms this0 /\
               uniformInfo thisA = uniformInfo this0).
  { cbn [renderMode set_program] in Hmode. destruct (renderMode this0).
    - inv_bind Hmode. injection Hmode as <- _. repeat split.
    - apply (quietly_Ok _ _ _ _ _ (quietly_initInstancedResources _)) in Hmode
        as [_ [-> | [b ->]]]; repeat split. }
  destruct HA as (HpA & HuA & HiA).
  assert (Hq : quiet w0 wh).
  { apply (quietly_world _ _ _ _ _ (quietly_createShader _ _)) in Hvs.
    apply (quietly_world _ _ _ _ _ (quietly_createShader _ _)) in Hfs.
    apply (quietly_world _ _ _ _ _ (quietly_createProgram _ _)) in Hp.
    apply (quietly_world _ _ _ _ _ (quietly_gl_call _)) in Hd1.
    apply (quietly_world _ _ _ _ _ (quietly_gl_call _)) in Hd2.
    apply (quietly_world _ _ _ _ _ (quietly_getUniformLocation _ _)) in Htl.
    apply (quietly_world _ _ _ _ _ (quietly_getUniformLocation _ _)) in Hrl.
    assert (Hm : quiet we wf).
    { cbn [renderMode set_program] in Hmode. destruct (renderMode this0).
      - inv_bind Hmode. injection Hmode as _ <-.
        apply (quietly_world _ _ _ _ _ (quietly_initFullscreenResources _)) in Hrun.
        exact Hrun.
      - apply (quietly_world _ _ _ _ _ (quietly_initInstancedResources _)) in Hmode.
        exact Hmode. }
    repeat (eapply quiet_trans; [eassumption |]). apply quiet_refl. }
  exists p, (set_resolutionLocation rl (set_timeLocation tl thisA)), wh, wi.
  assert (Hconsole : console wj = console wi /\ quiet wi wj).
  { split; [| apply (quietly_world _ _ _ _ _ (quietly_handleResize _ _)) in Hresize;
              exact Hresize].
    clear -Hresize. unfold handleResize, drawingBufferSize, update_canvas in Hresize.
    revert Hresize. run_monad.
    destruct (_ || _); [| intros [= _ <-]; reflexivity].
    destruct (drawing_buffer _ _ _) as [bw bh].
    destruct (opt_onResize options); intros [= _ <-]; reflexivity. }
  destruct Hconsole as [Hcons Hqr].
  destruct (opt_uniforms options) as [decls|].
  - inv_bind Hloop. destruct a as [thisC n]. injection Hloop as <- <-.
    destruct (register_uniforms_run p decls
                (set_resolutionLocation rl (set_timeLocation tl thisA)) 0%nat wh)
      as (this' & n' & w' & Hrun' & _ & _ & Hreg & _).
    rewrite Hrun in Hrun'. injection Hrun' as <- <- <-.
    assert (Hprog : program thisC = Some p).
    { assert (Hq' : quietly
                (for_each (register_uniform p) decls
                   (set_resolutionLocation rl (set_timeLocation tl thisA), 0%nat))
                (fun acc => core acc.1 = core thisA /\ program acc.1 = program thisA)).
      { apply quietly_for_each; [| split; reflexivity].
        intros acc x Hacc. apply quietly_register_uniform, Hacc. }
      destruct (quietly_Ok _ _ _ _ _ Hq' Hrun) as [_ [_ Hp']].
      cbn in Hp'. congruence. }
    split; [exact Hprog |]. split; [exact HuA |]. split; [exact HiA |].
    split; [exact Hq |]. split; [exists n; exact Hrun |].
    split; [exact Hqr | exact Hcons].
  - injection Hloop as <- <-.
    split; [exact HpA |]. split; [exact HuA |]. split; [exact HiA |].
    split; [exact Hq |]. split; [split; reflexivity |].
    split; [exact Hqr | exact Hcons].
Qed.

(** The registry of a freshly constructed instance. *)
Lemma constructor_uniforms options w0 this w :
  constructor options w0 = (Ok this, w) ->
  exists p,
    program this = Some p /\
    (forall name info, jsmap_get name (uniformInfo this) = Some info ->
       uniforms this !! name = Some (getDefaultUniformValue (utype info))) /\
    (forall name, uniform_location (host w0) p name = None ->
       jsmap_get name (uniformInfo this) = None /\
       uniforms this !! name = None /\
       (forall decls, opt_uniforms options = Some decls -> name ∈ decls.*1 ->
          In (unresolved_uniform_warning name) (console w))) /\
    (forall decls, opt_uniforms options = Some decls -> NoDup decls.*1 ->
     forall name ty, (name, ty) ∈ decls ->
       is_Some (uniform_location (host w0) p name) ->
       exists info, jsmap_get name (uniformInfo this) = Some info /\
                    utype info = ty /\
                    uniforms this !! name = Some (getDefaultUniformValue ty)).
Proof.
  unfold constructor. intros H.
  inv_step H as fields wa Hfields. destruct fields as [n attrs].
  inv_step H as cv wb Hcv.
  inv_step H as ctx wc Hctx.
  inv_step H as u1 wd Hl1.
  inv_step H as u2 we Hl2.
  inv_step H as this1 wg Hinit.
  inv_step H as obs wh Hobs.
  inv_step H as u3 wi Hobserve.
  injection H as <- <-.
  assert (Hq0 : quiet w0 we).
  { apply (quietly_world _ _ _ _ _ (quietly_validate_options _ _)) in Hfields.
    apply (quietly_world _ _ _ _ _ (quietly_resolve_canvas _)) in Hcv.
    apply (quietly_world _ _ _ _ _ (quietly_initialize_context _ _)) in Hctx.
    apply (quietly_world _ _ _ _ _ (quietly_addEventListener _ _)) in Hl1.
    apply (quietly_world _ _ _ _ _ (quietly_addEventListener _ _)) in Hl2.
    repeat (eapply quiet_trans; [eassumption |]). apply quiet_refl. }
  apply initResources_registry in Hinit
    as (p & thisR & w1 & w2 & Hp & Hu & Hi & Hq1 & Hloop & Hq2 & Hcons).
  cbn in Hu, Hi.
  assert (Hhost : host w1 = host w0).
  { destruct Hq0 as [Hh0 _], Hq1 as [Hh1 _]. congruence. }
  assert (Hconsole : console wi = console w2).
  { revert Hobs Hobserve. unfold new_ResizeObserver, observe. run_monad.
    intros [= _ <-] [= _ <-]. cbn. exact Hcons. }
  exists p. cbn [program uniforms uniformInfo set_resizeObserver].
  split; [exact Hp |].
  destruct (opt_uniforms options) as [decls|].
  - destruct Hloop as [k Hloop].
    destruct (register_uniforms_run p decls thisR 0%nat w1)
      as (this' & n' & w' & Hrun' & _ & Hun & Hreg & Hdecl).
    rewrite Hloop in Hrun'. injection Hrun' as <- <- <-.
    rewrite Hhost in Hun, Hdecl. rewrite Hu, Hi in Hun, Hreg.
    split; [| split].
    + apply Hreg. cbn. discriminate.
    + intros name Hname. destruct (Hun name Hname) as (Hi' & Hu' & Hw).
      split; [exact Hi' |]. split; [rewrite Hu'; apply lookup_empty |].
      intros decls' [= <-] Hin. rewrite Hconsole. apply Hw, Hin.
    + intros decls' [= <-]. exact Hdecl.
  - destruct Hloop as [-> ->]. rewrite Hu, Hi.
    split; [| split].
    + cbn. discriminate.
    + intros name _. split; [reflexivity |]. split; [apply lookup_empty |].
      intros decls' [=].
    + intros decls' [=].
Qed.

(** C6. The default of every uniform type is the zero value of its
    component count (0 for float and int, [0,0], [0,0,0], [0,0,0,0] for the
    vectors, null for a sampler), and after construction the value-bag holds
    that default under every declared name that resolved in the program. *)
Theorem C6_uniform_defaults_seeded
    (options : ShaderUpOptions) (w0 : World) (this : ShaderUp) (w : World)
    (decls : list (string * UniformType)) (name : string) (ty : UniformType)
    (p : Handle) :
  constructor options w0 = (Ok this, w) ->
  opt_uniforms options = Some decls ->
  NoDup decls.*1 ->
  (name, ty) ∈ decls ->
  program this = Some p ->
  is_Some (uniform_location (host w0) p name) ->
  (forall ty', getDefaultUniformValue ty' = zero_default ty') /\
  getDefaultUniformValue float = VNumber (Num 0) /\
  getDefaultUniformValue vec2 = VArray [VInt 0; VInt 0] /\
  getDefaultUniformValue vec3 = VArray [VInt 0; VInt 0; VInt 0] /\
  getDefaultUniformValue vec4 = VArray [VInt 0; VInt 0; VInt 0; VInt 0] /\
  getDefaultUniformValue int = VNumber (Num 0) /\
  getDefaultUniformValue sampler2D = VNull /\
  uniforms this !! name = Some (getDefaultUniformValue ty).
Proof.
  intros Hnew Hdecls Hnodup Hin Hp Hres.
  split; [intros []; reflexivity |].
  do 6 (split; [reflexivity |]).
  destruct (constructor_uniforms _ _ _ _ Hnew) as (p' & Hp' & _ & _ & Hdecl).
  assert (p' = p) as -> by congruence.
  destruct (Hdecl decls Hdecls Hnodup name ty Hin Hres) as (info & _ & _ & Hbag).
  exact Hbag.
Qed.

Lemma C6_uniform_defaults_seeded_witness :
  exists this w,
    constructor demo_fullscreen demo_world = (Ok this, w) /\
    uniforms this !! "u_color" = Some (VArray [VInt 0; VInt 0; VInt 0; VInt 0]) /\
    uniforms this !! "u_image" = Some VNull.
Proof.
  destruct (constructor demo_fullscreen demo_world) as [[this|e] w] eqn:Hnew;
    [| vm_compute in Hnew; discriminate Hnew].
  exists this, w. split; [reflexivity |].
  assert (Hp : program this = Some 2%nat).
  { change (built_program (Ok this, w) = Some 2%nat). rewrite <- Hnew.
    vm_compute. reflexivity. }
  assert (Hnodup : NoDup (opt_uniforms_list demo_fullscreen).*1).
  { clear. cbn. repeat (apply NoDup_cons; split; [set_solver |]). apply NoDup_nil_2. }
  assert (Hcolor : is_Some (uniform_location (host demo_world) 2%nat "u_color")).
  { eexists. vm_compute. reflexivity. }
  assert (Himage : is_Some (uniform_location (host demo_world) 2%nat "u_image")).
  { eexists. vm_compute. reflexivity. }
  assert (Hin1 : ("u_color", vec4) ∈ opt_uniforms_list demo_fullscreen)
    by (clear; set_solver).
  assert (Hin2 : ("u_image", sampler2D) ∈ opt_uniforms_list demo_fullscreen)
    by (clear; set_solver).
  pose proof (C6_uniform_defaults_seeded demo_fullscreen demo_world this w
                (opt_uniforms_list demo_fullscreen) "u_color" vec4 2%nat Hnew eq_refl
                Hnodup Hin1 Hp Hcolor) as H1.
  pose proof (C6_uniform_defaults_seeded demo_fullscreen demo_world this w
                (opt_uniforms_list demo_fullscreen) "u_image" sampler2D 2%nat Hnew
                eq_refl Hnodup Hin2 Hp Himage) as H2.
  destruct H1 as (_ & _ & _ & _ & _ & _ & _ & H1).
  destruct H2 as (_ & _ & _ & _ & _ & _ & _ & H2).
  split; [exact H1 | exact H2].
Defined.

(** ** Actions that never throw *)

Lemma total_ret {A} (a : A) : total (mret a).
Proof. intros w. exists a, w. reflexivity. Qed.

Lemma total_bind {A B} (m : M A) (k : A -> M B) :
  total m -> (forall a, total (k a)) -> total (m ≫= k).
Proof.
  intros Hm Hk w. destruct (Hm w) as (a & w1 & Hrun).
  destruct (Hk a w1) as (b & w2 & Hrun').
  exists b, w2. rewrite bind_run, Hrun. exact Hrun'.
Qed.

Lemma total_for_each {A S} (body : S -> A -> M S) xs :
  (forall acc x, total (body acc x)) -> forall acc, total (for_each body xs acc).
Proof.
  intros Hbody. induction xs as [|x rest IH]; intros acc; cbn [for_each].
  - apply total_ret.
  - apply total_bind; [apply Hbody | exact IH].
Qed.

(** A primitive whose result is a pair by computation. *)
Ltac total_primitive :=
  let w := fresh "w" in intros w; do 2 eexists; reflexivity.

Ltac total_step :=
  lazymatch goal with
  | |- total (mret _) => apply total_ret
  | |- total (_ ≫= _) => apply total_bind; [| intros ?]
  | |- total (for_each _ _ _) => apply total_for_each; intros ? ?
  | |- total (when ?b _) => destruct b; unfold when
  | |- total (if ?b then _ else _) => destruct b
  | |- total (match ?x with _ => _ end) => destruct x
  | |- total (let '(_, _) := ?x in _) => destruct x
  | |- total _ => total_primitive
  end.

Ltac total_auto := repeat total_step.

Lemma total_handleResize this callback : total (handleResize this callback).
Proof. unfold handleResize, drawingBufferSize. total_auto. Qed.

Lemma total_setData this data : total (setData this data).
Proof. unfold setData. total_auto. Qed.

Lemma total_setTexture this name image : total (setTexture this name image).
Proof. unfold setTexture. total_auto. Qed.

Lemma total_start this : total (start this).
Proof. unfold start. total_auto. Qed.

Lemma total_stop this : total (stop this).
Proof. unfold stop. total_auto. Qed.

Lemma total_dispose this : total (dispose this).
Proof.
  unfold dispose. apply total_bind; [apply total_stop | intros this1].
  total_auto.
Qed.

Lemma total_handleContextLost this : total (handleContextLost this).
Proof.
  unfold handleContextLost. apply total_bind; [apply total_stop | intros this1].
  total_auto.
Qed.

Lemma total_handleContextRestored this : total (handleContextRestored this).
Proof. unfold handleContextRestored. total_auto. Qed.

Lemma total_upload_uniform this acc entry : total (upload_uniform this acc entry).
Proof. unfold upload_uniform. total_auto. Qed.

Lemma total_render this time : total (render this time).
Proof.
  unfold render, drawingBufferSize.
  destruct (isDestroyed this); [total_auto |].
  destruct (program this); [| total_auto].
  do 3 (apply total_bind; [total_auto | intros ?]).
  apply total_bind; [apply total_for_each; intros; apply total_upload_uniform | intros ?].
  total_auto.
Qed.

Lemma total_step_event ev this : total (step ev this).
Proof.
  destruct ev; cbn [step].
  - apply total_start.
  - apply total_stop.
  - apply total_dispose.
  - apply total_setData.
  - apply total_setTexture.
  - apply total_ret.
  - unfold run_animation_frame. do 2 (apply total_bind; [total_primitive | intros ?]).
    apply total_for_each. intros acc x.
    apply total_bind; [total_primitive | intros ?]. apply total_render.
  - unfold run_resize_observer. apply total_bind; [total_primitive | intros w'].
    destruct (observers w' !! observer) as [ob|]; [| apply total_ret].
    destruct (ob_targets ob); [apply total_ret |].
    apply total_bind; [apply total_handleResize | intros ?]. apply total_ret.
  - total_auto.
  - unfold dispatch. apply total_bind; [total_primitive | intros cv].
    destruct (decide _); [apply total_handleContextLost | apply total_ret].
  - unfold dispatch. apply total_bind; [total_primitive | intros cv].
    destruct (decide _); [apply total_handleContextRestored | apply total_ret].
Qed.

Lemma total_run evs this : total (run evs this).
Proof. unfold run. apply total_for_each. intros acc ev. apply total_step_event. Qed.

(** ** The frame loop and teardown in closed form *)

Lemma set_gl_calls_id w : set_gl_calls (gl_calls w ++ []) w = w.
Proof. destruct w. cbn. rewrite app_nil_r. reflexivity. Qed.

Lemma start_run this w :
  start this w =
  match animationFrameId this with
  | None =>
      if isDestroyed this then (Ok this, w)
      else (Ok (set_animationFrameId (Some (raf_next w)) this),
            set_raf_next (Pos.succ (raf_next w))
              (set_raf_pending (raf_pending w ++ [raf_next w]) w))
  | Some _ => (Ok this, w)
  end.
Proof.
  unfold start. destruct (animationFrameId this); [reflexivity |].
  destruct (isDestroyed this); reflexivity.
Qed.

Lemma stop_run this w :
  stop this w =
  match animationFrameId this with
  | Some id =>
      (Ok (set_animationFrameId None this),
       set_raf_pending (filter (fun id' => id' ≠ id) (raf_pending w)) w)
  | None => (Ok this, w)
  end.
Proof. unfold stop. destruct (animationFrameId this); reflexivity. Qed.

Lemma delete_textures_run (texs : JSMap nat (option Handle)) w :
  for_each (fun (_ : unit) '(_, tex) => gl_call (DeleteTexture tex)) texs tt w =
  (Ok tt, set_gl_calls (gl_calls w ++ map (fun e => DeleteTexture e.2) texs) w).
Proof.
  revert w. induction texs as [|[unit tex] rest IH]; intros w; cbn [for_each map].
  - rewrite set_gl_calls_id. reflexivity.
  - rewrite bind_run. cbn. rewrite IH. cbn. rewrite <- app_assoc. reflexivity.
Qed.

Lemma dispose_run this w : dispose this w = (Ok (disposed this), released this w).
Proof.
  unfold dispose. rewrite bind_run, stop_run.
  destruct this as [cv ctx bag mode attrs n prog raf obs dead reg texs buf tl rl].
  destruct w as [hst cvs calls nh obss pend nxt cons rcs fr].
  unfold disposed, released; cbn.
  destruct raf as [id|]; cbn; destruct obs as [h|]; run_monad;
    unfold removeEventListener, update_canvas, disconnect; run_monad;
    rewrite ?lookup_insert_eq, ?insert_insert_eq; cbn;
    rewrite delete_textures_run; cbn;
    destruct buf as [b|]; cbn; destruct prog as [p|]; cbn;
    rewrite <- ?app_assoc, ?app_nil_r; reflexivity.
Qed.

(** ** Teardown *)

Lemma dispose_torn_down this w : torn_down (disposed this) (released this w).
Proof.
  unfold torn_down, disposed, released. cbn. repeat (split; [reflexivity |]).
  eexists. split; [apply lookup_insert_eq |]. cbn. split; set_solver.
Qed.

Lemma torn_down_dispose this w :
  torn_down this w -> dispose this w = (Ok this, w).
Proof.
  intros (Hd & Hraf & Hobs & Htex & Hbuf & Hprog & cv & Hcv & Hl1 & Hl2).
  rewrite dispose_run. unfold disposed, released.
  destruct this as [c ctx bag mode attrs n prog raf obs dead reg texs buf tl rl].
  cbn in *. subst. cbn. rewrite Hcv. cbn.
  assert (Hsame : without_listeners cv = cv).
  { unfold without_listeners. destruct cv as [wd ht cw ch ls]. cbn in *.
    unfold set_listeners. cbn. f_equal. set_solver. }
  rewrite Hsame, (insert_id _ _ _ Hcv).
  destruct w; cbn. rewrite app_nil_r. reflexivity.
Qed.

Lemma destroyed_start this w :
  isDestroyed this = true -> start this w = (Ok this, w).
Proof.
  intros Hd. rewrite start_run, Hd. destruct (animationFrameId this); reflexivity.
Qed.

Lemma destroyed_setData this data w :
  isDestroyed this = true -> setData this data w = (Ok this, w).
Proof. intros Hd. unfold setData. rewrite Hd. destruct (renderMode this); reflexivity. Qed.

Lemma destroyed_setTexture this name image w :
  isDestroyed this = true -> setTexture this name image w = (Ok this, w).
Proof. intros Hd. unfold setTexture. rewrite Hd. reflexivity. Qed.

Lemma destroyed_render this time w :
  isDestroyed this = true -> render this time w = (Ok this, w).
Proof. intros Hd. unfold render. rewrite Hd. reflexivity. Qed.

(** Frame callbacks that find the instance destroyed only get counted. *)
Lemma destroyed_frames this time callbacks :
  isDestroyed this = true ->
  forall w, exists w',
    for_each (fun this (_ : positive) =>
                (modify (fun w => set_frames_executed (S (frames_executed w)) w);;
                 render this time)) callbacks this w = (Ok this, w') /\
    canvases w' = canvases w.
Proof.
  intros Hd. induction callbacks as [|id rest IH]; intros w; cbn [for_each].
  - exists w. split; reflexivity.
  - rewrite !bind_run. cbn. rewrite (destroyed_render _ _ _ Hd).
    match goal with |- context [for_each _ rest this ?w1] =>
      destruct (IH w1) as (w' & Hrun & Hcv) end.
    exists w'. split; [exact Hrun | exact Hcv].
Qed.

(** A resize pass keeps the canvas in the store and its listeners as they are. *)
Lemma handleResize_listeners this callback w cv :
  canvases w !! canvas this = Some cv ->
  exists w' cv',
    handleResize this callback w = (Ok tt, w') /\
    canvases w' !! canvas this = Some cv' /\ listeners cv' = listeners cv.
Proof.
  intros Hcv. unfold handleResize, drawingBufferSize, update_canvas. run_monad.
  rewrite Hcv. cbn.
  destruct (_ || _).
  - rewrite lookup_insert_eq. cbn.
    destruct (drawing_buffer _ _ _) as [bw bh].
    destruct callback; run_monad; do 2 eexists; (split; [reflexivity |]); cbn;
      rewrite lookup_insert_eq, ?Hcv; split; reflexivity.
  - exists w, cv. repeat split. exact Hcv.
Qed.

Lemma torn_down_step ev this w :
  torn_down this w ->
  exists this' w', step ev this w = (Ok this', w') /\ torn_down this' w'.
Proof.
  intros Htd.
  pose proof Htd as (Hd & Hraf & Hobs & Htex & Hbuf & Hprog & cv & Hcv & Hl1 & Hl2).
  destruct ev; cbn [step].
  - exists this, w. split; [apply destroyed_start, Hd | exact Htd].
  - exists this, w. split; [rewrite stop_run, Hraf; reflexivity | exact Htd].
  - exists this, w. split; [apply torn_down_dispose, Htd | exact Htd].
  - exists this, w. split; [apply destroyed_setData, Hd | exact Htd].
  - exists this, w. split; [apply destroyed_setTexture, Hd | exact Htd].
  - eexists _, w. split; [reflexivity |]. exact Htd.
  - unfold run_animation_frame. run_monad.
    destruct (destroyed_frames this time (raf_pending w) Hd (set_raf_pending [] w))
      as (w' & Hrun & Hcvs).
    exists this, w'. split; [exact Hrun |].
    unfold torn_down. repeat (split; [assumption |]).
    exists cv. rewrite Hcvs. cbn. repeat split; assumption.
  - unfold run_resize_observer. run_monad.
    destruct (observers w !! observer) as [ob|];
      [| exists this, w; split; [reflexivity | exact Htd]].
    destruct (ob_targets ob);
      [exists this, w; split; [reflexivity | exact Htd] |].
    destruct (handleResize_listeners this (ob_onResize ob) w cv Hcv)
      as (w' & cv' & Hrun & Hcv' & Hls).
    rewrite Hrun. exists this, w'. split; [reflexivity |].
    unfold torn_down. repeat (split; [assumption |]).
    exists cv'. rewrite Hls. repeat split; assumption.
  - unfold update_canvas. run_monad. eexists this, _. split; [reflexivity |].
    unfold torn_down. repeat (split; [assumption |]).
    eexists. cbn. split; [apply lookup_insert_eq |].
    rewrite Hcv. cbn. split; assumption.
  - unfold dispatch. run_monad. rewrite Hcv. cbn.
    destruct (decide _); [contradiction |].
    exists this, w. split; [reflexivity | exact Htd].
  - unfold dispatch. run_monad. rewrite Hcv. cbn.
    destruct (decide _); [contradiction |].
    exists this, w. split; [reflexivity | exact Htd].
Qed.

Lemma torn_down_run evs :
  forall this w, torn_down this w ->
  exists this' w', run evs this w = (Ok this', w') /\ torn_down this' w'.
Proof.
  unfold run. induction evs as [|ev rest IH]; intros this w Htd; cbn [for_each].
  - exists this, w. split; [reflexivity | exact Htd].
  - destruct (torn_down_step ev this w Htd) as (this1 & w1 & Hstep & Htd1).
    rewrite bind_run, Hstep. apply IH, Htd1.
Qed.

(** C4. [dispose] never throws and leaves the program, the instance buffer
    and the textures released. Calling it again, at once or after any
    further calls and host events, returns normally and changes nothing; and
    from the first [dispose] on, [start], [setData] and [setTexture] return
    normally and change nothing either. *)
Theorem C4_dispose_idempotent (this : ShaderUp) (w : World) :
  exists this1 w1,
    dispose this w = (Ok this1, w1) /\
    program this1 = None /\ instanceBuffer this1 = None /\ textures this1 = [] /\
    dispose this1 w1 = (Ok this1, w1) /\
    forall evs, exists this2 w2,
      run evs this1 w1 = (Ok this2, w2) /\
      program this2 = None /\ instanceBuffer this2 = None /\ textures this2 = [] /\
      dispose this2 w2 = (Ok this2, w2) /\
      start this2 w2 = (Ok this2, w2) /\
      (forall data, setData this2 data w2 = (Ok this2, w2)) /\
      (forall name image, setTexture this2 name image w2 = (Ok this2, w2)).
Proof.
  exists (disposed this), (released this w).
  pose proof (dispose_torn_down this w) as Htd.
  split; [apply dispose_run |].
  do 3 (split; [reflexivity |]).
  split; [apply torn_down_dispose, Htd |].
  intros evs. destruct (torn_down_run evs _ _ Htd) as (this2 & w2 & Hrun & Htd2).
  exists this2, w2. split; [exact Hrun |].
  pose proof Htd2 as (Hd & _ & _ & Htex & Hbuf & Hprog & _).
  do 3 (split; [assumption |]).
  split; [apply torn_down_dispose, Htd2 |].
  split; [apply destroyed_start, Hd |].
  split; [intros data; apply destroyed_setData, Hd |].
  intros name image. apply destroyed_setTexture, Hd.
Qed.

(** ** One frame, in closed form *)

Lemma upload_uniform_run this entry w :
  upload_uniform this tt entry w =
  (Ok tt, set_gl_calls (gl_calls w ++ upload_calls this entry) w).
Proof.
  unfold upload_uniform, upload_calls. destruct entry as [name info].
  cbv zeta. destruct (is_nullish _); [rewrite set_gl_calls_id; reflexivity |].
  destruct (utype info); try reflexivity.
  destruct (textureUnit info); [reflexivity | rewrite set_gl_calls_id; reflexivity].
Qed.

Lemma upload_uniforms_run this reg w :
  for_each (upload_uniform this) reg tt w =
  (Ok tt, set_gl_calls (gl_calls w ++ flat_map (upload_calls this) reg) w).
Proof.
  revert w. induction reg as [|entry rest IH]; intros w; cbn [for_each flat_map].
  - rewrite set_gl_calls_id. reflexivity.
  - rewrite bind_run, upload_uniform_run, IH. cbn. rewrite <- app_assoc. reflexivity.
Qed.

Lemma render_run this time w p :
  isDestroyed this = false ->
  program this = Some p ->
  render this time w =
  (Ok (set_animationFrameId (Some (raf_next w)) this),
   frame_requested w (frame_calls this time w p)).
Proof.
  intros Hd Hp. unfold render. rewrite Hd, Hp.
  unfold frame_calls, frame_requested, drawingBufferSize, draw_call.
  rewrite !bind_run. cbn [gl_call modify].
  destruct (timeLocation this) as [tl|]; cbn [option_call];
    destruct (resolutionLocation this) as [rl|]; cbn [option_call];
    run_monad; try destruct (drawing_buffer _ _ _) as [bw bh]; run_monad;
    rewrite upload_uniforms_run; cbn;
    destruct (renderMode this); cbn; rewrite <- ?app_assoc; reflexivity.
Qed.

Lemma upload_calls_no_draw this reg :
  List.filter is_draw_call (flat_map (upload_calls this) reg) = [].
Proof.
  induction reg as [|[name info] rest IH]; cbn [flat_map]; [reflexivity |].
  rewrite List.filter_app, IH, app_nil_r. unfold upload_calls.
  cbv zeta. destruct (is_nullish _); [reflexivity |].
  destruct (utype info); try reflexivity.
  destruct (textureUnit info); reflexivity.
Qed.

Lemma frame_calls_draw this time w p :
  List.filter is_draw_call (frame_calls this time w p) = [draw_call this].
Proof.
  unfold frame_calls. rewrite !List.filter_app, upload_calls_no_draw.
  destruct (timeLocation this), (resolutionLocation this); cbn;
    try destruct (drawing_buffer _ _ _); cbn;
    unfold draw_call; destruct (renderMode this); reflexivity.
Qed.

(** ** The events that leave the frame loop alone *)

Lemma keeps_loop_fields_refl this : keeps_loop_fields this this.
Proof. repeat split. Qed.

Lemma quietly_get_world : quietly get_world (fun _ => True).
Proof. quiet_primitive. Qed.

Lemma quietly_setData this data :
  quietly (setData this data) (keeps_loop_fields this).
Proof.
  unfold setData. repeat quiet_step; apply keeps_loop_fields_refl.
Qed.

Lemma quietly_setTexture this name image :
  quietly (setTexture this name image) (keeps_loop_fields this).
Proof.
  unfold setTexture. destruct (isDestroyed this);
    [apply quietly_ret, keeps_loop_fields_refl |].
  destruct (jsmap_get name (uniformInfo this)) as [info|].
  - destruct (utype info);
      try (quiet_step; apply quietly_ret, keeps_loop_fields_refl).
    destruct (textureUnit info) as [unit|];
      [| quiet_step; apply quietly_ret, keeps_loop_fields_refl].
    eapply (quietly_bind _ _ (fun r => keeps_loop_fields this r.1)).
    + destruct (jsmap_get unit (textures this)) as [[tex|]|].
      * apply quietly_ret, keeps_loop_fields_refl.
      * quiet_step. apply quietly_ret. repeat split.
      * quiet_step. apply quietly_ret. repeat split.
    + intros [this1 tex] Hkeep. cbn in Hkeep.
      repeat quiet_step. exact Hkeep.
  - quiet_step. apply quietly_ret, keeps_loop_fields_refl.
Qed.

Lemma quietly_quiet_event ev this :
  quiet_event ev = true -> quietly (step ev this) (keeps_loop_fields this).
Proof.
  destruct ev; cbn [quiet_event step]; try discriminate; intros _.
  - apply quietly_setData.
  - apply quietly_setTexture.
  - apply quietly_ret. repeat split.
  - unfold run_resize_observer.
    eapply quietly_bind; [apply quietly_get_world | intros w' _].
    destruct (observers w' !! observer) as [ob|];
      [| apply quietly_ret, keeps_loop_fields_refl].
    destruct (ob_targets ob); [apply quietly_ret, keeps_loop_fields_refl |].
    quiet_step. apply quietly_ret, keeps_loop_fields_refl.
  - quiet_step. apply quietly_ret, keeps_loop_fields_refl.
  - unfold dispatch, handleContextRestored.
    eapply quietly_bind; [apply quietly_read_canvas | intros cv _].
    destruct (decide _); [| apply quietly_ret, keeps_loop_fields_refl].
    quiet_step. apply quietly_ret, keeps_loop_fields_refl.
Qed.

Lemma handleContextLost_run this w :
  handleContextLost this w =
  match animationFrameId this with
  | Some id =>
      (Ok (set_animationFrameId None this),
       set_console (console w ++ ["[ShaderUp] Context Lost"])
         (set_raf_pending (filter (fun id' => id' ≠ id) (raf_pending w)) w))
  | None => (Ok this, set_console (console w ++ ["[ShaderUp] Context Lost"]) w)
  end.
Proof.
  unfold handleContextLost. rewrite bind_run, stop_run.
  destruct (animationFrameId this); reflexivity.
Qed.

Lemma filter_out_self (id : positive) : filter (fun id' => id' ≠ id) [id] = [].
Proof.
  rewrite filter_cons. destruct (decide (id ≠ id)); [contradiction | reflexivity].
Qed.

Lemma run_animation_frame_run this time w :
  run_animation_frame this time w =
  for_each (fun this (_ : positive) =>
              (modify (fun w => set_frames_executed (S (frames_executed w)) w);;
               render this time))
           (raf_pending w) this (set_raf_pending [] w).
Proof. reflexivity. Qed.

(** A frame in a state that satisfies the invariant. *)
Lemma frame_run this time w :
  loop_invariant this w ->
  step (animation_frame time) this w =
  match animationFrameId this, program this with
  | Some _, Some p =>
      let w1 := set_frames_executed (S (frames_executed w)) (set_raf_pending [] w) in
      (Ok (set_animationFrameId (Some (raf_next w)) this),
       frame_requested w1 (frame_calls this time w1 p))
  | _, _ => (Ok this, set_raf_pending [] w)
  end.
Proof.
  intros (Hpend & Hdead & Hlive). cbn [step]. rewrite run_animation_frame_run, Hpend.
  unfold pending_of. destruct (animationFrameId this) as [id|] eqn:Hraf.
  - destruct (isDestroyed this) eqn:Hd; [specialize (Hdead eq_refl); discriminate |].
    destruct (Hlive eq_refl) as [p Hp]. rewrite Hp.
    cbn [for_each]. rewrite !bind_run. cbn [modify].
    rewrite (render_run _ _ _ p Hd Hp). reflexivity.
  - destruct (program this); reflexivity.
Qed.

Lemma loop_invariant_step ev this w this' w' :
  loop_invariant this w ->
  step ev this w = (Ok this', w') ->
  loop_invariant this' w' /\
  renderMode this' = renderMode this /\ numInstances this' = numInstances this /\
  uniformInfo this' = uniformInfo this.
Proof.
  intros Hinv Hstep. pose proof Hinv as (Hpend & Hdead & Hlive).
  destruct (quiet_event ev) eqn:Hquiet.
  { destruct (quietly_Ok _ _ _ _ _ (quietly_quiet_event ev this Hquiet) Hstep)
      as [(_ & Hq & _) (Hcore & Hprog & Hreg)].
    unfold core in Hcore. injection Hcore as _ _ Hmode _ Hnum Hraf _ Hd.
    unfold loop_invariant, pending_of. rewrite Hq, Hraf, Hd, Hprog.
    repeat split; auto. }
  destruct ev; try discriminate Hquiet; clear Hquiet.
  - (* start *)
    cbn [step] in Hstep. rewrite start_run in Hstep.
    unfold loop_invariant, pending_of in *.
    destruct (animationFrameId this) as [id|] eqn:Hraf.
    + injection Hstep as <- <-. rewrite Hraf. repeat split; auto.
    + destruct (isDestroyed this) eqn:Hd; injection Hstep as <- <-; cbn.
      * rewrite Hraf, Hd. repeat split; auto.
      * rewrite Hpend, Hd. repeat split; auto. discriminate.
  - (* stop *)
    cbn [step] in Hstep. rewrite stop_run in Hstep.
    unfold loop_invariant, pending_of in *.
    destruct (animationFrameId this) as [id|] eqn:Hraf;
      injection Hstep as <- <-; cbn.
    + rewrite Hpend, filter_out_self. repeat split; auto.
    + rewrite Hraf. repeat split; auto.
  - (* dispose *)
    cbn [step] in Hstep. rewrite dispose_run in Hstep. injection Hstep as <- <-.
    unfold loop_invariant, pending_of, disposed, released in *. cbn.
    destruct (animationFrameId this) as [id|] eqn:Hraf;
      destruct (resizeObserver this); cbn;
      rewrite Hpend, ?filter_out_self; repeat split; auto; discriminate.
  - (* frame *)
    rewrite (frame_run _ _ _ Hinv) in Hstep.
    unfold loop_invariant, pending_of in *.
    destruct (animationFrameId this) as [id|] eqn:Hraf.
    + destruct (program this) as [p|] eqn:Hp.
      * cbv zeta in Hstep. injection Hstep as <- <-. cbn. rewrite Hp.
        repeat split; auto.
        intros Hd. specialize (Hdead Hd). discriminate.
      * injection Hstep as <- <-. cbn.
        destruct (isDestroyed this) eqn:Hd.
        -- specialize (Hdead eq_refl). discriminate.
        -- destruct (Hlive eq_refl) as [? [=]].
    + assert (Hs : (Ok this, set_raf_pending [] w) = (Ok this', w'))
        by (destruct (program this); exact Hstep).
      injection Hs as <- <-. cbn. rewrite Hraf. repeat split; auto.
  - (* context lost *)
    cbn [step] in Hstep. unfold dispatch in Hstep. rewrite bind_run in Hstep.
    cbn [read_canvas] in Hstep.
    destruct (decide _); [| injection Hstep as <- <-; repeat split; auto].
    rewrite handleContextLost_run in Hstep.
    unfold loop_invariant, pending_of in *.
    destruct (animationFrameId this) as [id|] eqn:Hraf;
      injection Hstep as <- <-; cbn.
    + rewrite Hpend, filter_out_self. repeat split; auto.
    + rewrite Hraf, Hpend. repeat split; auto.
Qed.

(** What holds in every state of a constructed instance. *)
Lemma reachable_invariant options this w :
  reachable options this w ->
  loop_invariant this w /\
  renderMode this = default fullscreen (opt_renderMode options) /\
  (renderMode this = instanced ->
   opt_numInstances options = Some (numInstances this)).
Proof.
  induction 1 as [w0 this w Hempty Hnew | ev this w this' w' Hreach IH Hstep].
  - apply constructor_constructed in Hnew
      as [(_ & Hpend & _) (Hmode & Hnum & Hprog & Hd & Hraf)].
    split; [| split; [exact Hmode | intros Hi; apply Hnum, Hi]].
    unfold loop_invariant, pending_of. rewrite Hpend, Hempty, Hraf, Hd.
    repeat split; auto.
  - destruct IH as (Hinv & Hmode & Hnum).
    destruct (loop_invariant_step _ _ _ _ _ Hinv Hstep) as (Hinv' & Hm & Hn & _).
    split; [exact Hinv' |]. rewrite Hm, Hn. split; assumption.
Qed.

(** While no frame is requested, nothing but [start] requests one, and no
    frame callback runs. *)
Lemma idle_step ev this w this' w' :
  ev <> call_start ->
  animationFrameId this = None -> raf_pending w = [] ->
  step ev this w = (Ok this', w') ->
  animationFrameId this' = None /\ raf_pending w' = [] /\
  frames_executed w' = frames_executed w.
Proof.
  intros Hev Hraf Hpend Hstep.
  destruct (quiet_event ev) eqn:Hquiet.
  { destruct (quietly_Ok _ _ _ _ _ (quietly_quiet_event ev this Hquiet) Hstep)
      as [(_ & Hq & _ & Hf & _) (Hcore & _)].
    unfold core in Hcore. injection Hcore as _ _ _ _ _ Hraf' _ _.
    rewrite Hraf', Hq, Hf. repeat split; assumption. }
  destruct ev; try discriminate Hquiet; clear Hquiet.
  - contradiction.
  - cbn [step] in Hstep. rewrite stop_run, Hraf in Hstep. injection Hstep as <- <-.
    repeat split; assumption.
  - cbn [step] in Hstep. rewrite dispose_run in Hstep. injection Hstep as <- <-.
    unfold disposed, released. rewrite Hraf. cbn.
    destruct (resizeObserver this); cbn; repeat split; assumption.
  - cbn [step] in Hstep. rewrite run_animation_frame_run, Hpend in Hstep.
    cbn [for_each] in Hstep. injection Hstep as <- <-. cbn. repeat split. exact Hraf.
  - cbn [step] in Hstep. unfold dispatch in Hstep. rewrite bind_run in Hstep.
    cbn [read_canvas] in Hstep.
    destruct (decide _); [| injection Hstep as <- <-; repeat split; assumption].
    rewrite handleContextLost_run, Hraf in Hstep. injection Hstep as <- <-.
    cbn. repeat split; assumption.
Qed.

Lemma idle_run evs :
  call_start ∉ evs ->
  forall this w,
    animationFrameId this = None -> raf_pending w = [] ->
    exists this' w',
      run evs this w = (Ok this', w') /\
      animationFrameId this' = None /\ raf_pending w' = [] /\
      frames_executed w' = frames_executed w.
Proof.
  unfold run. induction evs as [|ev rest IH]; intros Hnot this w Hraf Hpend;
    cbn [for_each].
  - exists this, w. repeat split; assumption.
  - destruct (total_step_event ev this w) as (this1 & w1 & Hstep).
    assert (Hev : ev <> call_start).
    { intros ->. apply Hnot. apply elem_of_cons. now left. }
    destruct (idle_step _ _ _ _ _ Hev Hraf Hpend Hstep) as (Hraf1 & Hpend1 & Hf1).
    destruct (IH (fun Hin => Hnot (proj2 (elem_of_cons _ _ _) (or_intror Hin)))
                this1 w1 Hraf1 Hpend1) as (this' & w' & Hrun & Hraf' & Hpend' & Hf').
    exists this', w'. rewrite bind_run, Hstep.
    split; [exact Hrun |]. split; [exact Hraf' |]. split; [exact Hpend' |].
    congruence.
Qed.

(** ** The frame loop *)

(** C5. In every state of a constructed instance at most one frame callback
    is scheduled, and it is the one [animationFrameId] holds. [start]
    schedules exactly one callback when none is held and the instance is not
    disposed, and otherwise changes nothing. A frame that executes schedules
    exactly one callback. After [stop] none is scheduled, and whatever
    happens short of a call to [start], none executes. *)
Theorem C5_single_frame_callback
    (options : ShaderUpOptions) (this : ShaderUp) (w : World) :
  reachable options this w ->
  (length (raf_pending w) <= 1)%nat /\
  raf_pending w = pending_of this /\
  (animationFrameId this = None -> isDestroyed this = false ->
   exists this' w' id,
     start this w = (Ok this', w') /\
     raf_pending w' = [id] /\ animationFrameId this' = Some id /\
     frames_executed w' = frames_executed w) /\
  (animationFrameId this <> None \/ isDestroyed this = true ->
   start this w = (Ok this, w)) /\
  (forall time, raf_pending w <> [] ->
   exists this' w' id,
     step (animation_frame time) this w = (Ok this', w') /\
     frames_executed w' = S (frames_executed w) /\
     raf_pending w' = [id] /\ animationFrameId this' = Some id) /\
  (exists this1 w1,
     stop this w = (Ok this1, w1) /\ raf_pending w1 = [] /\
     forall evs, call_start ∉ evs ->
       exists this2 w2,
         run evs this1 w1 = (Ok this2, w2) /\
         raf_pending w2 = [] /\
         frames_executed w2 = frames_executed w1).
Proof.
  intros Hreach.
  destruct (reachable_invariant _ _ _ Hreach) as (Hinv & _ & _).
  pose proof Hinv as (Hpend & Hdead & Hlive).
  split; [rewrite Hpend; unfold pending_of; destruct (animationFrameId this); cbn; lia |].
  split; [exact Hpend |].
  split; [| split; [| split]].
  - intros Hraf Hd. rewrite start_run, Hraf, Hd.
    eexists _, _, (raf_next w). split; [reflexivity |]. cbn.
    rewrite Hpend. unfold pending_of. rewrite Hraf. repeat split.
  - intros [Hraf | Hd]; rewrite start_run.
    + destruct (animationFrameId this); [reflexivity | contradiction].
    + rewrite Hd. destruct (animationFrameId this); reflexivity.
  - intros time Hbusy. rewrite (frame_run _ _ _ Hinv).
    rewrite Hpend in Hbusy. unfold pending_of in Hbusy.
    destruct (animationFrameId this) as [id|] eqn:Hraf; [| contradiction].
    destruct (isDestroyed this) eqn:Hd; [specialize (Hdead eq_refl); discriminate |].
    destruct (Hlive eq_refl) as [p Hp]. rewrite Hp. cbv zeta.
    eexists _, _, (raf_next w). split; [reflexivity |]. cbn. repeat split.
  - destruct (total_stop this w) as (this1 & w1 & Hstop).
    exists this1, w1. split; [exact Hstop |].
    assert (Hidle : animationFrameId this1 = None /\ raf_pending w1 = []).
    { rewrite stop_run in Hstop. unfold pending_of in Hpend.
      destruct (animationFrameId this) as [id|] eqn:Hraf;
        injection Hstop as <- <-; cbn.
      - rewrite Hpend, filter_out_self. split; reflexivity.
      - split; assumption. }
    destruct Hidle as [Hraf1 Hpend1]. split; [exact Hpend1 |].
    intros evs Hnot.
    destruct (idle_run evs Hnot this1 w1 Hraf1 Hpend1)
      as (this2 & w2 & Hrun & _ & Hpend2 & Hf2).
    exists this2, w2. repeat split; assumption.
Qed.

Lemma demo_fullscreen_constructs :
  exists this w, constructor demo_fullscreen demo_world = (Ok this, w).
Proof.
  destruct (constructor demo_fullscreen demo_world) as [[this|e] w] eqn:Hnew;
    [| vm_compute in Hnew; discriminate Hnew].
  exists this, w. reflexivity.
Defined.

Lemma demo_instanced_constructs :
  exists this w, constructor demo_instanced demo_world = (Ok this, w).
Proof.
  destruct (constructor demo_instanced demo_world) as [[this|e] w] eqn:Hnew;
    [| vm_compute in Hnew; discriminate Hnew].
  exists this, w. reflexivity.
Defined.

Lemma C5_single_frame_callback_witness :
  exists this w,
    reachable demo_fullscreen this w /\
    (length (raf_pending w) <= 1)%nat /\ raf_pending w = pending_of this.
Proof.
  destruct demo_fullscreen_constructs as (this0 & w0 & Hnew).
  destruct (total_start this0 w0) as (this & w & Hstart).
  assert (Hreach : reachable demo_fullscreen this w).
  { apply (reachable_step _ call_start this0 w0); [| exact Hstart].
    apply (reachable_new _ demo_world); [reflexivity | exact Hnew]. }
  exists this, w. split; [exact Hreach |].
  destruct (C5_single_frame_callback demo_fullscreen this w Hreach)
    as (Hone & Hpend & _).
  split; [exact Hone | exact Hpend].
Defined.

(** C8. A frame that executes on a constructed instance issues exactly one
    draw call among the calls it adds to the trace: [drawArrays(TRIANGLES, 0,
    3)] in fullscreen mode, and [drawArraysInstanced(TRIANGLES, 0, 6, n)] in
    instanced mode, with [n] the [numInstances] given to the constructor. *)
Theorem C8_one_draw_per_frame
    (options : ShaderUpOptions) (this : ShaderUp) (w : World) (time : number) :
  reachable options this w ->
  raf_pending w <> [] ->
  exists this' w' calls,
    step (animation_frame time) this w = (Ok this', w') /\
    frames_executed w' = S (frames_executed w) /\
    gl_calls w' = gl_calls w ++ calls /\
    (default fullscreen (opt_renderMode options) = fullscreen ->
     List.filter is_draw_call calls = [DrawArrays TRIANGLES 0 3]) /\
    (forall n,
       opt_renderMode options = Some instanced ->
       opt_numInstances options = Some n ->
       List.filter is_draw_call calls = [DrawArraysInstanced TRIANGLES 0 6 n]).
Proof.
  intros Hreach Hbusy.
  destruct (reachable_invariant _ _ _ Hreach) as (Hinv & Hmode & Hnum).
  pose proof Hinv as (Hpend & Hdead & Hlive).
  rewrite (frame_run _ _ _ Hinv).
  rewrite Hpend in Hbusy. unfold pending_of in Hbusy.
  destruct (animationFrameId this) as [id|] eqn:Hraf; [| contradiction].
  destruct (isDestroyed this) eqn:Hd; [specialize (Hdead eq_refl); discriminate |].
  destruct (Hlive eq_refl) as [p Hp]. rewrite Hp. cbv zeta.
  set (w1 := set_frames_executed (S (frames_executed w)) (set_raf_pending [] w)).
  exists (set_animationFrameId (Some (raf_next w)) this),
         (frame_requested w1 (frame_calls this time w1 p)),
         (frame_calls this time w1 p).
  split; [reflexivity |].
  split; [reflexivity |]. split; [reflexivity |].
  rewrite frame_calls_draw. unfold draw_call. split.
  - intros Hfull. rewrite Hmode, Hfull. reflexivity.
  - intros n Hinst Hn. rewrite Hmode, Hinst in *. cbn in *.
    specialize (Hnum eq_refl). congruence.
Qed.

(** The first [start] on a new instance requests a frame. *)
Lemma start_after_construction options w0 this0 w1 :
  raf_pending w0 = [] ->
  constructor options w0 = (Ok this0, w1) ->
  exists this w id, start this0 w1 = (Ok this, w) /\ raf_pending w = [id].
Proof.
  intros Hempty Hnew.
  apply constructor_constructed in Hnew as [(_ & Hpend & _) (_ & _ & _ & Hd & Hraf)].
  rewrite start_run, Hraf, Hd. eexists _, _, (raf_next w1).
  split; [reflexivity |]. cbn. rewrite Hpend, Hempty. reflexivity.
Qed.

Lemma C8_one_draw_per_frame_witness :
  exists this w this' w' calls,
    reachable demo_instanced this w /\
    step (animation_frame (num_of_Z 16)) this w = (Ok this', w') /\
    gl_calls w' = gl_calls w ++ calls /\
    List.filter is_draw_call calls = [DrawArraysInstanced TRIANGLES 0 6 (num_of_Z 3)].
Proof.
  destruct demo_instanced_constructs as (this0 & w0 & Hnew).
  assert (Hreach0 : reachable demo_instanced this0 w0).
  { apply (reachable_new _ demo_world); [reflexivity | exact Hnew]. }
  destruct (start_after_construction demo_instanced demo_world this0 w0 eq_refl Hnew)
    as (this & w & id & Hstart & Hpend).
  assert (Hreach : reachable demo_instanced this w).
  { apply (reachable_step _ call_start this0 w0); [exact Hreach0 | exact Hstart]. }
  assert (Hbusy : raf_pending w <> []) by (rewrite Hpend; discriminate).
  destruct (C8_one_draw_per_frame demo_instanced this w (num_of_Z 16) Hreach Hbusy)
    as (this' & w' & calls & Hstep & _ & Hcalls & _ & Hdraw).
  exists this, w, this', w', calls. split; [exact Hreach |].
  split; [exact Hstep |]. split; [exact Hcalls |].
  apply Hdraw; reflexivity.
Defined.

(** ** Writes to an unregistered uniform *)

Lemma differs_at_refl name this : differs_at name this this.
Proof. exists (uniforms this). split; [destruct this; reflexivity | reflexivity]. Qed.

Lemma oblivious_start : oblivious start.
Proof.
  intros bag this w. rewrite !start_run. cbn.
  destruct (animationFrameId this); [reflexivity |].
  destruct (isDestroyed this); reflexivity.
Qed.

Lemma oblivious_stop : oblivious stop.
Proof.
  intros bag this w. rewrite !stop_run. cbn.
  destruct (animationFrameId this); reflexivity.
Qed.

Lemma oblivious_dispose : oblivious dispose.
Proof. intros bag this w. rewrite !dispose_run. reflexivity. Qed.

Lemma oblivious_setData data : oblivious (fun this => setData this data).
Proof.
  intros bag this w. unfold setData. cbn.
  destruct (renderMode this); [reflexivity |].
  destruct (isDestroyed this); reflexivity.
Qed.

Lemma oblivious_setTexture name image :
  oblivious (fun this => setTexture this name image).
Proof.
  intros bag this w. unfold setTexture. cbn.
  destruct (isDestroyed this); [reflexivity |].
  destruct (jsmap_get name (uniformInfo this)) as [info|]; [| reflexivity].
  destruct (utype info); try reflexivity.
  destruct (textureUnit info) as [unit|]; [| reflexivity].
  destruct (jsmap_get unit (textures this)) as [[tex|]|]; reflexivity.
Qed.

Lemma oblivious_handleContextLost : oblivious handleContextLost.
Proof.
  intros bag this w. rewrite !handleContextLost_run. cbn.
  destruct (animationFrameId this); reflexivity.
Qed.

Lemma oblivious_handleContextRestored : oblivious handleContextRestored.
Proof. intros bag this w. reflexivity. Qed.

Lemma oblivious_dispatch ev handler :
  oblivious handler -> oblivious (fun this => dispatch this ev handler).
Proof.
  intros Hh bag this w. unfold dispatch. rewrite !bind_run. cbn.
  destruct (decide _); [apply Hh | reflexivity].
Qed.

Lemma oblivious_run_resize_observer observer :
  oblivious (fun this => run_resize_observer this observer).
Proof.
  intros bag this w. unfold run_resize_observer. rewrite !bind_run. cbn.
  destruct (observers w !! observer) as [ob|]; [| reflexivity].
  destruct (ob_targets ob); [reflexivity |].
  rewrite !bind_run.
  change (handleResize (set_uniforms bag this) (ob_onResize ob) w)
    with (handleResize this (ob_onResize ob) w).
  destruct (handleResize this (ob_onResize ob) w) as [[[]|e] w']; reflexivity.
Qed.

(** What is submitted for a registered name does not depend on the bag's
    value at another name. *)
Lemma upload_calls_agree name this this' reg :
  differs_at name this this' ->
  jsmap_get name reg = None ->
  flat_map (upload_calls this') reg = flat_map (upload_calls this) reg.
Proof.
  intros (bag & -> & Hbag). induction reg as [|[k info] rest IH]; cbn [flat_map];
    [reflexivity |].
  cbn [jsmap_get]. destruct (decide (k = name)) as [->|Hne]; [discriminate |].
  intros Hrest. rewrite (IH Hrest). f_equal.
  unfold upload_calls. cbn. rewrite (Hbag k Hne). reflexivity.
Qed.

Lemma frame_calls_agree name this this' time w p :
  differs_at name this this' ->
  jsmap_get name (uniformInfo this) = None ->
  frame_calls this' time w p = frame_calls this time w p.
Proof.
  intros Hdiff Hnone.
  pose proof (upload_calls_agree name this this' (uniformInfo this) Hdiff Hnone) as Hup.
  destruct Hdiff as (bag & -> & Hbag). unfold frame_calls, draw_call.
  cbn [timeLocation resolutionLocation canvas uniformInfo renderMode numInstances
       set_uniforms].
  rewrite Hup. reflexivity.
Qed.

Lemma differs_at_set_animationFrameId name this this' id :
  differs_at name this this' ->
  differs_at name (set_animationFrameId id this) (set_animationFrameId id this').
Proof. intros (bag & -> & Hbag). exists bag. split; [reflexivity | exact Hbag]. Qed.

Lemma render_inert name this this' time w :
  differs_at name this this' ->
  jsmap_get name (uniformInfo this) = None ->
  exists this1 this1' w1,
    render this time w = (Ok this1, w1) /\
    render this' time w = (Ok this1', w1) /\
    differs_at name this1 this1' /\ uniformInfo this1 = uniformInfo this.
Proof.
  intros Hdiff Hnone. pose proof Hdiff as (bag & Heq & Hbag).
  destruct (isDestroyed this) eqn:Hd.
  { exists this, this', w. rewrite !destroyed_render; [auto | | exact Hd].
    rewrite Heq. exact Hd. }
  destruct (program this) as [p|] eqn:Hp.
  - exists (set_animationFrameId (Some (raf_next w)) this),
           (set_animationFrameId (Some (raf_next w)) this'),
           (frame_requested w (frame_calls this time w p)).
    split; [apply render_run; assumption |].
    split; [| split; [apply differs_at_set_animationFrameId, Hdiff | reflexivity]].
    rewrite (render_run this' time w p); [| rewrite Heq; exact Hd | rewrite Heq; exact Hp].
    rewrite (frame_calls_agree name this this' time w p Hdiff Hnone). reflexivity.
  - exists this, this', w. unfold render. rewrite Heq. cbn. rewrite Hd, Hp.
    rewrite <- Heq. repeat split. exact Hdiff.
Qed.

Lemma frames_inert name time callbacks :
  forall this this' w,
    differs_at name this this' ->
    jsmap_get name (uniformInfo this) = None ->
    exists this1 this1' w1,
      for_each (fun this (_ : positive) =>
                  (modify (fun w => set_frames_executed (S (frames_executed w)) w);;
                   render this time)) callbacks this w = (Ok this1, w1) /\
      for_each (fun this (_ : positive) =>
                  (modify (fun w => set_frames_executed (S (frames_executed w)) w);;
                   render this time)) callbacks this' w = (Ok this1', w1) /\
      differs_at name this1 this1' /\ uniformInfo this1 = uniformInfo this.
Proof.
  induction callbacks as [|id rest IH]; intros this this' w Hdiff Hnone;
    cbn [for_each].
  - exists this, this', w. auto.
  - rewrite !bind_run. cbn [modify].
    match goal with |- context [render this time ?w0] =>
      destruct (render_inert name this this' time w0 Hdiff Hnone)
        as (thisA & thisA' & wA & HrA & HrA' & HdiffA & HregA) end.
    rewrite HrA, HrA'. rewrite <- HregA in Hnone.
    destruct (IH thisA thisA' wA HdiffA Hnone)
      as (this1 & this1' & w1 & Hr & Hr' & Hdiff1 & Hreg1).
    exists this1, this1', w1. repeat split; try assumption. congruence.
Qed.

(** A method that ignores the bag takes related receivers to related
    receivers and the same world. *)
Lemma oblivious_inert name f this this' w :
  oblivious f -> total (f this) ->
  (forall this1 w1, f this w = (Ok this1, w1) -> uniformInfo this1 = uniformInfo this) ->
  differs_at name this this' ->
  exists this1 this1' w1,
    f this w = (Ok this1, w1) /\ f this' w = (Ok this1', w1) /\
    differs_at name this1 this1' /\ uniformInfo this1 = uniformInfo this.
Proof.
  intros Hobl Htot Hreg (bag & -> & Hbag).
  destruct (Htot w) as (this1 & w1 & Hrun).
  exists this1, (set_uniforms bag this1), w1.
  split; [exact Hrun |]. split; [rewrite Hobl, Hrun; reflexivity |].
  split; [| apply (Hreg _ _ Hrun)].
  exists bag. split; [reflexivity |].
  intros k Hk. rewrite (Hbag k Hk).
  (* the method left the bag of [this] alone *)
  pose proof (Hobl (uniforms this) this w) as Hself.
  replace (set_uniforms (uniforms this) this) with this in Hself
    by (destruct this; reflexivity).
  rewrite Hrun in Hself. injection Hself as Hself.
  rewrite Hself. reflexivity.
Qed.

Lemma step_registry ev this w this1 w1 :
  (forall time, ev <> animation_frame time) ->
  step ev this w = (Ok this1, w1) ->
  uniformInfo this1 = uniformInfo this.
Proof.
  intros Hev Hstep. destruct (quiet_event ev) eqn:Hquiet.
  { destruct (quietly_Ok _ _ _ _ _ (quietly_quiet_event ev this Hquiet) Hstep)
      as [_ (_ & _ & Hreg)]. exact Hreg. }
  destruct ev; try discriminate Hquiet; cbn [step] in Hstep.
  - rewrite start_run in Hstep. destruct (animationFrameId this).
    + injection Hstep as <- _. reflexivity.
    + destruct (isDestroyed this); injection Hstep as <- _; reflexivity.
  - rewrite stop_run in Hstep.
    destruct (animationFrameId this); injection Hstep as <- _; reflexivity.
  - rewrite dispose_run in Hstep. injection Hstep as <- _. reflexivity.
  - exfalso. apply (Hev time). reflexivity.
  - unfold dispatch in Hstep. rewrite bind_run in Hstep. cbn [read_canvas] in Hstep.
    destruct (decide _); [| injection Hstep as <- _; reflexivity].
    rewrite handleContextLost_run in Hstep.
    destruct (animationFrameId this); injection Hstep as <- _; reflexivity.
Qed.

Lemma oblivious_step ev :
  (forall time, ev <> animation_frame time) ->
  (forall n v, ev <> write_uniform n v) ->
  oblivious (step ev).
Proof.
  intros Hframe Hwrite. destruct ev; cbn [step].
  - apply oblivious_start.
  - apply oblivious_stop.
  - apply oblivious_dispose.
  - apply oblivious_setData.
  - apply oblivious_setTexture.
  - exfalso. apply (Hwrite name value). reflexivity.
  - exfalso. apply (Hframe time). reflexivity.
  - apply oblivious_run_resize_observer.
  - intros bag this w'. reflexivity.
  - apply (oblivious_dispatch _ _ oblivious_handleContextLost).
  - apply (oblivious_dispatch _ _ oblivious_handleContextRestored).
Qed.

(** One event, with and without the writes to an unregistered [name]: the
    two runs stay in the same world and differ at most in the bag at [name]. *)
Lemma inert_step name ev this this' w :
  differs_at name this this' ->
  jsmap_get name (uniformInfo this) = None ->
  exists this1 this1' w1,
    step ev this w = (Ok this1, w1) /\
    (if writes_to name ev then this1' = this' /\ w1 = w
     else step ev this' w = (Ok this1', w1)) /\
    differs_at name this1 this1' /\ uniformInfo this1 = uniformInfo this.
Proof.
  intros Hdiff Hnone.
  destruct ev as [| | | data | nm image | n v | time | observer | lw lh | |] eqn:Hev;
    try (rewrite <- Hev; replace (writes_to name ev) with false by (subst ev; reflexivity);
         apply (oblivious_inert name (step ev) this this' w);
         [ apply oblivious_step; subst ev; discriminate
         | apply total_step_event
         | intros this1 w1; apply step_registry; subst ev; discriminate
         | exact Hdiff ]).
  - (* a write to the value-bag *)
    destruct Hdiff as (bag & -> & Hbag). cbn [step writes_to].
    destruct (bool_decide (n = name)) eqn:Hn.
    + apply bool_decide_eq_true in Hn as ->.
      eexists _, (set_uniforms bag this), w. split; [reflexivity |].
      split; [split; reflexivity |]. split; [| reflexivity].
      exists bag. split; [reflexivity |]. intros k Hk. cbn.
      rewrite lookup_insert_ne by congruence. apply Hbag, Hk.
    + apply bool_decide_eq_false in Hn.
      eexists _, _, w. split; [reflexivity |]. split; [reflexivity |].
      split; [| reflexivity].
      exists (<[n := v]> bag). split; [reflexivity |]. intros k Hk. cbn.
      destruct (decide (n = k)) as [->|Hne].
      * rewrite !lookup_insert_eq. reflexivity.
      * rewrite !lookup_insert_ne by exact Hne. apply Hbag, Hk.
  - (* a frame *)
    cbn [step writes_to]. rewrite !run_animation_frame_run.
    apply frames_inert; assumption.
Qed.

Lemma inert_run name evs :
  forall this this' w,
    differs_at name this this' ->
    jsmap_get name (uniformInfo this) = None ->
    exists this1 this1' w1,
      run evs this w = (Ok this1, w1) /\
      run (erase_writes name evs) this' w = (Ok this1', w1) /\
      differs_at name this1 this1' /\ uniformInfo this1 = uniformInfo this.
Proof.
  unfold run. induction evs as [|ev rest IH]; intros this this' w Hdiff Hnone.
  - exists this, this', w. cbn. auto.
  - destruct (inert_step name ev this this' w Hdiff Hnone)
      as (thisA & thisA' & wA & HA & HA' & HdiffA & HregA).
    rewrite <- HregA in Hnone.
    destruct (IH thisA thisA' wA HdiffA Hnone)
      as (this1 & this1' & w1 & H1 & H1' & Hdiff1 & Hreg1).
    exists this1, this1', w1. cbn [for_each erase_writes List.filter].
    rewrite bind_run, HA. split; [exact H1 |].
    split; [| split; [exact Hdiff1 | congruence]].
    destruct (writes_to name ev); cbn [negb].
    + destruct HA' as [-> ->]. exact H1'.
    + cbn [for_each]. rewrite bind_run, HA'. exact H1'.
Qed.

(** C9. A declared uniform name that the linked program does not resolve is
    warned about on the console (registration itself never throws), gets no
    registry entry and no seeded value;
    and from then on the caller's writes to that name change nothing but the
    bag entry itself: any history of calls, writes and host events leaves
    the same world (the same GL trace in particular) as that history without
    the writes to the name, and the registry never gains the name. *)
Theorem C9_unresolved_uniform_inert
    (options : ShaderUpOptions) (w0 : World) (this : ShaderUp) (w : World)
    (decls : list (string * UniformType)) (name : string) (p : Handle) :
  constructor options w0 = (Ok this, w) ->
  opt_uniforms options = Some decls ->
  name ∈ decls.*1 ->
  program this = Some p ->
  uniform_location (host w0) p name = None ->
  In (unresolved_uniform_warning name) (console w) /\
  (forall acc wa, exists acc' wa',
     for_each (register_uniform p) decls acc wa = (Ok acc', wa')) /\
  jsmap_get name (uniformInfo this) = None /\
  uniforms this !! name = None /\
  forall evs,
    exists this1 this2 w1,
      run evs this w = (Ok this1, w1) /\
      run (erase_writes name evs) this w = (Ok this2, w1) /\
      jsmap_get name (uniformInfo this1) = None /\
      differs_at name this1 this2.
Proof.
  intros Hnew Hdecls Hin Hp Hloc.
  destruct (constructor_uniforms _ _ _ _ Hnew) as (p' & Hp' & _ & Hun & _).
  assert (p' = p) as -> by congruence.
  destruct (Hun name Hloc) as (Hreg & Hbag & Hwarn).
  split; [apply (Hwarn decls Hdecls Hin) |].
  split.
  { intros [thisa n] wa.
    destruct (register_uniforms_run p decls thisa n wa) as (t & m & wa' & Hloop & _).
    exists (t, m), wa'. exact Hloop. }
  split; [exact Hreg |]. split; [exact Hbag |].
  intros evs.
  destruct (inert_run name evs this this w (differs_at_refl name this) Hreg)
    as (this1 & this2 & w1 & Hrun & Herased & Hdiff & Hsame).
  exists this1, this2, w1. split; [exact Hrun |]. split; [exact Herased |].
  split; [rewrite Hsame; exact Hreg | exact Hdiff].
Qed.

Lemma C9_unresolved_uniform_inert_witness :
  exists this w,
    constructor demo_fullscreen demo_world = (Ok this, w) /\
    In (unresolved_uniform_warning "u_gone") (console w) /\
    jsmap_get "u_gone" (uniformInfo this) = None /\
    uniforms this !! "u_gone" = None.
Proof.
  destruct demo_fullscreen_constructs as (this & w & Hnew).
  exists this, w. split; [exact Hnew |].
  assert (Hp : program this = Some 2%nat).
  { change (built_program (Ok this, w) = Some 2%nat). rewrite <- Hnew.
    vm_compute. reflexivity. }
  assert (Hin : "u_gone" ∈ (opt_uniforms_list demo_fullscreen).*1)
    by (clear; cbn; set_solver).
  assert (Hloc : uniform_location (host demo_world) 2%nat "u_gone" = None)
    by (vm_compute; reflexivity).
  destruct (C9_unresolved_uniform_inert demo_fullscreen demo_world this w
              (opt_uniforms_list demo_fullscreen) "u_gone" 2%nat
              Hnew eq_refl Hin Hp Hloc) as (Hwarn & _ & Hreg & Hbag & _).
  split; [exact Hwarn |]. split; [exact Hreg | exact Hbag].
Defined.

(** * Further properties of the class *)

(** ** Starting and stopping *)

(** X1. [start] and [stop] are idempotent in every state: a second call in
    a row returns normally and changes nothing. [stop] keeps the program,
    the instance buffer and the textures, and issues no GL call. *)
Theorem X1_start_stop_idempotent (this : ShaderUp) (w : World) :
  (exists this1 w1,
     start this w = (Ok this1, w1) /\ start this1 w1 = (Ok this1, w1)) /\
  (exists this1 w1,
     stop this w = (Ok this1, w1) /\ stop this1 w1 = (Ok this1, w1) /\
     program this1 = program this /\ instanceBuffer this1 = instanceBuffer this /\
     textures this1 = textures this /\ gl_calls w1 = gl_calls w).
Proof.
  split.
  - rewrite start_run. destruct (animationFrameId this) eqn:Hraf.
    + exists this, w. split; [reflexivity |]. rewrite start_run, Hraf. reflexivity.
    + destruct (isDestroyed this) eqn:Hd.
      * exists this, w. split; [reflexivity |]. rewrite start_run, Hraf, Hd. reflexivity.
      * eexists _, _. split; [reflexivity |]. rewrite start_run. reflexivity.
  - rewrite stop_run. destruct (animationFrameId this) eqn:Hraf.
    + eexists _, _. split; [reflexivity |]. rewrite stop_run. cbn. repeat split.
    + exists this, w. split; [reflexivity |]. rewrite stop_run, Hraf. repeat split.
Qed.

(** X2. On an idle, live instance in a reachable state, [start] followed at
    once by [stop] cancels exactly the frame it requested: the instance is as
    it was, no frame is pending, no frame ran and no GL call was issued. *)
Theorem X2_start_then_stop
    (options : ShaderUpOptions) (this : ShaderUp) (w : World) :
  reachable options this w ->
  animationFrameId this = None ->
  isDestroyed this = false ->
  exists this1 w1 w2,
    start this w = (Ok this1, w1) /\
    stop this1 w1 = (Ok this, w2) /\
    raf_pending w2 = [] /\
    frames_executed w2 = frames_executed w /\
    gl_calls w2 = gl_calls w.
Proof.
  intros Hreach Hraf Hd.
  destruct (reachable_invariant _ _ _ Hreach) as ((Hpend & _) & _).
  unfold pending_of in Hpend. rewrite Hraf in Hpend.
  eexists _, _, _. rewrite start_run, Hraf, Hd. split; [reflexivity |].
  rewrite stop_run. cbn. split.
  - f_equal. f_equal. destruct this; cbn in *. subst. reflexivity.
  - cbn. rewrite Hpend. cbn.
    destruct (decide (raf_next w ≠ raf_next w)); [contradiction |]. repeat split.
Qed.

Lemma X2_start_then_stop_witness :
  exists this w this1 w1 w2,
    reachable demo_fullscreen this w /\
    start this w = (Ok this1, w1) /\ stop this1 w1 = (Ok this, w2) /\
    raf_pending w2 = [].
Proof.
  destruct demo_fullscreen_constructs as (this & w & Hnew).
  assert (Hreach : reachable demo_fullscreen this w).
  { apply (reachable_new _ demo_world); [reflexivity | exact Hnew]. }
  destruct (constructor_constructed _ _ _ _ Hnew) as [_ (_ & _ & _ & Hd & Hraf)].
  destruct (X2_start_then_stop demo_fullscreen this w Hreach Hraf Hd)
    as (this1 & w1 & w2 & Hstart & Hstop & Hpend & _).
  exists this, w, this1, w1, w2. repeat split; assumption.
Defined.

(** ** Resize passes *)

Lemma handleResize_run this callback w :
  handleResize this callback w =
  let cv := default blank_canvas (canvases w !! canvas this) in
  if negb (width cv =? clientWidth cv)%N || negb (height cv =? clientHeight cv)%N
  then (Ok tt, resized this callback w)
  else (Ok tt, w).
Proof.
  unfold handleResize, resized, drawingBufferSize, update_canvas. run_monad.
  destruct (_ || _); [| reflexivity].
  rewrite lookup_insert_eq. cbn.
  destruct (drawing_buffer _ _ _) as [bw bh].
  destruct callback; reflexivity.
Qed.

Lemma resized_canvas this callback w :
  canvases (resized this callback w) !! canvas this =
  Some (set_size
          (clientWidth (default blank_canvas (canvases w !! canvas this)))
          (clientHeight (default blank_canvas (canvases w !! canvas this)))
          (default blank_canvas (canvases w !! canvas this))).
Proof.
  unfold resized. cbv zeta. destruct (drawing_buffer _ _ _) as [bw bh].
  destruct callback; cbn; apply lookup_insert_eq.
Qed.

(** X3. A resize pass is idempotent: run again on the world it left, it
    changes nothing, so the resize callback is not called a second time for
    the same size. *)
Theorem X3_resize_pass_idempotent
    (this : ShaderUp) (callback : option Callback) (w : World) :
  exists w1,
    handleResize this callback w = (Ok tt, w1) /\
    handleResize this callback w1 = (Ok tt, w1).
Proof.
  rewrite handleResize_run. cbv zeta.
  destruct (_ || _) eqn:Hdiff.
  - exists (resized this callback w). split; [reflexivity |].
    rewrite handleResize_run, resized_canvas. cbn. rewrite !N.eqb_refl. reflexivity.
  - exists w. split; [reflexivity |]. rewrite handleResize_run. cbv zeta.
    rewrite Hdiff. reflexivity.
Qed.

(** ** Attribute offsets *)

Lemma bind_attributes_offset p stride pre name opts post :
  forall offset w,
    attrib_location (host w) p name <> -1 ->
    exists offset' w',
      for_each (bind_attribute p stride) (pre ++ (name, opts) :: post) offset w
        = (Ok offset', w') /\
      VertexAttribPointer (attrib_location (host w) p name) (size opts) FLOAT false
        stride (offset + resolved_bytes (host w) p pre) ∈ gl_calls w'.
Proof.
  induction pre as [|[name0 opts0] pre IH]; intros offset w Hres;
    cbn [app for_each]; rewrite bind_run, bind_attribute_run; cbv zeta.
  - apply Z.eqb_neq in Hres. rewrite Hres.
    match goal with |- context [for_each _ post ?o ?w1] =>
      destruct (bind_attributes_stride p stride post o w1)
        as (offset' & w' & calls & Hrun & Hcalls & _) end.
    exists offset', w'. split; [exact Hrun |].
    rewrite Hcalls. cbn. rewrite Z.add_0_r.
    apply elem_of_app. left. apply elem_of_app. right.
    apply elem_of_cons. right. apply elem_of_cons. now left.
  - destruct (attrib_location (host w) p name0 =? -1) eqn:Hloc0.
    + match goal with |- context [for_each _ _ ?o ?w1] =>
        destruct (IH o w1 Hres) as (offset' & w' & Hrun & Hin) end.
      exists offset', w'. split; [exact Hrun |].
      cbn [resolved_bytes foldr fst snd host set_console] in *.
      rewrite Hloc0. exact Hin.
    + match goal with |- context [for_each _ _ ?o ?w1] =>
        destruct (IH o w1 Hres) as (offset' & w' & Hrun & Hin) end.
      exists offset', w'. split; [exact Hrun |].
      cbn [resolved_bytes foldr fst snd host set_gl_calls] in *.
      rewrite Hloc0. rewrite Z.add_assoc. exact Hin.
Qed.

Lemma resolved_bytes_all hst p attrs :
  (forall e, e ∈ attrs -> attrib_location hst p e.1 <> -1) ->
  resolved_bytes hst p attrs = declared_bytes attrs.
Proof.
  induction attrs as [|e rest IH]; intros Hall; cbn; [reflexivity |].
  assert (He : attrib_location hst p e.1 <> -1) by (apply Hall, elem_of_cons; now left).
  apply Z.eqb_neq in He. rewrite He.
  fold (resolved_bytes hst p rest). fold (declared_bytes rest).
  rewrite IH; [reflexivity |]. intros e' He'. apply Hall, elem_of_cons. now right.
Qed.

Lemma resolved_bytes_bounds hst p attrs :
  (forall e, e ∈ attrs -> 0 <= size e.2) ->
  0 <= resolved_bytes hst p attrs <= declared_bytes attrs.
Proof.
  induction attrs as [|e rest IH]; intros Hpos; cbn; [lia |].
  fold (resolved_bytes hst p rest). fold (declared_bytes rest).
  assert (He : 0 <= size e.2) by (apply Hpos, elem_of_cons; now left).
  assert (Hrest : 0 <= resolved_bytes hst p rest <= declared_bytes rest).
  { apply IH. intros e' He'. apply Hpos, elem_of_cons. now right. }
  destruct (_ =? -1); lia.
Qed.

Lemma declared_bytes_app l1 l2 :
  declared_bytes (l1 ++ l2) = declared_bytes l1 + declared_bytes l2.
Proof.
  induction l1 as [|e rest IH]; cbn; [reflexivity |].
  fold (declared_bytes (rest ++ l2)). fold (declared_bytes rest). rewrite IH. lia.
Qed.

(** X4. Instanced setup binds every attribute that resolves at the byte
    offset equal to the bytes of the attributes declared before it that
    resolved too, with the stride of the whole declaration. When all the
    earlier ones resolve this is the declared running sum, and with
    non-negative sizes the attribute always fits inside one stride. *)
Theorem X4_attribute_offset
    (this : ShaderUp) (p : Handle) (w : World)
    (pre post : list (string * AttributeOptions))
    (name : string) (opts : AttributeOptions) :
  program this = Some p ->
  attributeOptions this = Some (pre ++ (name, opts) :: post) ->
  attrib_location (host w) p name <> -1 ->
  exists this' w',
    initInstancedResources this w = (Ok this', w') /\
    VertexAttribPointer (attrib_location (host w) p name) (size opts) FLOAT false
      (declared_bytes (pre ++ (name, opts) :: post))
      (resolved_bytes (host w) p pre) ∈ gl_calls w' /\
    ((forall e, e ∈ pre -> attrib_location (host w) p e.1 <> -1) ->
     resolved_bytes (host w) p pre = declared_bytes pre) /\
    ((forall e, e ∈ pre ++ (name, opts) :: post -> 0 <= size e.2) ->
     0 <= resolved_bytes (host w) p pre /\
     resolved_bytes (host w) p pre + size opts * 4
       <= declared_bytes (pre ++ (name, opts) :: post)).
Proof.
  intros Hp Hattrs Hres.
  unfold initInstancedResources. rewrite Hp, Hattrs. run_monad.
  match goal with |- context [for_each _ _ ?o ?w1] =>
    destruct (bind_attributes_offset p
                (compute_stride (pre ++ (name, opts) :: post)) pre name opts post o w1 Hres)
      as (offset' & w' & Hrun & Hin) end.
  rewrite Hrun. eexists _, w'. split; [reflexivity |].
  cbn [host set_gl_calls set_next_handle] in Hin.
  rewrite compute_stride_declared, Z.add_0_l in Hin.
  split; [exact Hin |]. split; [apply resolved_bytes_all |].
  intros Hpos. rewrite declared_bytes_app. cbn [declared_bytes foldr snd].
  fold (declared_bytes post).
  assert (H1 : 0 <= resolved_bytes (host w) p pre <= declared_bytes pre).
  { apply resolved_bytes_bounds. intros e He. apply Hpos, elem_of_app. now left. }
  assert (H2 : 0 <= resolved_bytes (host w) p post <= declared_bytes post).
  { apply resolved_bytes_bounds. intros e He. apply Hpos, elem_of_app. right.
    apply elem_of_cons. now right. }
  lia.
Qed.

Lemma X4_attribute_offset_witness :
  exists this' w',
    initInstancedResources demo_this demo_world = (Ok this', w') /\
    VertexAttribPointer 2 1 FLOAT false 32 16 ∈ gl_calls w'.
Proof.
  destruct (X4_attribute_offset demo_this 2%nat demo_world
              [("a_instanceRect", {| size := 4; type := None; attr_instanced := Some true |});
               ("a_unused", {| size := 3; type := None; attr_instanced := Some true |})]
              []
              "a_hoverState" {| size := 1; type := None; attr_instanced := Some true |}
              eq_refl eq_refl) as (this' & w' & Hrun & Hin & _).
  - vm_compute. discriminate.
  - exists this', w'. split; [exact Hrun | exact Hin].
Defined.

(** ** Textures *)

Lemma setTexture_run this name image w :
  setTexture this name image w =
  let warn := (Ok this, set_console (console w ++ [not_sampler_warning name]) w) in
  if isDestroyed this then (Ok this, w)
  else
    match jsmap_get name (uniformInfo this) with
    | Some info =>
        match utype info, textureUnit info with
        | sampler2D, Some unit =>
            match jsmap_get unit (textures this) with
            | Some (Some tex) =>
                (Ok this,
                 set_gl_calls (gl_calls w ++ texture_upload unit (Some tex) image) w)
            | _ =>
                let h := next_handle w in
                let r := if create_succeeds (host w) h then Some h else None in
                (Ok (set_textures (jsmap_set unit r (textures this)) this),
                 set_gl_calls
                   (gl_calls w ++ CreateTexture r :: texture_upload unit r image)
                   (set_next_handle (S h) w))
            end
        | _, _ => warn
        end
    | None => warn
    end.
Proof.
  unfold setTexture, texture_upload, not_sampler_warning. cbv zeta.
  destruct (isDestroyed this); [reflexivity |].
  destruct (jsmap_get name (uniformInfo this)) as [info|]; [| reflexivity].
  destruct (utype info); try reflexivity.
  destruct (textureUnit info) as [unit|]; [| reflexivity].
  destruct (jsmap_get unit (textures this)) as [[tex|]|]; run_monad;
    rewrite <- ?app_assoc; reflexivity.
Qed.



(** ** The registry after construction *)

Lemma constructor_registration options w0 this w :
  constructor options w0 = (Ok this, w) ->
  exists p this1 w1 this2 n w2,
    program this = Some p /\
    uniforms this1 = ∅ /\ uniformInfo this1 = [] /\ host w1 = host w0 /\
    for_each (register_uniform p) (opt_uniforms_list options) (this1, 0%nat) w1
      = (Ok (this2, n), w2) /\
    uniformInfo this = uniformInfo this2 /\ uniforms this = uniforms this2 /\
    isDestroyed this = false.
Proof.
  intros Hnew. pose proof (constructor_constructed _ _ _ _ Hnew) as [_ (_ & _ & _ & Hd & _)].
  revert Hnew. unfold constructor. intros H.
  inv_step H as fields wa Hfields. destruct fields as [n attrs].
  inv_step H as cv wb Hcv.
  inv_step H as ctx wc Hctx.
  inv_step H as u1 wd Hl1.
  inv_step H as u2 we Hl2.
  inv_step H as this1 wg Hinit.
  inv_step H as obs wh Hobs.
  inv_step H as u3 wi Hobserve.
  injection H as <- <-.
  assert (Hq0 : quiet w0 we).
  { apply (quietly_world _ _ _ _ _ (quietly_validate_options _ _)) in Hfields.
    apply (quietly_world _ _ _ _ _ (quietly_resolve_canvas _)) in Hcv.
    apply (quietly_world _ _ _ _ _ (quietly_initialize_context _ _)) in Hctx.
    apply (quietly_world _ _ _ _ _ (quietly_addEventListener _ _)) in Hl1.
    apply (quietly_world _ _ _ _ _ (quietly_addEventListener _ _)) in Hl2.
    repeat (eapply quiet_trans; [eassumption |]). apply quiet_refl. }
  apply initResources_registry in Hinit
    as (p & thisR & w1 & w2 & Hp & Hu & Hi & Hq1 & Hloop & _ & _).
  cbn in Hu, Hi.
  assert (Hhost : host w1 = host w0).
  { destruct Hq0 as [Hh0 _], Hq1 as [Hh1 _]. congruence. }
  unfold opt_uniforms_list. destruct (opt_uniforms options) as [decls|]; cbn [default].
  - destruct Hloop as [k Hloop].
    exists p, thisR, w1, this1, k, w2. repeat split; assumption.
  - destruct Hloop as [-> ->].
    exists p, thisR, w1, thisR, 0%nat, w1. repeat split; assumption.
Qed.

Lemma jsmap_set_fresh {K V} `{EqDecision K} (k : K) (v : V) (m : JSMap K V) :
  jsmap_get k m = None -> jsmap_set k v m = m ++ [(k, v)].
Proof.
  induction m as [|[k0 v0] rest IH]; cbn; [reflexivity |].
  destruct (decide (k0 = k)); [discriminate |]. intros Hrest. rewrite IH by exact Hrest.
  reflexivity.
Qed.

Lemma jsmap_get_elem_of {K V} `{EqDecision K} (k : K) (v : V) (m : JSMap K V) :
  jsmap_get k m = Some v -> (k, v) ∈ m.
Proof.
  induction m as [|[k0 v0] rest IH]; cbn; [discriminate |].
  destruct (decide (k0 = k)) as [->|Hne].
  - intros [= ->]. apply elem_of_cons. now left.
  - intros Hrest. apply elem_of_cons. right. apply IH, Hrest.
Qed.

(** Every entry the loop adds comes from a declaration, with its type, and
    has a texture unit exactly when that type is the sampler type. *)
Lemma register_uniforms_declared p decls :
  forall this n w this' n' w',
    for_each (register_uniform p) decls (this, n) w = (Ok (this', n'), w') ->
    forall name info,
      jsmap_get name (uniformInfo this') = Some info ->
      jsmap_get name (uniformInfo this) = Some info \/
      ((name, utype info) ∈ decls /\
       (is_Some (textureUnit info) <-> utype info = sampler2D)).
Proof.
  induction decls as [|[name0 ty0] rest IH]; intros this n w this' n' w';
    cbn [for_each].
  - intros [= <- <- <-] name info Hget. now left.
  - rewrite bind_run, register_uniform_run.
    destruct (uniform_location (host w) p name0) as [loc|].
    + intros Hrun name info Hget.
      destruct (IH _ _ _ _ _ _ Hrun name info Hget) as [Hold | [Hin Hunit]].
      * cbn in Hold. rewrite jsmap_get_set in Hold.
        destruct (decide (name0 = name)) as [->|Hne]; [| now left].
        injection Hold as <-. right. cbn. split; [apply elem_of_cons; now left |].
        destruct ty0; cbn; split; intros H; try discriminate H; try reflexivity;
          try (eexists; reflexivity); destruct H as [x Hx]; discriminate Hx.
      * right. split; [apply elem_of_cons; now right | exact Hunit].
    + intros Hrun name info Hget.
      destruct (IH _ _ _ _ _ _ Hrun name info Hget) as [Hold | [Hin Hunit]].
      * now left.
      * right. split; [apply elem_of_cons; now right | exact Hunit].
Qed.

(** With distinct names, the loop hands out the units [n], [n+1], ... in
    declaration order. *)
Lemma register_uniforms_units p decls :
  forall this n w this' n' w',
    NoDup decls.*1 ->
    (forall k, k ∈ decls.*1 -> jsmap_get k (uniformInfo this) = None) ->
    for_each (register_uniform p) decls (this, n) w = (Ok (this', n'), w') ->
    (n <= n')%nat /\
    registry_units (uniformInfo this') =
      registry_units (uniformInfo this) ++ seq n (n' - n).
Proof.
  induction decls as [|[name0 ty0] rest IH]; intros this n w this' n' w' Hnodup Hfresh;
    cbn [for_each].
  - intros [= <- <- <-]. split; [lia |].
    rewrite Nat.sub_diag. cbn. rewrite app_nil_r. reflexivity.
  - cbn in Hnodup. apply NoDup_cons in Hnodup as [Hnotin Hnodup].
    rewrite bind_run, register_uniform_run.
    assert (Hfresh' : forall k, k ∈ rest.*1 -> jsmap_get k (uniformInfo this) = None).
    { intros k Hk. apply Hfresh. cbn. apply elem_of_cons. now right. }
    destruct (uniform_location (host w) p name0) as [loc|].
    + intros Hrun.
      assert (Hname0 : jsmap_get name0 (uniformInfo this) = None).
      { apply Hfresh. cbn. apply elem_of_cons. now left. }
      apply IH in Hrun as [Hle Hunits]; [| exact Hnodup |].
      * cbn [uniformInfo set_uniforms set_uniformInfo] in Hunits.
        rewrite (jsmap_set_fresh _ _ _ Hname0) in Hunits.
        unfold registry_units in *. rewrite omap_app in Hunits. cbn in Hunits.
        destruct ty0; cbn in Hunits, Hle;
          try (rewrite app_nil_r in Hunits; split; [exact Hle | exact Hunits]).
        split; [lia |]. rewrite Hunits, <- app_assoc. f_equal.
        replace (n' - n)%nat with (S (n' - S n)) by lia. reflexivity.
      * intros k Hk. cbn [uniformInfo set_uniforms set_uniformInfo].
        rewrite jsmap_get_set. destruct (decide (name0 = k)) as [->|Hne];
          [contradiction | apply Hfresh', Hk].
    + intros Hrun. apply IH in Hrun; [exact Hrun | exact Hnodup | exact Hfresh'].
Qed.

Lemma omap_injective_on {A B} (f : A -> option B) (l : list A) x y b :
  NoDup (omap f l) -> x ∈ l -> y ∈ l -> f x = Some b -> f y = Some b -> x = y.
Proof.
  induction l as [|a rest IH]; intros Hnd Hx Hy Hfx Hfy.
  - apply elem_of_nil in Hx as [].
  - cbn in Hnd. apply elem_of_cons in Hx as [-> | Hx], Hy as [-> | Hy].
    + reflexivity.
    + rewrite Hfx in Hnd. apply NoDup_cons in Hnd as [Hnot _].
      exfalso. apply Hnot. apply list_elem_of_omap. exists y. split; assumption.
    + rewrite Hfy in Hnd. apply NoDup_cons in Hnd as [Hnot _].
      exfalso. apply Hnot. apply list_elem_of_omap. exists x. split; assumption.
    + destruct (f a); [apply NoDup_cons in Hnd as [_ Hnd] |]; apply IH; assumption.
Qed.

(** X6. After construction with distinctly named uniforms, the texture
    units of the registry are 0, 1, 2, ... in registry order; an entry has a
    unit exactly when its type is sampler2D; and two different sampler names
    never share a unit. *)
Theorem X6_texture_units_consecutive
    (options : ShaderUpOptions) (w0 : World) (this : ShaderUp) (w : World) :
  constructor options w0 = (Ok this, w) ->
  NoDup (opt_uniforms_list options).*1 ->
  registry_units (uniformInfo this) = seq 0 (length (registry_units (uniformInfo this))) /\
  (forall name info, jsmap_get name (uniformInfo this) = Some info ->
     (is_Some (textureUnit info) <-> utype info = sampler2D)) /\
  (forall name1 name2 info1 info2 unit,
     jsmap_get name1 (uniformInfo this) = Some info1 ->
     jsmap_get name2 (uniformInfo this) = Some info2 ->
     textureUnit info1 = Some unit -> textureUnit info2 = Some unit ->
     name1 = name2).
Proof.
  intros Hnew Hnodup.
  destruct (constructor_registration _ _ _ _ Hnew)
    as (p & this1 & w1 & this2 & n & w2 & _ & _ & Hreg1 & _ & Hloop & Hreg & _).
  rewrite Hreg.
  destruct (register_uniforms_units p _ _ _ _ _ _ _ Hnodup
              ltac:(intros k _; rewrite Hreg1; reflexivity) Hloop) as [_ Hunits].
  rewrite Hreg1 in Hunits. cbn in Hunits. rewrite Nat.sub_0_r in Hunits.
  assert (Hseq : registry_units (uniformInfo this2)
                 = seq 0 (length (registry_units (uniformInfo this2)))).
  { rewrite Hunits at 2. rewrite length_seq. exact Hunits. }
  split; [exact Hseq |]. split.
  - intros name info Hget.
    destruct (register_uniforms_declared p _ _ _ _ _ _ _ Hloop name info Hget)
      as [Hold | [_ Hiff]]; [| exact Hiff].
    rewrite Hreg1 in Hold. discriminate Hold.
  - intros name1 name2 info1 info2 unit Hg1 Hg2 Hu1 Hu2.
    apply jsmap_get_elem_of in Hg1, Hg2.
    assert (Heq : (name1, info1) = (name2, info2)).
    { apply (omap_injective_on (fun e => textureUnit e.2) (uniformInfo this2) _ _ unit);
        try assumption.
      fold (registry_units (uniformInfo this2)). rewrite Hseq. apply NoDup_seq. }
    congruence.
Qed.

Lemma demo_fullscreen_names_distinct : NoDup (opt_uniforms_list demo_fullscreen).*1.
Proof. cbn. repeat (apply NoDup_cons; split; [set_solver |]). apply NoDup_nil_2. Qed.

Lemma X6_texture_units_consecutive_witness :
  exists this w,
    constructor demo_fullscreen demo_world = (Ok this, w) /\
    registry_units (uniformInfo this) = seq 0 (length (registry_units (uniformInfo this))).
Proof.
  destruct demo_fullscreen_constructs as (this & w & Hnew).
  exists this, w. split; [exact Hnew |].
  destruct (X6_texture_units_consecutive demo_fullscreen demo_world this w Hnew
              demo_fullscreen_names_distinct) as [Hunits _].
  exact Hunits.
Defined.

(** ** What the events leave alone *)

Lemma render_keeps this time w this1 w1 :
  render this time w = (Ok this1, w1) ->
  uniforms this1 = uniforms this /\ uniformInfo this1 = uniformInfo this /\
  isDestroyed this1 = isDestroyed this /\ textures this1 = textures this.
Proof.
  destruct (isDestroyed this) eqn:Hd.
  { rewrite (destroyed_render _ _ _ Hd). intros [= <- _]. auto. }
  destruct (program this) as [p|] eqn:Hp.
  - rewrite (render_run _ _ _ p Hd Hp). intros [= <- _]. cbn. auto.
  - unfold render. rewrite Hd, Hp. intros [= <- _]. auto.
Qed.

Lemma frames_keep time callbacks :
  forall this w this1 w1,
    for_each (fun this (_ : positive) =>
                (modify (fun w => set_frames_executed (S (frames_executed w)) w);;
                 render this time)) callbacks this w = (Ok this1, w1) ->
    uniforms this1 = uniforms this /\ uniformInfo this1 = uniformInfo this /\
    isDestroyed this1 = isDestroyed this /\ textures this1 = textures this.
Proof.
  induction callbacks as [|id rest IH]; intros this w this1 w1; cbn [for_each].
  - intros [= <- _]. auto.
  - intros H. inv_step H as thisA wA HA. rewrite bind_run in HA. cbn [modify] in HA.
    apply render_keeps in HA as (Hu & Hr & Hd & Ht).
    apply IH in H as (Hu' & Hr' & Hd' & Ht'). repeat split; congruence.
Qed.

(** No event but a write to the bag changes the bag, and no event at all
    changes the registry. *)
Lemma step_keeps ev this w this1 w1 :
  step ev this w = (Ok this1, w1) ->
  uniformInfo this1 = uniformInfo this /\
  ((forall n v, ev <> write_uniform n v) -> uniforms this1 = uniforms this).
Proof.
  intros Hstep.
  destruct ev as [| | | data | nm image | n v | time | observer | lw lh | |] eqn:Hev;
    try (rewrite <- Hev in Hstep;
         assert (Hframe : forall time, ev <> animation_frame time)
           by (subst ev; discriminate);
         assert (Hwrite : forall n v, ev <> write_uniform n v)
           by (subst ev; discriminate);
         split; [apply (step_registry _ _ _ _ _ Hframe Hstep) | intros _];
         pose proof (oblivious_step ev Hframe Hwrite (uniforms this) this w) as Hself;
         replace (set_uniforms (uniforms this) this) with this in Hself
           by (destruct this; reflexivity);
         rewrite Hstep in Hself; injection Hself as Hself;
         rewrite Hself; reflexivity).
  - cbn [step] in Hstep. injection Hstep as <- _. split; [reflexivity |].
    intros Hw. exfalso. apply (Hw n v). reflexivity.
  - cbn [step] in Hstep. rewrite run_animation_frame_run in Hstep.
    apply frames_keep in Hstep as (Hu & Hr & _). split; [exact Hr | intros _; exact Hu].
Qed.



Lemma run_registry evs this w this1 w1 :
  run evs this w = (Ok this1, w1) -> uniformInfo this1 = uniformInfo this.
Proof.
  unfold run. revert this w. induction evs as [|ev rest IH]; intros this w;
    cbn [for_each].
  - intros [= <- _]. reflexivity.
  - intros H. inv_step H as thisA wA HA. apply step_keeps in HA as [Hr _].
    apply IH in H. congruence.
Qed.

(** X7. On a constructed instance that is still live, whatever happened
    since, [setTexture] for a name that is not declared with type sampler2D
    (an undeclared name included) only appends its warning to the console:
    no GL call, no texture, no exception. *)
Theorem X7_setTexture_unknown_name_warns
    (options : ShaderUpOptions) (w0 : World) (this0 : ShaderUp) (w1 : World)
    (evs : list Event) (this : ShaderUp) (w : World)
    (name : string) (image : TexImageSource) :
  constructor options w0 = (Ok this0, w1) ->
  (forall ty, (name, ty) ∈ opt_uniforms_list options -> ty <> sampler2D) ->
  run evs this0 w1 = (Ok this, w) ->
  isDestroyed this = false ->
  setTexture this name image w
    = (Ok this, set_console (console w ++ [not_sampler_warning name]) w).
Proof.
  intros Hnew Hdecl Hrun Hd.
  destruct (constructor_registration _ _ _ _ Hnew)
    as (p & this1 & wa & this2 & n & wb & _ & _ & Hreg1 & _ & Hloop & Hreg & _).
  rewrite setTexture_run, Hd, (run_registry _ _ _ _ _ Hrun), Hreg. cbv zeta.
  destruct (jsmap_get name (uniformInfo this2)) as [info|] eqn:Hget; [| reflexivity].
  destruct (register_uniforms_declared p _ _ _ _ _ _ _ Hloop name info Hget)
    as [Hold | [Hin _]].
  - rewrite Hreg1 in Hold. discriminate Hold.
  - specialize (Hdecl _ Hin). destruct (utype info); try reflexivity. contradiction.
Qed.

Lemma X7_setTexture_unknown_name_warns_witness :
  exists this w,
    constructor demo_fullscreen demo_world = (Ok this, w) /\
    setTexture this "u_color" 10%nat w
      = (Ok this, set_console (console w ++ [not_sampler_warning "u_color"]) w).
Proof.
  destruct demo_fullscreen_constructs as (this & w & Hnew).
  exists this, w. split; [exact Hnew |].
  apply (X7_setTexture_unknown_name_warns demo_fullscreen demo_world this w [] this w
           "u_color" 10%nat Hnew).
  - intros ty Hin. clear -Hin. cbn in Hin. set_solver.
  - reflexivity.
  - apply (constructor_constructed _ _ _ _ Hnew).
Defined.



(** ** Listeners on the canvas *)

Lemma keeps_listeners_ret {A} (a : A) : keeps_listeners (mret a).
Proof. intros c L w H. exact H. Qed.

Lemma keeps_listeners_throw {A} e : keeps_listeners (@throw A e).
Proof. intros c L w H. exact H. Qed.

Lemma keeps_listeners_bind {A B} (m : M A) (k : A -> M B) :
  keeps_listeners m -> (forall a, keeps_listeners (k a)) -> keeps_listeners (m ≫= k).
Proof.
  intros Hm Hk c L w H. rewrite bind_run. specialize (Hm c L w H).
  destruct (m w) as [[a|e] w1]; cbn in Hm; [apply Hk, Hm | exact Hm].
Qed.

Lemma keeps_listeners_for_each {A S} (body : S -> A -> M S) xs :
  (forall acc x, keeps_listeners (body acc x)) ->
  forall acc, keeps_listeners (for_each body xs acc).
Proof.
  intros Hbody. induction xs as [|x rest IH]; intros acc; cbn [for_each].
  - apply keeps_listeners_ret.
  - apply keeps_listeners_bind; [apply Hbody | exact IH].
Qed.

Lemma keeps_listeners_update_canvas c' f :
  (forall cv, listeners cv ⊆ listeners (f cv)) ->
  keeps_listeners (update_canvas c' f).
Proof.
  intros Hf c L w (cv & Hcv & HL). unfold update_canvas, modify, has_listeners. cbn.
  destruct (decide (c' = c)) as [->|Hne].
  - rewrite lookup_insert_eq, Hcv. cbn. eexists. split; [reflexivity |].
    specialize (Hf cv). set_solver.
  - rewrite lookup_insert_ne by exact Hne. exists cv. split; assumption.
Qed.

Lemma keeps_listeners_run {A} (m : M A) w r w' c L :
  keeps_listeners m -> m w = (r, w') -> has_listeners c L w -> has_listeners c L w'.
Proof. intros Hm Hrun H. specialize (Hm c L w H). rewrite Hrun in Hm. exact Hm. Qed.

(** A primitive that leaves the canvas store as it is. *)
Ltac listeners_primitive :=
  let c := fresh "c" in let L := fresh "L" in let w := fresh "w" in
  let H := fresh "H" in
  intros c L w H; exact H.

Ltac listeners_step :=
  lazymatch goal with
  | |- keeps_listeners (mret _) => apply keeps_listeners_ret
  | |- keeps_listeners (throw _) => apply keeps_listeners_throw
  | |- keeps_listeners (_ ≫= _) => apply keeps_listeners_bind; [| intros ?]
  | |- keeps_listeners (for_each _ _ _) => apply keeps_listeners_for_each; intros ? ?
  | |- keeps_listeners (update_canvas _ _) =>
      apply keeps_listeners_update_canvas; intros ?; cbn; set_solver
  | |- keeps_listeners (when ?b _) => destruct b; unfold when
  | |- keeps_listeners (if ?b then _ else _) => destruct b
  | |- keeps_listeners (match ?x with _ => _ end) => destruct x
  | |- keeps_listeners (let '(_, _) := ?x in _) => destruct x
  | |- keeps_listeners _ => listeners_primitive
  end.

Ltac listeners_auto := repeat listeners_step.

Lemma keeps_listeners_createShader kind source :
  keeps_listeners (createShader kind source).
Proof. unfold createShader. listeners_auto. Qed.

Lemma keeps_listeners_createProgram vs fs : keeps_listeners (createProgram vs fs).
Proof. unfold createProgram. listeners_auto. Qed.

Lemma keeps_listeners_handleResize this callback :
  keeps_listeners (handleResize this callback).
Proof. unfold handleResize, drawingBufferSize. listeners_auto. Qed.


Lemma keeps_listeners_render this time : keeps_listeners (render this time).
Proof.
  unfold render, drawingBufferSize.
  destruct (isDestroyed this); [listeners_auto |].
  destruct (program this); [| listeners_auto].
  do 3 (apply keeps_listeners_bind; [listeners_auto | intros ?]).
  apply keeps_listeners_bind.
  { apply keeps_listeners_for_each. intros acc x. unfold upload_uniform. listeners_auto. }
  intros ?. listeners_auto.
Qed.

(** Every event but [dispose] keeps the listeners. *)
Lemma keeps_listeners_step ev this :
  ev <> call_dispose -> keeps_listeners (step ev this).
Proof.
  intros Hev. destruct ev; cbn [step]; try contradiction.
  - unfold start. listeners_auto.
  - unfold stop. listeners_auto.
  - unfold setData. listeners_auto.
  - unfold setTexture. listeners_auto.
  - listeners_auto.
  - unfold run_animation_frame.
    do 2 (apply keeps_listeners_bind; [listeners_primitive | intros ?]).
    apply keeps_listeners_for_each. intros acc x.
    apply keeps_listeners_bind; [listeners_primitive | intros ?].
    apply keeps_listeners_render.
  - unfold run_resize_observer.
    apply keeps_listeners_bind; [listeners_primitive | intros w'].
    destruct (observers w' !! observer) as [ob|]; [| apply keeps_listeners_ret].
    destruct (ob_targets ob); [apply keeps_listeners_ret |].
    apply keeps_listeners_bind; [apply keeps_listeners_handleResize | intros ?].
    apply keeps_listeners_ret.
  - listeners_auto.
  - unfold dispatch, handleContextLost, stop. listeners_auto.
  - unfold dispatch, handleContextRestored. listeners_auto.
Qed.

(** ** The page after construction *)

Lemma initResources_resize this0 options w0 this w :
  initResources this0 options w0 = (Ok this, w) ->
  exists w2,
    handleResize this (opt_onResize options) w2 = (Ok tt, w) /\
    (forall c L, has_listeners c L w0 -> has_listeners c L w2).
Proof.
  unfold initResources. intros H.
  inv_step H as vs wa Hvs.
  inv_step H as fs wb Hfs.
  inv_step H as p wc Hp.
  inv_step H as u1 wd Hd1.
  inv_step H as u2 we Hd2.
  inv_step H as thisA wf Hmode.
  inv_step H as tl wg Htl.
  inv_step H as rl wh Hrl.
  inv_step H as thisB wi Hloop.
  inv_step H as u3 wj Hresize.
  injection H as <- <-. destruct u3. exists wi. split; [exact Hresize |].
  intros c L H0.
  pose proof (keeps_listeners_run _ _ _ _ c L (keeps_listeners_createShader _ _) Hvs H0)
    as H1.
  pose proof (keeps_listeners_run _ _ _ _ c L (keeps_listeners_createShader _ _) Hfs H1)
    as H2.
  pose proof (keeps_listeners_run _ _ _ _ c L (keeps_listeners_createProgram _ _) Hp H2)
    as H3.
  assert (H4 : has_listeners c L we).
  { revert Hd1 Hd2. run_monad. intros [= _ <-] [= _ <-]. exact H3. }
  assert (H5 : has_listeners c L wf).
  { cbn [renderMode set_program] in Hmode. destruct (renderMode this0).
    - inv_step Hmode as u wx Hf. injection Hmode as _ <-.
      assert (Hk : keeps_listeners (initFullscreenResources (set_program (Some p) this0)))
        by (unfold initFullscreenResources; listeners_auto).
      specialize (Hk c L we H4). rewrite Hf in Hk. exact Hk.
    - assert (Hk : keeps_listeners (initInstancedResources (set_program (Some p) this0)))
        by (unfold initInstancedResources, bind_attribute; listeners_auto).
      specialize (Hk c L we H4). rewrite Hmode in Hk. exact Hk. }
  assert (H6 : has_listeners c L wh).
  { revert Htl Hrl. run_monad. intros [= _ <-] [= _ <-]. exact H5. }
  destruct (opt_uniforms options) as [decls|].
  - inv_step Hloop as acc wx Hl. destruct acc as [thisC n]. injection Hloop as _ <-.
    assert (Hk : keeps_listeners
                   (for_each (register_uniform p) decls
                      (set_resolutionLocation rl (set_timeLocation tl thisA), 0%nat))).
    { apply keeps_listeners_for_each. intros acc x. unfold register_uniform.
      listeners_auto. }
    specialize (Hk c L wh H6). rewrite Hl in Hk. exact Hk.
  - injection Hloop as _ <-. exact H6.
Qed.

Lemma constructor_page options w0 this w :
  constructor options w0 = (Ok this, w) ->
  exists cv observer,
    canvases w !! canvas this = Some cv /\
    width cv = clientWidth cv /\ height cv = clientHeight cv /\
    context_events ⊆ listeners cv /\
    resizeObserver this = Some observer /\
    observers w !! observer =
      Some {| ob_onResize := opt_onResize options; ob_targets := [canvas this] |}.
Proof.
  intros Hnew. revert Hnew. unfold constructor. intros H.
  inv_step H as fields wa Hfields. destruct fields as [n attrs].
  inv_step H as c wb Hcv.
  inv_step H as ctx wc Hctx.
  inv_step H as u1 wd Hl1.
  inv_step H as u2 we Hl2.
  inv_step H as this1 wg Hinit.
  inv_step H as obs wh Hobs.
  inv_step H as u3 wi Hobserve.
  injection H as <- <-.
  assert (Hcanvas : canvas this1 = c).
  { destruct (quietly_Ok _ _ _ _ _ (quietly_initResources _ _) Hinit) as [_ [Hcore _]].
    unfold core in Hcore. cbn in Hcore. injection Hcore as Hc _. exact Hc. }
  assert (Hls : has_listeners c context_events we).
  { revert Hl1 Hl2. unfold addEventListener, update_canvas. run_monad.
    intros [= _ <-] [= _ <-]. unfold has_listeners. cbn.
    eexists. split; [apply lookup_insert_eq |]. cbn.
    rewrite lookup_insert_eq. cbn. unfold context_events. set_solver. }
  apply initResources_resize in Hinit as (w2 & Hresize & Hkeep).
  apply Hkeep in Hls. destruct Hls as (cv2 & Hcv2 & HL2).
  rewrite handleResize_run, Hcanvas, Hcv2 in Hresize.
  cbn [default from_option] in Hresize. unfold id in Hresize.
  assert (Hsized : exists cv, canvases wg !! c = Some cv /\
                     width cv = clientWidth cv /\ height cv = clientHeight cv /\
                     context_events ⊆ listeners cv).
  { revert Hresize.
    destruct (negb (width cv2 =? clientWidth cv2)%N
              || negb (height cv2 =? clientHeight cv2)%N) eqn:Hdiff;
      intros [= <-].
    - rewrite <- Hcanvas. rewrite resized_canvas, Hcanvas, Hcv2. cbn.
      eexists. split; [reflexivity |]. cbn. auto.
    - apply orb_false_elim in Hdiff as [Hw Hh].
      apply negb_false_iff, N.eqb_eq in Hw, Hh. exists cv2. auto. }
  destruct Hsized as (cv & Hcv' & Hw & Hh & HL).
  revert Hobs Hobserve. unfold new_ResizeObserver, observe. run_monad.
  intros [= <- <-] [= _ <-]. cbn.
  exists cv, (next_handle wg). rewrite Hcanvas.
  split; [exact Hcv' |]. split; [exact Hw |]. split; [exact Hh |].
  split; [exact HL |]. split; [reflexivity |].
  rewrite lookup_alter_eq, lookup_insert_eq. reflexivity.
Qed.

(** X9. A successful construction leaves the canvas in the store with its
    backing store equal to its display size and the two context-event
    handlers registered, and a resize observer that targets exactly this
    canvas and passes on the caller's resize callback. *)
Theorem X9_page_after_construction
    (options : ShaderUpOptions) (w0 : World) (this : ShaderUp) (w : World) :
  constructor options w0 = (Ok this, w) ->
  exists cv observer,
    canvases w !! canvas this = Some cv /\
    width cv = clientWidth cv /\ height cv = clientHeight cv /\
    context_events ⊆ listeners cv /\
    resizeObserver this = Some observer /\
    observers w !! observer =
      Some {| ob_onResize := opt_onResize options; ob_targets := [canvas this] |}.
Proof. apply constructor_page. Qed.

Lemma X9_page_after_construction_witness :
  exists this w cv,
    constructor demo_fullscreen demo_world = (Ok this, w) /\
    canvases w !! canvas this = Some cv /\
    width cv = clientWidth cv /\ height cv = clientHeight cv.
Proof.
  destruct demo_fullscreen_constructs as (this & w & Hnew).
  destruct (X9_page_after_construction demo_fullscreen demo_world this w Hnew)
    as (cv & observer & Hcv & Hw & Hh & _).
  exists this, w, cv. repeat split; assumption.
Defined.

(** ** How construction fails, and when it cannot *)



















(** ** Context loss *)

Lemma step_canvas ev this w this' w' :
  step ev this w = (Ok this', w') ->
  canvas this' = canvas this /\
  (isDestroyed this' = false -> isDestroyed this = false).
Proof.
  intros Hstep. destruct (quiet_event ev) eqn:Hquiet.
  { destruct (quietly_Ok _ _ _ _ _ (quietly_quiet_event ev this Hquiet) Hstep)
      as [_ (Hcore & _)].
    unfold core in Hcore. injection Hcore as Hc _ _ _ _ _ _ Hd.
    split; [exact Hc | congruence]. }
  destruct ev; try discriminate Hquiet; cbn [step] in Hstep.
  - rewrite start_run in Hstep. destruct (animationFrameId this).
    + injection Hstep as <- _. auto.
    + destruct (isDestroyed this) eqn:Hd0; injection Hstep as <- _; cbn;
        (split; [reflexivity | intros; congruence]).
  - rewrite stop_run in Hstep.
    destruct (animationFrameId this); injection Hstep as <- _; auto.
  - rewrite dispose_run in Hstep. injection Hstep as <- _. cbn.
    split; [reflexivity | discriminate].
  - rewrite run_animation_frame_run in Hstep.
    assert (Hc : forall callbacks t0 w0 t1 w1,
               for_each (fun this (_ : positive) =>
                           (modify (fun w => set_frames_executed (S (frames_executed w)) w);;
                            render this time)) callbacks t0 w0 = (Ok t1, w1) ->
               canvas t1 = canvas t0).
    { clear. induction callbacks as [|id rest IH]; intros t0 w0 t1 w1; cbn [for_each].
      - intros [= <- _]. reflexivity.
      - intros H. inv_step H as tA wA HA. rewrite bind_run in HA. cbn [modify] in HA.
        apply IH in H. rewrite H. clear H IH.
        revert HA. destruct (isDestroyed t0) eqn:Hd.
        { rewrite (destroyed_render _ _ _ Hd). intros [= <- _]. reflexivity. }
        destruct (program t0) as [p|] eqn:Hp.
        + rewrite (render_run _ _ _ p Hd Hp). intros [= <- _]. reflexivity.
        + unfold render. rewrite Hd, Hp. intros [= <- _]. reflexivity. }
    split; [apply (Hc _ _ _ _ _ Hstep) |].
    apply frames_keep in Hstep as (_ & _ & Hd & _). congruence.
  - unfold dispatch in Hstep. rewrite bind_run in Hstep. cbn [read_canvas] in Hstep.
    destruct (decide _); [| injection Hstep as <- _; auto].
    rewrite handleContextLost_run in Hstep.
    destruct (animationFrameId this); injection Hstep as <- _; auto.
Qed.

(** A live instance keeps its two context-event handlers registered. *)
Lemma reachable_listening options this w :
  reachable options this w ->
  isDestroyed this = false ->
  has_listeners (canvas this) context_events w.
Proof.
  induction 1 as [w0 this w Hempty Hnew | ev this w this' w' Hreach IH Hstep];
    intros Hd.
  - destruct (constructor_page _ _ _ _ Hnew) as (cv & obs & Hcv & _ & _ & HL & _).
    exists cv. split; assumption.
  - destruct (step_canvas _ _ _ _ _ Hstep) as [Hc Hd'].
    rewrite Hc. specialize (IH (Hd' Hd)).
    assert (Hev : ev <> call_dispose).
    { intros ->. cbn [step] in Hstep. rewrite dispose_run in Hstep.
      injection Hstep as <- _. discriminate Hd. }
    apply (keeps_listeners_run _ _ _ _ _ _ (keeps_listeners_step ev this Hev) Hstep IH).
Qed.

(** X12. On a live constructed instance a context-loss event stops the
    frame loop: no frame stays requested, a warning is logged, and neither
    the program nor the GL trace changes. The restoration event that follows
    only logs: it rebuilds nothing and requests no frame, so no frame
    executes until [start] is called. *)
Theorem X12_context_loss_stops_loop
    (options : ShaderUpOptions) (this : ShaderUp) (w : World) :
  reachable options this w ->
  isDestroyed this = false ->
  exists this1 w1 w2,
    step context_lost this w = (Ok this1, w1) /\
    animationFrameId this1 = None /\ raf_pending w1 = [] /\
    program this1 = program this /\ gl_calls w1 = gl_calls w /\
    In "[ShaderUp] Context Lost" (console w1) /\
    step context_restored this1 w1 = (Ok this1, w2) /\
    raf_pending w2 = [] /\ gl_calls w2 = gl_calls w /\
    forall evs, call_start ∉ evs ->
      exists this3 w3,
        run evs this1 w2 = (Ok this3, w3) /\
        frames_executed w3 = frames_executed w.
Proof.
  intros Hreach Hd.
  destruct (reachable_invariant _ _ _ Hreach) as ((Hpend & _) & _).
  destruct (reachable_listening _ _ _ Hreach Hd) as (cv & Hcv & HL).
  assert (Hlost : "webglcontextlost" ∈ listeners cv)
    by (unfold context_events in HL; set_solver).
  assert (Hrestored : "webglcontextrestored" ∈ listeners cv)
    by (unfold context_events in HL; set_solver).
  cbn [step]. unfold dispatch. rewrite bind_run. cbn [read_canvas].
  rewrite Hcv. cbn [default from_option]. unfold id.
  destruct (decide ("webglcontextlost" ∈ listeners cv)); [| contradiction].
  rewrite handleContextLost_run.
  assert (Hstate : exists this1 w1,
            match animationFrameId this with
            | Some id =>
                (Ok (set_animationFrameId None this),
                 set_console (console w ++ ["[ShaderUp] Context Lost"])
                   (set_raf_pending (filter (fun id' => id' ≠ id) (raf_pending w)) w))
            | None =>
                (Ok this, set_console (console w ++ ["[ShaderUp] Context Lost"]) w)
            end = (Ok this1, w1) /\
            animationFrameId this1 = None /\ raf_pending w1 = [] /\
            program this1 = program this /\ gl_calls w1 = gl_calls w /\
            In "[ShaderUp] Context Lost" (console w1) /\
            canvas this1 = canvas this /\ canvases w1 = canvases w /\
            frames_executed w1 = frames_executed w).
  { unfold pending_of in Hpend.
    destruct (animationFrameId this) as [id|] eqn:Hraf; eexists _, _;
      (split; [reflexivity |]); cbn; rewrite Hpend, ?filter_out_self, ?Hraf;
      repeat split; apply in_app_iff; right; now left. }
  destruct Hstate as (this1 & w1 & -> & Hraf1 & Hpend1 & Hprog & Hgl & Hlog & Hc1 & Hcvs & Hf1).
  exists this1, w1, (set_console (console w1 ++ ["[ShaderUp] Context Restored - Re-initializing..."]) w1).
  do 6 (split; [first [reflexivity | assumption] |]).
  split.
  { rewrite bind_run. cbn [read_canvas]. rewrite Hc1, Hcvs, Hcv.
    cbn [default from_option]. unfold id.
    destruct (decide ("webglcontextrestored" ∈ listeners cv)); [| contradiction].
    reflexivity. }
  split; [exact Hpend1 |]. split; [exact Hgl |].
  intros evs Hnot.
  destruct (idle_run evs Hnot this1
              (set_console (console w1 ++ ["[ShaderUp] Context Restored - Re-initializing..."]) w1)
              Hraf1 Hpend1) as (this3 & w3 & Hrun & _ & _ & Hf3).
  exists this3, w3. split; [exact Hrun |]. cbn in Hf3. congruence.
Qed.

Lemma X12_context_loss_stops_loop_witness :
  exists this w this1 w1,
    reachable demo_fullscreen this w /\
    step context_lost this w = (Ok this1, w1) /\
    animationFrameId this1 = None /\ raf_pending w1 = [].
Proof.
  destruct demo_fullscreen_constructs as (this0 & w0 & Hnew).
  assert (Hreach0 : reachable demo_fullscreen this0 w0).
  { apply (reachable_new _ demo_world); [reflexivity | exact Hnew]. }
  destruct (total_start this0 w0) as (this & w & Hstart).
  assert (Hreach : reachable demo_fullscreen this w).
  { apply (reachable_step _ call_start this0 w0); [exact Hreach0 | exact Hstart]. }
  assert (Hd : isDestroyed this = false).
  { destruct (constructor_constructed _ _ _ _ Hnew) as [_ (_ & _ & _ & Hd0 & _)].
    rewrite start_run in Hstart. destruct (animationFrameId this0).
    - injection Hstart as <- _. exact Hd0.
    - rewrite Hd0 in Hstart. injection Hstart as <- _. exact Hd0. }
  destruct (X12_context_loss_stops_loop demo_fullscreen this w Hreach Hd)
    as (this1 & w1 & w2 & Hlost & Hraf & Hpend & _).
  exists this, w, this1, w1. repeat split; assumption.
Defined.

(** ** After teardown *)

Lemma torn_down_idle_run evs :
  forall this w,
    torn_down this w -> raf_pending w = [] ->
    exists this' w',
      run evs this w = (Ok this', w') /\
      torn_down this' w' /\ raf_pending w' = [] /\
      frames_executed w' = frames_executed w.
Proof.
  unfold run. induction evs as [|ev rest IH]; intros this w Htd Hpend; cbn [for_each].
  - exists this, w. split; [reflexivity |]. split; [exact Htd |].
    split; [exact Hpend | reflexivity].
  - destruct (torn_down_step ev this w Htd) as (this1 & w1 & Hstep & Htd1).
    assert (Hidle : raf_pending w1 = [] /\ frames_executed w1 = frames_executed w).
    { destruct Htd as (Hd & Hraf & _).
      assert (Hcases : ev = call_start \/ ev <> call_start)
        by (destruct ev; first [left; reflexivity | right; discriminate]).
      destruct Hcases as [->|Hev].
      - cbn [step] in Hstep. rewrite (destroyed_start _ _ Hd) in Hstep.
        injection Hstep as _ <-. split; [exact Hpend | reflexivity].
      - destruct (idle_step _ _ _ _ _ Hev Hraf Hpend Hstep) as (_ & Hp & Hf).
        split; assumption. }
    destruct Hidle as [Hpend1 Hf1].
    destruct (IH this1 w1 Htd1 Hpend1) as (this' & w' & Hrun & Htd' & Hpend' & Hf').
    exists this', w'. rewrite bind_run, Hstep.
    split; [exact Hrun |]. split; [exact Htd' |]. split; [exact Hpend' | congruence].
Qed.

(** X13. [dispose] ends the frame loop for good: on a constructed instance,
    after [dispose] no frame is requested and, whatever calls and host
    events follow ([start] included), none is requested again and no frame
    callback ever executes. *)
Theorem X13_dispose_ends_frame_loop
    (options : ShaderUpOptions) (this : ShaderUp) (w : World) (evs : list Event) :
  reachable options this w ->
  exists this1 w1 this2 w2,
    dispose this w = (Ok this1, w1) /\ raf_pending w1 = [] /\
    run evs this1 w1 = (Ok this2, w2) /\
    isDestroyed this2 = true /\ animationFrameId this2 = None /\
    raf_pending w2 = [] /\
    frames_executed w2 = frames_executed w.
Proof.
  intros Hreach.
  destruct (reachable_invariant _ _ _ Hreach) as ((Hpend & _) & _).
  assert (Hpend1 : raf_pending (released this w) = []).
  { unfold released, pending_of in *.
    destruct (animationFrameId this), (resizeObserver this); cbn;
      rewrite Hpend, ?filter_out_self; reflexivity. }
  assert (Hf1 : frames_executed (released this w) = frames_executed w).
  { unfold released. destruct (animationFrameId this), (resizeObserver this); reflexivity. }
  destruct (torn_down_idle_run evs _ _ (dispose_torn_down this w) Hpend1)
    as (this2 & w2 & Hrun & (Hd & Hraf & _) & Hpend2 & Hf2).
  exists (disposed this), (released this w), this2, w2.
  split; [apply dispose_run |]. split; [exact Hpend1 |]. split; [exact Hrun |].
  split; [exact Hd |]. split; [exact Hraf |]. split; [exact Hpend2 | congruence].
Qed.

Lemma X13_dispose_ends_frame_loop_witness :
  exists this w this1 w1 this2 w2,
    reachable demo_fullscreen this w /\
    dispose this w = (Ok this1, w1) /\
    run [call_start; animation_frame (num_of_Z 16)] this1 w1 = (Ok this2, w2) /\
    frames_executed w2 = frames_executed w.
Proof.
  destruct demo_fullscreen_constructs as (this & w & Hnew).
  assert (Hreach : reachable demo_fullscreen this w).
  { apply (reachable_new _ demo_world); [reflexivity | exact Hnew]. }
  destruct (X13_dispose_ends_frame_loop demo_fullscreen this w
              [call_start; animation_frame (num_of_Z 16)] Hreach)
    as (this1 & w1 & this2 & w2 & Hdispose & _ & Hrun & _ & _ & _ & Hf).
  exists this, w, this1, w1, this2, w2. repeat split; assumption.
Defined.

(** ** Textures are not leaked *)

Lemma adds_calls_ret P {A} (a : A) : adds_calls P (mret a).
Proof. intros w. exists []. split; [rewrite app_nil_r; reflexivity | constructor]. Qed.

Lemma adds_calls_throw P {A} e : adds_calls P (@throw A e).
Proof. intros w. exists []. split; [rewrite app_nil_r; reflexivity | constructor]. Qed.

Lemma adds_calls_bind P {A B} (m : M A) (k : A -> M B) :
  adds_calls P m -> (forall a, adds_calls P (k a)) -> adds_calls P (m ≫= k).
Proof.
  intros Hm Hk w. rewrite bind_run. destruct (Hm w) as (c1 & H1 & HP1).
  destruct (m w) as [[a|e] w1]; cbn in H1.
  - destruct (Hk a w1) as (c2 & H2 & HP2). exists (c1 ++ c2).
    split; [rewrite H2, H1, app_assoc; reflexivity | apply Forall_app; split; assumption].
  - exists c1. split; assumption.
Qed.

Lemma adds_calls_for_each P {A S} (body : S -> A -> M S) xs :
  (forall acc x, adds_calls P (body acc x)) ->
  forall acc, adds_calls P (for_each body xs acc).
Proof.
  intros Hbody. induction xs as [|x rest IH]; intros acc; cbn [for_each].
  - apply adds_calls_ret.
  - apply adds_calls_bind; [apply Hbody | exact IH].
Qed.

Lemma adds_calls_run P {A} (m : M A) w r w' :
  adds_calls P m -> m w = (r, w') ->
  exists calls, gl_calls w' = gl_calls w ++ calls /\ Forall P calls.
Proof. intros Hm Hrun. specialize (Hm w). rewrite Hrun in Hm. exact Hm. Qed.

(** A primitive that adds no call, or one call that is not a texture
    creation. *)
Ltac calls_primitive :=
  let w := fresh "w" in
  intros w; cbn;
  first [ exists []; split; [rewrite app_nil_r; reflexivity | constructor]
        | eexists [_]; split; [reflexivity | constructor; [exact I | constructor]] ].

Ltac calls_step :=
  lazymatch goal with
  | |- adds_calls _ (mret _) => apply adds_calls_ret
  | |- adds_calls _ (throw _) => apply adds_calls_throw
  | |- adds_calls _ (_ ≫= _) => apply adds_calls_bind; [| intros ?]
  | |- adds_calls _ (for_each _ _ _) => apply adds_calls_for_each; intros ? ?
  | |- adds_calls _ (when ?b _) => destruct b; unfold when
  | |- adds_calls _ (if ?b then _ else _) => destruct b
  | |- adds_calls _ (match ?x with _ => _ end) => destruct x
  | |- adds_calls _ (let '(_, _) := ?x in _) => destruct x
  | |- adds_calls _ _ => calls_primitive
  end.

Ltac calls_auto := repeat calls_step.

Lemma adds_calls_handleResize this callback :
  adds_calls no_texture_created (handleResize this callback).
Proof. unfold handleResize, drawingBufferSize. calls_auto. Qed.

Lemma adds_calls_initResources this options :
  adds_calls no_texture_created (initResources this options).
Proof.
  unfold initResources.
  do 3 (apply adds_calls_bind;
        [unfold createShader, createProgram; calls_auto | intros ?]).
  do 2 (apply adds_calls_bind; [calls_primitive | intros ?]).
  apply adds_calls_bind.
  { cbn [renderMode set_program]. destruct (renderMode this).
    - unfold initFullscreenResources. calls_auto.
    - unfold initInstancedResources, bind_attribute. calls_auto. }
  intros this1.
  do 2 (apply adds_calls_bind; [calls_primitive | intros ?]).
  apply adds_calls_bind.
  { destruct (opt_uniforms options); [| apply adds_calls_ret].
    apply adds_calls_bind.
    - apply adds_calls_for_each. intros acc x. unfold register_uniform. calls_auto.
    - intros [? ?]. apply adds_calls_ret. }
  intros this2.
  apply adds_calls_bind; [apply adds_calls_handleResize | intros ?].
  apply adds_calls_ret.
Qed.

Lemma adds_calls_constructor options :
  adds_calls no_texture_created (constructor options).
Proof.
  unfold constructor.
  apply adds_calls_bind; [unfold validate_options; calls_auto | intros [n attrs]].
  apply adds_calls_bind;
    [unfold resolve_canvas, first_canvas; calls_auto | intros c].
  apply adds_calls_bind;
    [unfold initialize_context, getContext; calls_auto | intros ctx].
  do 2 (apply adds_calls_bind; [calls_primitive | intros ?]).
  apply adds_calls_bind; [apply adds_calls_initResources | intros this1].
  calls_auto.
Qed.

Lemma adds_calls_render this time :
  adds_calls no_texture_created (render this time).
Proof.
  unfold render, drawingBufferSize.
  destruct (isDestroyed this); [calls_auto |].
  destruct (program this); [| calls_auto].
  do 3 (apply adds_calls_bind; [calls_auto | intros ?]).
  apply adds_calls_bind.
  { apply adds_calls_for_each. intros acc x. unfold upload_uniform. calls_auto. }
  intros ?. calls_auto.
Qed.

(** Apart from [setTexture] and [dispose], an event adds no texture
    creation to the trace and leaves the texture map as it is. *)
Lemma texture_neutral_step ev this w this' w' :
  (forall name image, ev <> call_setTexture name image) ->
  ev <> call_dispose ->
  step ev this w = (Ok this', w') ->
  textures this' = textures this /\
  exists calls, gl_calls w' = gl_calls w ++ calls /\ Forall no_texture_created calls.
Proof.
  intros Htex Hdis Hstep. destruct ev; cbn [step] in Hstep; try contradiction.
  - split.
    + rewrite start_run in Hstep. destruct (animationFrameId this).
      * injection Hstep as <- _. reflexivity.
      * destruct (isDestroyed this); injection Hstep as <- _; reflexivity.
    + apply (adds_calls_run no_texture_created (start this) _ _ _ ltac:(unfold start; calls_auto) Hstep).
  - split.
    + rewrite stop_run in Hstep.
      destruct (animationFrameId this); injection Hstep as <- _; reflexivity.
    + apply (adds_calls_run no_texture_created (stop this) _ _ _ ltac:(unfold stop; calls_auto) Hstep).
  - split.
    + revert Hstep. unfold setData. destruct (renderMode this);
        [intros [= <- _]; reflexivity |].
      destruct (isDestroyed this); [intros [= <- _]; reflexivity |].
      run_monad. intros [= <- _]. reflexivity.
    + apply (adds_calls_run no_texture_created (setData this data) _ _ _
               ltac:(unfold setData; calls_auto) Hstep).
  - exfalso. apply (Htex name image). reflexivity.
  - injection Hstep as <- <-. split; [reflexivity |].
    exists []. split; [rewrite app_nil_r; reflexivity | constructor].
  - split.
    + rewrite run_animation_frame_run in Hstep.
      apply frames_keep in Hstep as (_ & _ & _ & Ht). exact Ht.
    + refine (adds_calls_run no_texture_created (run_animation_frame this time) _ _ _ _ Hstep).
      unfold run_animation_frame.
      do 2 (apply adds_calls_bind; [calls_primitive | intros ?]).
      apply adds_calls_for_each. intros acc x.
      apply adds_calls_bind; [calls_primitive | intros ?]. apply adds_calls_render.
  - split.
    + revert Hstep. unfold run_resize_observer. run_monad.
      destruct (observers w !! observer) as [ob|]; [| intros [= <- _]; reflexivity].
      destruct (ob_targets ob); [intros [= <- _]; reflexivity |].
      rewrite handleResize_run. cbv zeta. destruct (_ || _); intros [= <- _]; reflexivity.
    + refine (adds_calls_run no_texture_created (run_resize_observer this observer) _ _ _ _ Hstep).
      unfold run_resize_observer.
      apply adds_calls_bind; [calls_primitive | intros w0].
      destruct (observers w0 !! observer) as [ob|]; [| apply adds_calls_ret].
      destruct (ob_targets ob); [apply adds_calls_ret |].
      apply adds_calls_bind; [apply adds_calls_handleResize | intros ?].
      apply adds_calls_ret.
  - revert Hstep. unfold update_canvas. run_monad. intros [= <- <-].
    split; [reflexivity |].
    exists []. split; [rewrite app_nil_r; reflexivity | constructor].
  - revert Hstep. unfold dispatch. rewrite bind_run. cbn [read_canvas].
    destruct (decide _).
    + rewrite handleContextLost_run.
      destruct (animationFrameId this); intros [= <- <-]; (split; [reflexivity |]);
        exists []; (split; [rewrite app_nil_r; reflexivity | constructor]).
    + intros [= <- <-]. split; [reflexivity |].
      exists []. split; [rewrite app_nil_r; reflexivity | constructor].
  - revert Hstep. unfold dispatch, handleContextRestored. rewrite bind_run.
    cbn [read_canvas]. destruct (decide _); run_monad; intros [= <- <-];
      (split; [reflexivity |]);
      exists []; (split; [rewrite app_nil_r; reflexivity | constructor]).
Qed.

Lemma no_texture_created_not_in calls h :
  Forall no_texture_created calls -> CreateTexture (Some h) ∉ calls.
Proof.
  intros Hall Hin. rewrite Forall_forall in Hall. apply (Hall _ Hin).
Qed.

Lemma no_texture_leak_released this w :
  no_texture_leak this w ->
  forall h, CreateTexture (Some h) ∈ gl_calls (released this w) ->
            DeleteTexture (Some h) ∈ gl_calls (released this w).
Proof.
  intros Hleak h. unfold released.
  destruct (animationFrameId this), (resizeObserver this); cbn;
    rewrite !elem_of_app; intros [Hin | [Hin | [Hin | Hin]]];
    try (apply list_elem_of_fmap in Hin as (e & Heq & _); discriminate Heq);
    try (destruct (instanceBuffer this); cbn in Hin; set_solver);
    try (destruct (program this); cbn in Hin; set_solver);
    (destruct (Hleak h Hin) as [[unit Hget] | Hdel]; [| now left]);
    right; left; apply list_elem_of_fmap;
    exists (unit, Some h); (split; [reflexivity |]);
    apply jsmap_get_elem_of, Hget.
Qed.

Lemma no_texture_leak_step ev this w this' w' :
  no_texture_leak this w ->
  step ev this w = (Ok this', w') ->
  no_texture_leak this' w'.
Proof.
  intros Hleak Hstep.
  assert (Hcases : (exists name image, ev = call_setTexture name image) \/
                   ev = call_dispose \/
                   ((forall name image, ev <> call_setTexture name image) /\
                    ev <> call_dispose)).
  { destruct ev; first [left; eexists _, _; reflexivity
                       | right; left; reflexivity
                       | right; right; split; [intros ? ?|]; discriminate]. }
  destruct Hcases as [(name & image & ->) | [-> | [Htex Hdis]]].
  - (* setTexture *)
    cbn [step] in Hstep. rewrite setTexture_run in Hstep. cbv zeta in Hstep.
    revert Hstep. destruct (isDestroyed this); [intros [= <- <-]; exact Hleak |].
    assert (Hwarn : no_texture_leak this
                      (set_console (console w ++ [not_sampler_warning name]) w))
      by exact Hleak.
    destruct (jsmap_get name (uniformInfo this)) as [info|];
      [| intros [= <- <-]; exact Hwarn].
    destruct (utype info); try (intros [= <- <-]; exact Hwarn).
    destruct (textureUnit info) as [unit|]; [| intros [= <- <-]; exact Hwarn].
    destruct (jsmap_get unit (textures this)) as [[tex|]|] eqn:Hunit;
      intros [= <- <-]; intros h; cbn; rewrite !elem_of_app.
    + intros [Hin | Hin]; [| unfold texture_upload in Hin; set_solver].
      destruct (Hleak h Hin) as [Hown | Hdel]; [now left | right; now left].
    + intros [Hin | Hin].
      * destruct (Hleak h Hin) as [[u Hu] | Hdel]; [| right; now left].
        left. exists u. rewrite jsmap_get_set.
        destruct (decide (unit = u)) as [->|Hne]; [congruence | exact Hu].
      * apply elem_of_cons in Hin as [Heq | Hin];
          [| unfold texture_upload in Hin; set_solver].
        injection Heq as Heq. left. exists unit. rewrite jsmap_get_set.
        destruct (decide (unit = unit)); [| contradiction]. rewrite <- Heq. reflexivity.
    + intros [Hin | Hin].
      * destruct (Hleak h Hin) as [[u Hu] | Hdel]; [| right; now left].
        left. exists u. rewrite jsmap_get_set.
        destruct (decide (unit = u)) as [->|Hne]; [congruence | exact Hu].
      * apply elem_of_cons in Hin as [Heq | Hin];
          [| unfold texture_upload in Hin; set_solver].
        injection Heq as Heq. left. exists unit. rewrite jsmap_get_set.
        destruct (decide (unit = unit)); [| contradiction]. rewrite <- Heq. reflexivity.
  - (* dispose *)
    cbn [step] in Hstep. rewrite dispose_run in Hstep. injection Hstep as <- <-.
    intros h Hin. right. apply (no_texture_leak_released _ _ Hleak h Hin).
  - destruct (texture_neutral_step _ _ _ _ _ Htex Hdis Hstep)
      as (Ht & calls & Hcalls & Hnone).
    intros h. rewrite Hcalls, Ht, !elem_of_app. intros [Hin | Hin].
    + destruct (Hleak h Hin) as [Hown | Hdel]; [now left | right; now left].
    + exfalso. apply (no_texture_created_not_in _ h Hnone Hin).
Qed.

Lemma no_texture_leak_run evs :
  forall this w this' w',
    no_texture_leak this w ->
    run evs this w = (Ok this', w') ->
    no_texture_leak this' w'.
Proof.
  unfold run. induction evs as [|ev rest IH]; intros this w this' w' Hleak;
    cbn [for_each].
  - intros [= <- <-]. exact Hleak.
  - intros H. inv_step H as thisA wA HA.
    apply (IH _ _ _ _ (no_texture_leak_step _ _ _ _ _ Hleak HA) H).
Qed.

(** X14. No texture is leaked: on an instance constructed in a context
    whose trace shows no texture creation yet, after any history of calls
    and host events, [dispose] leaves a trace in which every texture that
    was created has been deleted. *)
Theorem X14_dispose_releases_every_texture
    (options : ShaderUpOptions) (w0 : World) (this0 : ShaderUp) (w1 : World)
    (evs : list Event) (this : ShaderUp) (w : World) :
  (forall r, CreateTexture r ∉ gl_calls w0) ->
  constructor options w0 = (Ok this0, w1) ->
  run evs this0 w1 = (Ok this, w) ->
  exists this' w',
    dispose this w = (Ok this', w') /\
    textures this' = [] /\
    forall h, CreateTexture (Some h) ∈ gl_calls w' ->
              DeleteTexture (Some h) ∈ gl_calls w'.
Proof.
  intros Hfresh Hnew Hrun.
  assert (Hleak0 : no_texture_leak this0 w1).
  { destruct (adds_calls_run _ _ _ _ _ (adds_calls_constructor options) Hnew)
      as (calls & Hcalls & Hnone).
    intros h. rewrite Hcalls, elem_of_app. intros [Hin | Hin].
    - exfalso. apply (Hfresh _ Hin).
    - exfalso. apply (no_texture_created_not_in _ h Hnone Hin). }
  pose proof (no_texture_leak_run _ _ _ _ _ Hleak0 Hrun) as Hleak.
  exists (disposed this), (released this w).
  split; [apply dispose_run |]. split; [reflexivity |].
  apply no_texture_leak_released, Hleak.
Qed.

Lemma X14_dispose_releases_every_texture_witness :
  exists this0 w1 this w this' w',
    constructor demo_fullscreen demo_world = (Ok this0, w1) /\
    run [call_setTexture "u_image" 10%nat; call_start;
         call_setTexture "u_image" 11%nat] this0 w1 = (Ok this, w) /\
    dispose this w = (Ok this', w') /\
    textures this' = [] /\
    forall h, CreateTexture (Some h) ∈ gl_calls w' ->
              DeleteTexture (Some h) ∈ gl_calls w'.
Proof.
  destruct demo_fullscreen_constructs as (this0 & w1 & Hnew).
  destruct (total_run [call_setTexture "u_image" 10%nat; call_start;
                       call_setTexture "u_image" 11%nat] this0 w1)
    as (this & w & Hrun).
  assert (Hfresh : forall r, CreateTexture r ∉ gl_calls demo_world).
  { clear. intros r Hin. vm_compute in Hin. inversion Hin. }
  destruct (X14_dispose_releases_every_texture demo_fullscreen demo_world this0 w1
              _ this w Hfresh Hnew Hrun) as (this' & w' & Hd & Ht & Hall).
  exists this0, w1, this, w, this', w'.
  split; [exact Hnew |]. split; [exact Hrun |]. split; [exact Hd |].
  split; [exact Ht | exact Hall].
Defined.

(** ** No use of the context after [dispose] *)

Lemma destroyed_frames_effects this time callbacks :
  isDestroyed this = true ->
  forall w w' this',
    for_each (fun this (_ : positive) =>
                (modify (fun w => set_frames_executed (S (frames_executed w)) w);;
                 render this time)) callbacks this w = (Ok this', w') ->
    same_effects w w'.
Proof.
  intros Hd. induction callbacks as [|id rest IH]; intros w w' this'; cbn [for_each].
  - intros [= _ <-]. repeat split.
  - rewrite !bind_run. cbn. rewrite (destroyed_render _ _ _ Hd).
    intros Hrun. apply IH in Hrun. exact Hrun.
Qed.

Lemma torn_down_step_effects ev this w this' w' :
  torn_down this w ->
  (forall h, ev = resize_observed h -> disconnected h w) ->
  step ev this w = (Ok this', w') ->
  same_effects w w'.
Proof.
  intros Htd Hobs Hstep.
  pose proof Htd as (Hd & Hraf & _ & _ & _ & _ & cv & Hcv & Hl1 & Hl2).
  destruct ev; cbn [step] in Hstep.
  - rewrite (destroyed_start _ _ Hd) in Hstep. injection Hstep as _ <-. repeat split.
  - rewrite stop_run, Hraf in Hstep. injection Hstep as _ <-. repeat split.
  - rewrite (torn_down_dispose _ _ Htd) in Hstep. injection Hstep as _ <-. repeat split.
  - rewrite (destroyed_setData _ _ _ Hd) in Hstep. injection Hstep as _ <-. repeat split.
  - rewrite (destroyed_setTexture _ _ _ _ Hd) in Hstep. injection Hstep as _ <-.
    repeat split.
  - injection Hstep as _ <-. repeat split.
  - revert Hstep. unfold run_animation_frame. run_monad. intros Hrun.
    apply (destroyed_frames_effects _ _ _ Hd) in Hrun. exact Hrun.
  - revert Hstep. unfold run_resize_observer. run_monad.
    destruct (observers w !! observer) as [ob|] eqn:Hob;
      [| intros [= _ <-]; repeat split].
    rewrite (Hobs observer eq_refl ob Hob). intros [= _ <-]. repeat split.
  - revert Hstep. unfold update_canvas. run_monad. intros [= _ <-]. repeat split.
  - revert Hstep. unfold dispatch. run_monad. rewrite Hcv. cbn.
    destruct (decide _); [contradiction |]. intros [= _ <-]. repeat split.
  - revert Hstep. unfold dispatch. run_monad. rewrite Hcv. cbn.
    destruct (decide _); [contradiction |]. intros [= _ <-]. repeat split.
Qed.

Lemma torn_down_run_effects evs :
  forall this w,
    torn_down this w ->
    (forall h, resize_observed h ∈ evs -> disconnected h w) ->
    exists this' w',
      run evs this w = (Ok this', w') /\ torn_down this' w' /\ same_effects w w'.
Proof.
  unfold run. induction evs as [|ev rest IH]; intros this w Htd Hobs; cbn [for_each].
  - exists this, w. split; [reflexivity |]. split; [exact Htd | repeat split].
  - destruct (torn_down_step ev this w Htd) as (this1 & w1 & Hstep & Htd1).
    assert (Heff : same_effects w w1).
    { apply (torn_down_step_effects ev this w this1 w1 Htd); [| exact Hstep].
      intros h ->. apply Hobs. left. }
    destruct Heff as (Hgl & Hcb & Hob).
    destruct (IH this1 w1 Htd1) as (this' & w' & Hrun & Htd' & Hgl' & Hcb' & Hob').
    { intros h Hin ob. rewrite Hob. apply Hobs. right. exact Hin. }
    exists this', w'. rewrite bind_run, Hstep.
    split; [exact Hrun |]. split; [exact Htd' |].
    unfold same_effects. repeat split; congruence.
Qed.

(** X15. The context is not used after [dispose]: from any state, once
    [dispose] has returned, no call and no host event (resize notifications
    of the instance's own observer, frame callbacks still pending and
    context events included) makes the instance issue a GL call or invoke
    the caller's resize callback. *)
Theorem X15_no_gl_call_after_dispose
    (this : ShaderUp) (w : World) (evs : list Event) :
  (forall h, resize_observed h ∈ evs -> resizeObserver this = Some h) ->
  exists this1 w1 this2 w2,
    dispose this w = (Ok this1, w1) /\
    run evs this1 w1 = (Ok this2, w2) /\
    gl_calls w2 = gl_calls w1 /\
    resize_callbacks w2 = resize_callbacks w1.
Proof.
  intros Hown.
  destruct (torn_down_run_effects evs _ _ (dispose_torn_down this w))
    as (this2 & w2 & Hrun & _ & Hgl & Hcb & _).
  { intros h Hin ob. specialize (Hown h Hin). unfold released. rewrite Hown.
    destruct (animationFrameId this); cbn; rewrite lookup_alter_eq;
      destruct (observers w !! h); cbn; intros [= <-]; reflexivity. }
  exists (disposed this), (released this w), this2, w2.
  split; [apply dispose_run |]. split; [exact Hrun |]. split; assumption.
Qed.

Lemma X15_no_gl_call_after_dispose_witness :
  exists this w h this1 w1 this2 w2,
    constructor demo_fullscreen demo_world = (Ok this, w) /\
    resizeObserver this = Some h /\
    dispose this w = (Ok this1, w1) /\
    run [layout 640 480; resize_observed h; call_start;
         animation_frame (num_of_Z 16); call_setTexture "u_image" 10%nat]
        this1 w1 = (Ok this2, w2) /\
    gl_calls w2 = gl_calls w1 /\
    resize_callbacks w2 = resize_callbacks w1.
Proof.
  destruct demo_fullscreen_constructs as (this & w & Hnew).
  destruct (constructor_page _ _ _ _ Hnew) as (cv & h & _ & _ & _ & _ & Hobs & _).
  assert (Hown : forall h', resize_observed h'
                   ∈ [layout 640 480; resize_observed h; call_start;
                      animation_frame (num_of_Z 16);
                      call_setTexture "u_image" 10%nat] ->
                   resizeObserver this = Some h').
  { intros h' Hin. rewrite Hobs. clear -Hin.
    repeat (apply elem_of_cons in Hin as [Heq | Hin];
            [first [discriminate Heq | injection Heq as ->; reflexivity] |]).
    inversion Hin. }
  destruct (X15_no_gl_call_after_dispose this w _ Hown)
    as (this1 & w1 & this2 & w2 & Hd & Hrun & Hgl & Hcb).
  exists this, w, h, this1, w1, this2, w2.
  split; [exact Hnew |]. split; [exact Hobs |]. split; [exact Hd |].
  split; [exact Hrun |]. split; assumption.
Defined.

(** ** The value bag is read every frame *)

Lemma reachable_run options evs :
  forall this w this' w',
    reachable options this w ->
    run evs this w = (Ok this', w') ->
    reachable options this' w'.
Proof.
  unfold run. induction evs as [|ev rest IH]; intros this w this' w' Hreach;
    cbn [for_each].
  - intros [= <- <-]. exact Hreach.
  - intros H. inv_step H as thisA wA HA.
    apply (IH _ _ _ _ (reachable_step _ _ _ _ _ _ Hreach HA) H).
Qed.

(** Every entry the registration loop adds holds the location the program
    answers for its name. *)
Lemma register_uniforms_location p decls :
  forall this n w this' n' w',
    for_each (register_uniform p) decls (this, n) w = (Ok (this', n'), w') ->
    forall name info,
      jsmap_get name (uniformInfo this') = Some info ->
      jsmap_get name (uniformInfo this) = Some info \/
      uniform_location (host w) p name = Some (location info).
Proof.
  induction decls as [|[name0 ty0] rest IH]; intros this n w this' n' w';
    cbn [for_each].
  - intros [= <- <- <-] name info Hget. now left.
  - rewrite bind_run, register_uniform_run.
    destruct (uniform_location (host w) p name0) as [loc|] eqn:Hloc.
    + intros Hrun name info Hget.
      destruct (IH _ _ _ _ _ _ Hrun name info Hget) as [Hold | Hnew]; [| now right].
      cbn in Hold. rewrite jsmap_get_set in Hold.
      destruct (decide (name0 = name)) as [->|Hne]; [| now left].
      injection Hold as <-. right. exact Hloc.
    + intros Hrun name info Hget.
      destruct (IH _ _ _ _ _ _ Hrun name info Hget) as [Hold | Hnew];
        [now left | right; exact Hnew].
Qed.

Lemma flat_map_elem_of_split {A B} (f : A -> list B) (x : A) (xs : list A) :
  x ∈ xs -> exists before after, flat_map f xs = before ++ f x ++ after.
Proof.
  intros Hin. apply list_elem_of_split in Hin as (l1 & l2 & ->).
  exists (flat_map f l1), (flat_map f l2). rewrite flat_map_app. reflexivity.
Qed.

(** X16. The value bag is read every frame: on a constructed instance whose
    loop is running, after any history, a non-null value written to the
    bag entry of a declared, resolved uniform of a non-sampler type is
    submitted by the very next frame, at the location the program answered
    for that name at construction and with the call of the declared type. *)
Theorem X16_written_uniform_submitted_next_frame
    (options : ShaderUpOptions) (w0 : World) (this0 : ShaderUp) (w1 : World)
    (evs : list Event) (this : ShaderUp) (w : World)
    (name : string) (ty : UniformType) (p loc : Handle)
    (v : JSValue) (time : number) :
  raf_pending w0 = [] ->
  constructor options w0 = (Ok this0, w1) ->
  NoDup (opt_uniforms_list options).*1 ->
  (name, ty) ∈ opt_uniforms_list options ->
  ty <> sampler2D ->
  program this0 = Some p ->
  uniform_location (host w0) p name = Some loc ->
  run evs this0 w1 = (Ok this, w) ->
  is_Some (animationFrameId this) ->
  is_nullish v = false ->
  exists this' w' before after,
    run [write_uniform name v; animation_frame time] this w = (Ok this', w') /\
    uniforms this' !! name = Some v /\
    gl_calls w' = gl_calls w ++ before ++ uniform_submission ty loc v ++ after.
Proof.
  intros Hempty Hnew Hnodup Hin Hty Hp Hloc Hrun [fid Hraf] Hv.
  (* the registry entry of [name] *)
  destruct (constructor_uniforms _ _ _ _ Hnew) as (p' & Hp' & _ & _ & Hdecl).
  assert (p' = p) as -> by congruence.
  assert (Hinfo : exists info, jsmap_get name (uniformInfo this0) = Some info /\
                               utype info = ty).
  { unfold opt_uniforms_list in Hin, Hnodup.
    destruct (opt_uniforms options) as [decls|] eqn:Hdecls; cbn [default] in Hin, Hnodup.
    - destruct (Hdecl decls eq_refl Hnodup name ty Hin) as (info & Hget & Hity & _).
      + rewrite Hloc. eexists. reflexivity.
      + exists info. split; assumption.
    - apply elem_of_nil in Hin as []. }
  destruct Hinfo as (info & Hget & Hity).
  assert (Hiloc : location info = loc).
  { destruct (constructor_registration _ _ _ _ Hnew)
      as (p' & this1 & wa & this2 & n & wb & Hp2 & _ & Hreg1 & Hhost & Hloop & Hreg & _).
    assert (p' = p) as -> by congruence.
    rewrite Hreg in Hget.
    destruct (register_uniforms_location p _ _ _ _ _ _ _ Hloop name info Hget)
      as [Hold | Hnew'].
    - rewrite Hreg1 in Hold. discriminate Hold.
    - rewrite Hhost in Hnew'. congruence. }
  rewrite <- (run_registry _ _ _ _ _ Hrun) in Hget.
  (* the state after the write *)
  assert (Hreach : reachable options this w).
  { apply (reachable_run options evs this0 w1); [| exact Hrun].
    apply (reachable_new _ w0); assumption. }
  destruct (reachable_invariant _ _ _ Hreach) as (Hinv & _).
  set (thisW := set_uniforms (<[name := v]> (uniforms this)) this).
  assert (HstepW : step (write_uniform name v) this w = (Ok thisW, w)) by reflexivity.
  destruct (loop_invariant_step _ _ _ _ _ Hinv HstepW) as (HinvW & _).
  assert (HrafW : animationFrameId thisW = Some fid) by exact Hraf.
  pose proof HinvW as (_ & Hdead & Hlive).
  assert (Hd : isDestroyed thisW = false).
  { destruct (isDestroyed thisW) eqn:Hd; [| reflexivity].
    rewrite (Hdead eq_refl) in HrafW. discriminate HrafW. }
  destruct (Hlive Hd) as [q Hq].
  pose proof (frame_run thisW time w HinvW) as Hframe.
  rewrite HrafW, Hq in Hframe. cbv zeta in Hframe.
  (* the frame's calls *)
  assert (Hentry : (name, info) ∈ uniformInfo thisW)
    by (apply jsmap_get_elem_of; exact Hget).
  destruct (flat_map_elem_of_split (upload_calls thisW) _ _ Hentry)
    as (l1 & l2 & Hsplit).
  assert (Hup : upload_calls thisW (name, info) = uniform_submission ty loc v).
  { unfold upload_calls, thisW. cbn [uniforms set_uniforms].
    rewrite lookup_insert_eq. cbn [default from_option]. unfold id. rewrite Hv.
    rewrite Hity, Hiloc. destruct ty; try reflexivity. contradiction. }
  assert (Hcalls : exists before after,
            frame_calls thisW time
              (set_frames_executed (S (frames_executed w)) (set_raf_pending [] w)) q
            = before ++ uniform_submission ty loc v ++ after).
  { unfold frame_calls. rewrite Hsplit, Hup.
    match goal with
    | |- exists before after, ?a ++ ?b ++ ?c ++ (l1 ++ ?u ++ l2) ++ ?d = _ =>
        exists (a ++ b ++ c ++ l1), (l2 ++ d)
    end.
    rewrite <- !app_assoc. reflexivity. }
  destruct Hcalls as (before & after & Hcalls).
  exists (set_animationFrameId (Some (raf_next w)) thisW),
         (frame_requested
            (set_frames_executed (S (frames_executed w)) (set_raf_pending [] w))
            (before ++ uniform_submission ty loc v ++ after)),
         before, after.
  split.
  { unfold run. cbn [for_each]. rewrite bind_run, HstepW, bind_run, Hframe, Hcalls.
    reflexivity. }
  split.
  { unfold thisW. cbn [uniforms set_animationFrameId set_uniforms].
    apply lookup_insert_eq. }
  reflexivity.
Qed.

Lemma X16_written_uniform_submitted_next_frame_witness :
  exists this0 w1 this w this' w' before after,
    constructor demo_fullscreen demo_world = (Ok this0, w1) /\
    run [call_start] this0 w1 = (Ok this, w) /\
    run [write_uniform "u_color" (VArray [VInt 1; VInt 0; VInt 0; VInt 1]);
         animation_frame (num_of_Z 16)] this w = (Ok this', w') /\
    gl_calls w' =
      gl_calls w ++ before ++
      [Uniform4f 2%nat (VInt 1) (VInt 0) (VInt 0) (VInt 1)] ++ after.
Proof.
  destruct demo_fullscreen_constructs as (this0 & w1 & Hnew).
  destruct (total_run [call_start] this0 w1) as (this & w & Hrun).
  assert (Hp : program this0 = Some 2%nat).
  { change (built_program (Ok this0, w1) = Some 2%nat). rewrite <- Hnew.
    vm_compute. reflexivity. }
  assert (Hin : ("u_color", vec4) ∈ opt_uniforms_list demo_fullscreen)
    by (clear; set_solver).
  assert (Hloc : uniform_location (host demo_world) 2%nat "u_color" = Some 2%nat)
    by (vm_compute; reflexivity).
  assert (Hraf : is_Some (animationFrameId this)).
  { destruct (constructor_constructed _ _ _ _ Hnew) as [_ (_ & _ & _ & Hd & Hraf0)].
    revert Hrun. unfold run. cbn [for_each]. rewrite bind_run, start_run, Hraf0, Hd.
    intros [= <- _]. eexists. reflexivity. }
  destruct (X16_written_uniform_submitted_next_frame demo_fullscreen demo_world
              this0 w1 [call_start] this w "u_color" vec4 2%nat 2%nat
              (VArray [VInt 1; VInt 0; VInt 0; VInt 1]) (num_of_Z 16)
              eq_refl Hnew demo_fullscreen_names_distinct Hin
              ltac:(discriminate) Hp Hloc Hrun Hraf eq_refl)
    as (this' & w' & before & after & Hrun2 & _ & Hcalls).
  exists this0, w1, this, w, this', w', before, after.
  split; [exact Hnew |]. split; [exact Hrun |]. split; [exact Hrun2 | exact Hcalls].
Defined.

(** ** Shaders do not outlive construction *)

Lemma no_shader_created_filter calls :
  Forall no_shader_created calls -> List.filter creates_shader calls = [].
Proof.
  induction 1 as [|c rest Hc _ IH]; [reflexivity |].
  destruct c; cbn in *; first [contradiction | exact IH].
Qed.

Lemma createShader_Ok kind source w h w' :
  createShader kind source w = (Ok h, w') ->
  gl_calls w' =
    gl_calls w ++ [CreateShader kind (Some h); ShaderSource h source; CompileShader h].
Proof.
  unfold createShader. run_monad.
  destruct (create_succeeds (host w) (next_handle w)); cbn; [| discriminate].
  destruct (compile_status (host w) (next_handle w)); cbn; [| discriminate].
  intros [= <- <-]. cbn. rewrite <- !app_assoc. reflexivity.
Qed.

Lemma createProgram_Ok vs fs w p w' :
  createProgram vs fs w = (Ok p, w') ->
  exists calls, gl_calls w' = gl_calls w ++ calls /\ Forall no_shader_created calls.
Proof.
  intros Hrun.
  refine (adds_calls_run no_shader_created (createProgram vs fs) _ _ _ _ Hrun).
  unfold createProgram. calls_auto.
Qed.

Lemma adds_no_shader_handleResize this callback :
  adds_calls no_shader_created (handleResize this callback).
Proof. unfold handleResize, drawingBufferSize. calls_auto. Qed.

Lemma adds_no_shader_render this time :
  adds_calls no_shader_created (render this time).
Proof.
  unfold render, drawingBufferSize.
  destruct (isDestroyed this); [calls_auto |].
  destruct (program this); [| calls_auto].
  do 3 (apply adds_calls_bind; [calls_auto | intros ?]).
  apply adds_calls_bind.
  { apply adds_calls_for_each. intros acc x. unfold upload_uniform. calls_auto. }
  intros ?. calls_auto.
Qed.

(** After construction no call and no host event creates a shader. *)
Lemma adds_no_shader_step ev this : adds_calls no_shader_created (step ev this).
Proof.
  destruct ev; cbn [step].
  - unfold start. calls_auto.
  - unfold stop. calls_auto.
  - unfold dispose, stop, removeEventListener, update_canvas.
    do 5 (apply adds_calls_bind; [calls_auto | intros ?]). calls_auto.
  - unfold setData. calls_auto.
  - unfold setTexture. calls_auto.
  - calls_auto.
  - unfold run_animation_frame.
    do 2 (apply adds_calls_bind; [calls_primitive | intros ?]).
    apply adds_calls_for_each. intros acc x.
    apply adds_calls_bind; [calls_primitive | intros ?]. apply adds_no_shader_render.
  - unfold run_resize_observer.
    apply adds_calls_bind; [calls_primitive | intros w0].
    destruct (observers w0 !! observer) as [ob|]; [| apply adds_calls_ret].
    destruct (ob_targets ob); [apply adds_calls_ret |].
    apply adds_calls_bind; [apply adds_no_shader_handleResize | intros ?].
    apply adds_calls_ret.
  - unfold update_canvas. calls_auto.
  - unfold dispatch, handleContextLost, stop.
    apply adds_calls_bind; [calls_primitive | intros ?]. calls_auto.
  - unfold dispatch, handleContextRestored.
    apply adds_calls_bind; [calls_primitive | intros ?]. calls_auto.
Qed.

Lemma adds_no_shader_run evs this : adds_calls no_shader_created (run evs this).
Proof.
  unfold run. apply adds_calls_for_each. intros acc ev. apply adds_no_shader_step.
Qed.

(** The shader calls of a successful construction. *)
Lemma constructor_shaders options w0 this w :
  constructor options w0 = (Ok this, w) ->
  exists vs fs before between after,
    gl_calls w =
      gl_calls w0 ++ before ++
      [CreateShader VERTEX_SHADER (Some vs)] ++ between ++
      [CreateShader FRAGMENT_SHADER (Some fs)] ++ after /\
    Forall no_shader_created before /\ Forall no_shader_created between /\
    Forall no_shader_created after /\
    DeleteShader vs ∈ after /\ DeleteShader fs ∈ after.
Proof.
  unfold constructor. intros H.
  inv_step H as fields wa Hfields. destruct fields as [n attrs].
  inv_step H as c wb Hcv.
  inv_step H as ctx wc Hctx.
  inv_step H as u1 wd Hl1.
  inv_step H as u2 we Hl2.
  inv_step H as this1 wg Hinit.
  assert (Hpre : exists calls, gl_calls we = gl_calls w0 ++ calls /\
                               Forall no_shader_created calls).
  { assert (Hm : adds_calls no_shader_created
                   (validate_options options (default fullscreen (opt_renderMode options));;
                    resolve_canvas options ≫= (fun c =>
                    initialize_context (default fullscreen (opt_renderMode options)) c;;
                    addEventListener c "webglcontextlost";;
                    addEventListener c "webglcontextrestored"))).
    { unfold validate_options, resolve_canvas, first_canvas, initialize_context,
        getContext, addEventListener, update_canvas. calls_auto. }
    specialize (Hm w0). revert Hm.
    rewrite bind_run, Hfields, bind_run, Hcv, bind_run, Hctx, bind_run, Hl1, Hl2.
    cbn. intros Hm. exact Hm. }
  destruct Hpre as (before & Hbefore & Hnone0).
  assert (Hpost : exists calls, gl_calls w = gl_calls wg ++ calls /\
                                Forall no_shader_created calls).
  { refine (adds_calls_run no_shader_created _ _ _ _ _ H).
    unfold new_ResizeObserver, observe. calls_auto. }
  destruct Hpost as (post & Hpost & Hnone3).
  revert Hinit. unfold initResources. intros Hinit.
  inv_step Hinit as vs w1 Hvs.
  inv_step Hinit as fs w2 Hfs.
  inv_step Hinit as p w3 Hprog.
  inv_step Hinit as u3 w4 Hd1.
  inv_step Hinit as u4 w5 Hd2.
  apply createShader_Ok in Hvs, Hfs.
  apply createProgram_Ok in Hprog as (link & Hlink & Hnone1).
  assert (Hw5 : gl_calls w5 = gl_calls w3 ++ [DeleteShader vs; DeleteShader fs]).
  { revert Hd1 Hd2. run_monad. intros [= _ <-] [= _ <-]. cbn.
    rewrite <- app_assoc. reflexivity. }
  assert (Htail : exists calls, gl_calls wg = gl_calls w5 ++ calls /\
                                Forall no_shader_created calls).
  { refine (adds_calls_run no_shader_created _ _ _ _ _ Hinit).
    apply adds_calls_bind.
    { cbn [renderMode set_program].
      destruct (default fullscreen (opt_renderMode options)).
      - unfold initFullscreenResources. calls_auto.
      - unfold initInstancedResources, bind_attribute. calls_auto. }
    intros this2.
    do 2 (apply adds_calls_bind; [calls_primitive | intros ?]).
    apply adds_calls_bind.
    { destruct (opt_uniforms options); [| apply adds_calls_ret].
      apply adds_calls_bind.
      - apply adds_calls_for_each. intros acc x. unfold register_uniform. calls_auto.
      - intros [? ?]. apply adds_calls_ret. }
    intros this3.
    apply adds_calls_bind; [apply adds_no_shader_handleResize | intros ?].
    apply adds_calls_ret. }
  destruct Htail as (tail & Htail & Hnone2).
  lazymatch type of Hvs with
  | _ = _ ++ [_; ?a; ?b] =>
      lazymatch type of Hfs with
      | _ = _ ++ [_; ?c; ?d] =>
          exists vs, fs, before, [a; b],
            ([c; d] ++ link ++ [DeleteShader vs; DeleteShader fs] ++ tail ++ post)
      end
  end.
  split.
  { rewrite Hpost, Htail, Hw5, Hlink, Hfs, Hvs, Hbefore.
    rewrite <- !app_assoc. reflexivity. }
  split; [exact Hnone0 |].
  split; [repeat constructor |].
  split.
  { repeat (apply Forall_app; split); try assumption; repeat constructor. }
  rewrite !elem_of_app. split.
  - right. right. left. apply elem_of_cons. now left.
  - right. right. left. apply elem_of_cons. right. apply elem_of_cons. now left.
Qed.

(** X17. Shaders do not outlive construction: on an instance constructed
    in a context whose trace shows no shader creation yet, after any
    history of calls and host events the trace shows exactly two shader
    creations, the vertex shader and then the fragment shader of the
    constructor, and both of them deleted. *)
Theorem X17_shaders_released_after_construction
    (options : ShaderUpOptions) (w0 : World) (this0 : ShaderUp) (w1 : World)
    (evs : list Event) (this : ShaderUp) (w : World) :
  (forall kind r, CreateShader kind r ∉ gl_calls w0) ->
  constructor options w0 = (Ok this0, w1) ->
  run evs this0 w1 = (Ok this, w) ->
  exists vs fs,
    List.filter creates_shader (gl_calls w) =
      [CreateShader VERTEX_SHADER (Some vs); CreateShader FRAGMENT_SHADER (Some fs)] /\
    DeleteShader vs ∈ gl_calls w /\ DeleteShader fs ∈ gl_calls w.
Proof.
  intros Hfresh Hnew Hrun.
  destruct (constructor_shaders _ _ _ _ Hnew)
    as (vs & fs & before & between & after & Hcalls & Hb & Hm & Ha & Hdv & Hdf).
  destruct (adds_calls_run _ _ _ _ _ (adds_no_shader_run evs this0) Hrun)
    as (later & Hlater & Hl).
  assert (Hold : List.filter creates_shader (gl_calls w0) = []).
  { clear -Hfresh. induction (gl_calls w0) as [|c rest IH]; [reflexivity |].
    assert (Hrest : forall kind r, CreateShader kind r ∉ rest).
    { intros kind r Hin. apply (Hfresh kind r). apply elem_of_cons. now right. }
    destruct c; cbn; try (apply IH, Hrest).
    exfalso. apply (Hfresh kind result). apply elem_of_cons. now left. }
  exists vs, fs. split.
  - rewrite Hlater, Hcalls. rewrite !List.filter_app.
    rewrite Hold, (no_shader_created_filter _ Hb), (no_shader_created_filter _ Hm),
      (no_shader_created_filter _ Ha), (no_shader_created_filter _ Hl).
    reflexivity.
  - rewrite Hlater, Hcalls, !elem_of_app. split.
    + left. right. right. right. right. right. exact Hdv.
    + left. right. right. right. right. right. exact Hdf.
Qed.

Lemma X17_shaders_released_after_construction_witness :
  exists this0 w1 this w vs fs,
    constructor demo_fullscreen demo_world = (Ok this0, w1) /\
    run [call_start; animation_frame (num_of_Z 16); call_dispose] this0 w1
      = (Ok this, w) /\
    List.filter creates_shader (gl_calls w) =
      [CreateShader VERTEX_SHADER (Some vs); CreateShader FRAGMENT_SHADER (Some fs)] /\
    DeleteShader vs ∈ gl_calls w /\ DeleteShader fs ∈ gl_calls w.
Proof.
  destruct demo_fullscreen_constructs as (this0 & w1 & Hnew).
  destruct (total_run [call_start; animation_frame (num_of_Z 16); call_dispose]
              this0 w1) as (this & w & Hrun).
  assert (Hfresh : forall kind r, CreateShader kind r ∉ gl_calls demo_world).
  { clear. intros kind r Hin. vm_compute in Hin. inversion Hin. }
  destruct (X17_shaders_released_after_construction demo_fullscreen demo_world
              this0 w1 _ this w Hfresh Hnew Hrun) as (vs & fs & Hf & Hv & Hs).
  exists this0, w1, this, w, vs, fs.
  split; [exact Hnew |]. split; [exact Hrun |]. split; [exact Hf |].
  split; [exact Hv | exact Hs].
Defined.

(** ** A link failure *)

Lemma validate_options_Ok options w :
  (opt_renderMode options = Some instanced ->
   exists n attrs,
     opt_numInstances options = Some n /\ number_truthy n = true /\
     opt_attributes options = Some attrs) ->
  exists fields,
    validate_options options (default fullscreen (opt_renderMode options)) w
      = (Ok fields, w).
Proof.
  intros Hfields. unfold validate_options.
  destruct (opt_renderMode options) as [[|]|]; cbn; try (eexists; reflexivity).
  destruct (Hfields eq_refl) as (n & attrs & -> & -> & ->). eexists. reflexivity.
Qed.

Lemma initialize_context_Ok mode c w :
  webgl2_available (host w) c = true ->
  initialize_context mode c w = (Ok WebGL2, w).
Proof.
  intros Hgl. unfold initialize_context, getContext. run_monad.
  destruct mode; cbn; rewrite Hgl; reflexivity.
Qed.

Lemma createShader_run kind source w :
  create_succeeds (host w) (next_handle w) = true ->
  compile_status (host w) (next_handle w) = true ->
  createShader kind source w =
  (Ok (next_handle w),
   set_gl_calls
     (gl_calls w ++ [CreateShader kind (Some (next_handle w));
                     ShaderSource (next_handle w) source;
                     CompileShader (next_handle w)])
     (set_next_handle (S (next_handle w)) w)).
Proof.
  intros Hc Hs. unfold createShader. run_monad. rewrite Hc. cbn. rewrite Hs. cbn.
  rewrite <- !app_assoc. reflexivity.
Qed.

Lemma createProgram_unlinked vs fs w :
  create_succeeds (host w) (next_handle w) = true ->
  link_status (host w) (next_handle w) = false ->
  createProgram vs fs w =
  (Throw (Error ("[ShaderUp] Program linking failed:
" +:+ program_info_log (host w) (next_handle w))),
   set_gl_calls
     (gl_calls w ++ [CreateProgram (Some (next_handle w));
                     AttachShader (next_handle w) vs;
                     AttachShader (next_handle w) fs;
                     LinkProgram (next_handle w);
                     DeleteProgram (next_handle w)])
     (set_next_handle (S (next_handle w)) w)).
Proof.
  intros Hc Hs. unfold createProgram. run_monad. rewrite Hc. cbn. rewrite Hs. cbn.
  rewrite <- !app_assoc. reflexivity.
Qed.

(** X18. A link failure: with valid options, a canvas and a WebGL 2
    context, on a host that creates and compiles what it is asked to but
    does not link the program, the constructor throws the linking error
    with the program's info log, having submitted exactly the two shader
    builds, the link and the deletion of the program: the program is
    deleted, neither shader is. *)
Theorem X18_link_failure_deletes_program_only
    (options : ShaderUpOptions) (w : World) (c : CanvasRef) :
  (opt_renderMode options = Some instanced ->
   exists n attrs,
     opt_numInstances options = Some n /\ number_truthy n = true /\
     opt_attributes options = Some attrs) ->
  resolve_canvas options w = (Ok c, w) ->
  webgl2_available (host w) c = true ->
  (forall h, create_succeeds (host w) h = true) ->
  (forall h, compile_status (host w) h = true) ->
  (forall h, link_status (host w) h = false) ->
  exists w' vs fs p,
    constructor options w =
      (Throw (Error ("[ShaderUp] Program linking failed:
" +:+ program_info_log (host w) p)), w') /\
    gl_calls w' = gl_calls w ++ failed_link_calls options vs fs p /\
    (forall shader, DeleteShader shader ∉ failed_link_calls options vs fs p) /\
    DeleteProgram p ∈ failed_link_calls options vs fs p.
Proof.
  intros Hfields Hcanvas Hgl Hcreate Hcompile Hlink.
  destruct (validate_options_Ok options w Hfields) as ([n attrs] & Hvalid).
  set (h := next_handle w).
  exists (set_gl_calls (gl_calls w ++ failed_link_calls options h (S h) (S (S h)))
            (set_next_handle (S (S (S h)))
               (set_canvases
                  (<[c := set_listeners
                            (listeners (default blank_canvas (canvases w !! c))
                               ∪ {["webglcontextlost"]} ∪ {["webglcontextrestored"]})
                            (default blank_canvas (canvases w !! c))]> (canvases w))
                  w))),
    h, (S h), (S (S h)).
  split; [| split; [reflexivity | split]].
  - unfold constructor.
    rewrite bind_run, Hvalid, bind_run, Hcanvas, bind_run,
      (initialize_context_Ok _ _ _ Hgl).
    unfold addEventListener, update_canvas.
    rewrite bind_run. cbn [modify]. rewrite bind_run. cbn [modify].
    unfold initResources. rewrite bind_run.
    rewrite bind_run, createShader_run by (cbn; auto).
    rewrite bind_run, createShader_run by (cbn; auto).
    rewrite bind_run, createProgram_unlinked by (cbn; auto).
    unfold failed_link_calls, vertex_source, getDefaultVertexShader. cbn.
    rewrite lookup_insert_eq, insert_insert_eq. cbn.
    rewrite <- !app_assoc. reflexivity.
  - intros shader Hin. unfold failed_link_calls in Hin.
    repeat (apply elem_of_cons in Hin as [Heq | Hin]; [discriminate Heq |]).
    inversion Hin.
  - unfold failed_link_calls. do 10 (apply elem_of_cons; right).
    apply elem_of_cons. now left.
Qed.

Lemma X18_link_failure_deletes_program_only_witness :
  exists w' vs fs p,
    constructor demo_fullscreen unlinkable_world =
      (Throw (Error ("[ShaderUp] Program linking failed:
" +:+ program_info_log (host unlinkable_world) p)), w') /\
    gl_calls w' = gl_calls unlinkable_world ++ failed_link_calls demo_fullscreen vs fs p.
Proof.
  destruct (X18_link_failure_deletes_program_only demo_fullscreen unlinkable_world 0%nat)
    as (w' & vs & fs & p & Hthrow & Hcalls & _).
  - intros Hmode. discriminate Hmode.
  - reflexivity.
  - reflexivity.
  - intros h. reflexivity.
  - intros h. reflexivity.
  - intros h. reflexivity.
  - exists w', vs, fs, p. split; [exact Hthrow | exact Hcalls].
Defined.
